(** * FINE.expansionModules.transformationPath: myopic foresight

    A shallow embedding of [getStock] and [optimizeMyopic] of
    [FINE/expansionModules/transformationPath.py], with the properties of
    the stock carry-over and of the campaign loop.

    Conventions of the embedding:
    - a [pd.Series] is an association list from index label to value;
    - years and lifetimes are integers ([Z]);
    - capacities are values of a type [Val] of which the code only uses the
      constants [0] and [-1] and the NaN test of [fillna];
    - a Python exception is a value of [Exn]; a call that raises leaves the
      mutations made so far in place. *)

From stdpp Require Import gmap strings list fin_maps pretty.
From Stdlib Require Import ZArith Lia.

Local Open Scope Z_scope.
Local Open Scope string_scope.

(** ** Python and pandas values *)

Inductive Exn : Type :=
  | KeyError (key : string)
  | ValueError (msg : string)
  | RuntimeError (msg : string)
  | ConfigurationError (msg : string)
  | ExternalFailure (msg : string).

Inductive result (A : Type) : Type :=
  | Ok (a : A)
  | Raise (e : Exn).
Arguments Ok {A} a.
Arguments Raise {A} e.

(** [str(i)] for a Python [int]. *)
Definition str (i : Z) : string := pretty i.

(** [needle in hay] for two Python strings. *)
Fixpoint contains (needle hay : string) : bool :=
  String.prefix needle hay
  || match hay with
     | EmptyString => false
     | String _ hay' => contains needle hay'
     end.

(** A [pd.Series]: index labels with their values, in index order. *)
Definition Series (A : Type) : Type := list (string * A).

(** A [pd.DataFrame]: row labels, each with the row as a series over the
    column labels. *)
Definition DataFrame (A : Type) : Type := list (string * Series A).

(** [series - scalar]. *)
Definition series_sub (s : Series Z) (n : Z) : Series Z :=
  map (fun lv : string * Z => (lv.1, lv.2 - n)) s.

(** [any(series <= 0)]: iterating a series yields its values. *)
Definition any_le0 (s : Series Z) : bool :=
  existsb (fun lv : string * Z => (lv.2 <=? 0)%Z) s.

(** [pd.Series(v, index=labels)]. *)
Definition const_series {A : Type} (v : A) (labels : list string) : Series A :=
  map (fun l => (l, v)) labels.

(** [index.unique()]: the labels in order of first appearance. *)
Fixpoint unique (l : list string) : list string :=
  match l with
  | [] => []
  | x :: l' => x :: filter (fun y => y ≠ x) (unique l')
  end.

(** ** Python dictionaries that are iterated: keys in insertion order *)

Fixpoint dict_get {A : Type} (k : string) (d : list (string * A)) : option A :=
  match d with
  | [] => None
  | (k', v) :: d' => if decide (k' = k) then Some v else dict_get k d'
  end.

(** [d[k] = v]: an existing key keeps its position, a new key goes last. *)
Fixpoint dict_set {A : Type} (k : string) (v : A) (d : list (string * A))
  : list (string * A) :=
  match d with
  | [] => [(k, v)]
  | (k', v') :: d' =>
      if decide (k' = k) then (k, v) :: d' else (k', v') :: dict_set k v d'
  end.

Definition dict_keys {A : Type} (d : list (string * A)) : list string :=
  map fst d.

(** ** The energy system model, as far as the stock roller reads and writes it *)

Record Component (Val : Type) : Type := mkComponent {
  name : string;
  modelingClass : string;
  technicalLifetime : Series Z;
  lifetime : Series Z;
  capacityFix : option (Series Val);
  capacityMax : option (Series Val);
  capacityMin : option (Series Val);
  sharedPotentialID : option string
}.
Arguments mkComponent {Val} _ _ _ _ _ _ _ _.
Arguments name {Val} _.
Arguments modelingClass {Val} _.
Arguments technicalLifetime {Val} _.
Arguments lifetime {Val} _.
Arguments capacityFix {Val} _.
Arguments capacityMax {Val} _.
Arguments capacityMin {Val} _.
Arguments sharedPotentialID {Val} _.

(** [c.name = v], [c.lifetime = v], ... on a component object. *)
Definition set_name {Val} (v : string) (c : Component Val) : Component Val :=
  mkComponent v (modelingClass c) (technicalLifetime c) (lifetime c)
    (capacityFix c) (capacityMax c) (capacityMin c) (sharedPotentialID c).

Definition set_lifetime {Val} (v : Series Z) (c : Component Val) : Component Val :=
  mkComponent (name c) (modelingClass c) (technicalLifetime c) v
    (capacityFix c) (capacityMax c) (capacityMin c) (sharedPotentialID c).

Definition set_capacityFix {Val} (v : option (Series Val)) (c : Component Val)
  : Component Val :=
  mkComponent (name c) (modelingClass c) (technicalLifetime c) (lifetime c)
    v (capacityMax c) (capacityMin c) (sharedPotentialID c).

Definition set_capacityMax {Val} (v : option (Series Val)) (c : Component Val)
  : Component Val :=
  mkComponent (name c) (modelingClass c) (technicalLifetime c) (lifetime c)
    (capacityFix c) v (capacityMin c) (sharedPotentialID c).

Definition set_capacityMin {Val} (v : option (Series Val)) (c : Component Val)
  : Component Val :=
  mkComponent (name c) (modelingClass c) (technicalLifetime c) (lifetime c)
    (capacityFix c) (capacityMax c) v (sharedPotentialID c).

Definition set_sharedPotentialID {Val} (v : option string) (c : Component Val)
  : Component Val :=
  mkComponent (name c) (modelingClass c) (technicalLifetime c) (lifetime c)
    (capacityFix c) (capacityMax c) (capacityMin c) v.

(** The table behind [getOptimalValues('capacityVariablesOptimum')['values']]:
    a data frame whose index is either the component names (one row per
    component, columns are the locations) or a two-level index of component
    name and location. *)
Inductive OptTable (Val : Type) : Type :=
  | FlatTable (rows : list (string * Series Val))
  | MultiTable (rows : list ((string * string) * Series Val)).
Arguments FlatTable {Val} rows.
Arguments MultiTable {Val} rows.

(** [compValues.index.get_level_values(0)]. *)
Definition level0 {Val} (t : OptTable Val) : list string :=
  match t with
  | FlatTable rows => map fst rows
  | MultiTable rows => map (fun r => r.1.1) rows
  end.

(** What [compValues.loc[comp]] evaluates to. *)
Inductive LocResult (Val : Type) : Type :=
  | LocSeries (s : Series Val)
  | LocFrame (f : DataFrame Val).
Arguments LocSeries {Val} s.
Arguments LocFrame {Val} f.

(** [compValues.loc[comp]]: on a flat index a label that occurs once selects
    its row as a series; a repeated label, or the outer label of a two-level
    index, selects a frame. *)
Definition table_loc {Val} (t : OptTable Val) (comp : string) : LocResult Val :=
  match t with
  | FlatTable rows =>
      match filter (fun r => r.1 = comp) rows with
      | [r] => LocSeries r.2
      | rs => LocFrame rs
      end
  | MultiTable rows =>
      LocFrame (map (fun r => (r.1.2, r.2)) (filter (fun r => r.1.1 = comp) rows))
  end.

(** One modelling domain: its components by name, and its optimal
    capacities ([None] when the domain has none). *)
Record ComponentModel (Val : Type) : Type := mkComponentModel {
  componentsDict : gmap string (Component Val);
  capacityVariablesOptimum : option (OptTable Val)
}.
Arguments mkComponentModel {Val} _ _.
Arguments componentsDict {Val} _.
Arguments capacityVariablesOptimum {Val} _.

Record EnergySystemModel (Val : Type) : Type := mkEnergySystemModel {
  locations : list string;
  componentModelingDict : list (string * ComponentModel Val)
}.
Arguments mkEnergySystemModel {Val} _ _.
Arguments locations {Val} _.
Arguments componentModelingDict {Val} _.

Definition set_componentsDict {Val} (d : gmap string (Component Val))
    (cm : ComponentModel Val) : ComponentModel Val :=
  mkComponentModel d (capacityVariablesOptimum cm).

Definition set_componentModelingDict {Val}
    (d : list (string * ComponentModel Val)) (esM : EnergySystemModel Val)
  : EnergySystemModel Val :=
  mkEnergySystemModel (locations esM) d.

(** [esM.componentModelingDict[mdl].componentsDict[comp]]. *)
Definition getComponent {Val} (esM : EnergySystemModel Val) (mdl comp : string)
  : option (Component Val) :=
  cm ← dict_get mdl (componentModelingDict esM); componentsDict cm !! comp.

(** A name is registered when some domain has a component under it. *)
Definition isRegistered {Val} (esM : EnergySystemModel Val) (nm : string) : bool :=
  existsb (fun mdl => bool_decide (is_Some (getComponent esM mdl nm)))
          (dict_keys (componentModelingDict esM)).

(** Modelled from the spec: [EnergySystemModel.add] is not part of this
    file. It registers a new component, and fails if the name already
    exists; the component goes to the domain of its modelling technique,
    which is created when the model has no such domain yet. *)
Definition add {Val} (c : Component Val) (esM : EnergySystemModel Val)
  : result (EnergySystemModel Val) :=
  if isRegistered esM (name c) then
    Raise (ValueError ("Component name " ++ name c ++ " is not unique."))
  else
    let mdl := modelingClass c in
    let cm := default (mkComponentModel ∅ None)
                      (dict_get mdl (componentModelingDict esM)) in
    Ok (set_componentModelingDict
          (dict_set mdl (set_componentsDict (<[name c := c]> (componentsDict cm)) cm)
                    (componentModelingDict esM))
          esM).

(** ** getStock *)

Section StockRoller.

Context {Val : Type}.

(** The number [0] of [pd.Series(0, ...)], the number [-1] and the NaN
    test of [fillna(value=-1)]. *)
Variable zeroVal : Val.
Variable minusOne : Val.
Variable isnan : Val -> bool.

(** [utils.preprocess2dimData(frame, discard=...)] is not part of this
    file: it is a parameter of the development. *)
Variable preprocess2dimData : DataFrame Val -> bool -> result (Series Val).

(** [frame.fillna(value=v)]. *)
Definition fillna (v : Val) (f : DataFrame Val) : DataFrame Val :=
  map (fun row : string * Series Val =>
         (row.1, map (fun cell : string * Val =>
                        (cell.1, if isnan cell.2 then v else cell.2)) row.2))
      f.

(** [comp + '_stock' + '_' + str(mileStoneYear)]. *)
Definition stockName (comp : string) (mileStoneYear : Z) : string :=
  comp ++ "_stock" ++ "_" ++ str mileStoneYear.

(** Lines 140-143: the four [setattr] calls on an expired stock. *)
Definition retire (locs : list string) (c : Component Val) : Component Val :=
  set_sharedPotentialID None
    (set_capacityMin (Some (const_series zeroVal locs))
       (set_capacityMax (Some (const_series zeroVal locs))
          (set_capacityFix (Some (const_series zeroVal locs)) c))).

(** Lines 126-130: the capacity given to a new stock component. *)
Definition fixCapacity (compValues : OptTable Val) (comp : string)
    (stockComp : Component Val) : result (Component Val) :=
  match capacityFix stockComp with
  | None =>
      match table_loc compValues comp with
      | LocFrame f =>
          match preprocess2dimData (fillna minusOne f) false with
          | Ok s => Ok (set_capacityFix (Some s) stockComp)
          | Raise e => Raise e
          end
      | LocSeries s => Ok (set_capacityFix (Some s) stockComp)
      end
  | Some _ => Ok stockComp
  end.

(** [componentsDict[comp]] of domain [mdl] now holds [c]. *)
Definition storeComponent (mdl comp : string) (c : Component Val)
    (esM : EnergySystemModel Val) : EnergySystemModel Val :=
  match dict_get mdl (componentModelingDict esM) with
  | None => esM
  | Some cm =>
      set_componentModelingDict
        (dict_set mdl (set_componentsDict (<[comp := c]> (componentsDict cm)) cm)
                  (componentModelingDict esM))
        esM
  end.

(** The body of the loop over the component names (lines 118-143). The
    model is mutated in place: the result is the model after the body and
    the exception raised, if any. *)
Definition rollComponent (mileStoneYear nbOfRepresentedYears : Z)
    (mdl : string) (compValues : OptTable Val) (comp : string)
    (esM : EnergySystemModel Val) : EnergySystemModel Val * option Exn :=
  match dict_get mdl (componentModelingDict esM) with
  | None => (esM, Some (KeyError mdl))
  | Some cm =>
      match componentsDict cm !! comp with
      | None => (esM, Some (KeyError comp))
      | Some c =>
          if negb (contains "stock" (name c)) then
            let stockComp :=
              set_lifetime (series_sub (technicalLifetime c) nbOfRepresentedYears)
                           (set_name (stockName comp mileStoneYear) c) in
            if any_le0 (lifetime stockComp) then (esM, None)
            else
              match fixCapacity compValues comp stockComp with
              | Raise e => (esM, Some e)
              | Ok stockComp' =>
                  match add stockComp' esM with
                  | Ok esM' => (esM', None)
                  | Raise e => (esM, Some e)
                  end
              end
          else if contains "stock" (name c) then
            let c1 := set_lifetime (series_sub (lifetime c) nbOfRepresentedYears) c in
            let c2 := if any_le0 (lifetime c1) then retire (locations esM) c1
                      else c1 in
            (storeComponent mdl comp c2 esM, None)
          else (esM, None)
      end
  end.

(** [for comp in compValues.index.get_level_values(0).unique(): ...]. *)
Fixpoint rollComponents (mileStoneYear nbOfRepresentedYears : Z)
    (mdl : string) (compValues : OptTable Val) (comps : list string)
    (esM : EnergySystemModel Val) : EnergySystemModel Val * option Exn :=
  match comps with
  | [] => (esM, None)
  | comp :: comps' =>
      match rollComponent mileStoneYear nbOfRepresentedYears mdl compValues
                          comp esM with
      | (esM', None) =>
          rollComponents mileStoneYear nbOfRepresentedYears mdl compValues
                         comps' esM'
      | (esM', Some e) => (esM', Some e)
      end
  end.

(** The body of the loop over the domains (lines 115-143). *)
Definition rollDomain (mileStoneYear nbOfRepresentedYears : Z) (mdl : string)
    (esM : EnergySystemModel Val) : EnergySystemModel Val * option Exn :=
  match dict_get mdl (componentModelingDict esM) with
  | None => (esM, Some (KeyError mdl))
  | Some cm =>
      match capacityVariablesOptimum cm with
      | None => (esM, None)
      | Some compValues =>
          rollComponents mileStoneYear nbOfRepresentedYears mdl compValues
                         (unique (level0 compValues)) esM
      end
  end.

(** [for mdl in esM.componentModelingDict.keys(): ...]. The key iterator
    of a dictionary raises [RuntimeError] when it is asked for the next
    key after the dictionary has changed size; [size0] is the size when
    the loop started. *)
Fixpoint rollDomains (mileStoneYear nbOfRepresentedYears : Z) (size0 : nat)
    (mdls : list string) (esM : EnergySystemModel Val)
  : EnergySystemModel Val * option Exn :=
  if negb (Nat.eqb (length (componentModelingDict esM)) size0) then
    (esM, Some (RuntimeError "dictionary changed size during iteration"))
  else
    match mdls with
    | [] => (esM, None)
    | mdl :: mdls' =>
        match rollDomain mileStoneYear nbOfRepresentedYears mdl esM with
        | (esM', None) =>
            rollDomains mileStoneYear nbOfRepresentedYears size0 mdls' esM'
        | (esM', Some e) => (esM', Some e)
        end
    end.

(** [getStock(esM, mileStoneYear, nbOfRepresentedYears)]: the model object
    after the call, and [None] when the call returned it, [Some e] when it
    raised [e]. *)
Definition getStock (esM : EnergySystemModel Val)
    (mileStoneYear nbOfRepresentedYears : Z)
  : EnergySystemModel Val * option Exn :=
  rollDomains mileStoneYear nbOfRepresentedYears
              (length (componentModelingDict esM))
              (dict_keys (componentModelingDict esM)) esM.

End StockRoller.

(** ** The horizon planner *)

(** The last step of the planner: fewer than two runs is an error. *)
Definition resolvedHorizon (nbOfSteps nbOfRepresentedYears : Z) : result (Z * Z) :=
  if decide (nbOfSteps < 1) then
    Raise (ConfigurationError "fewer than two optimization runs")
  else Ok (nbOfSteps, nbOfRepresentedYears).

(** Modelled from the spec: [utils.checkAndSetTimeHorizon] is not part of
    this file. Given the start year and optionally the end year, the number
    of steps and the years per step, it resolves the pair (number of steps,
    years per step) with [startYear + nbOfSteps * nbOfRepresentedYears =
    endYear] when the end year is given; it fails with a configuration error
    when the values given are inconsistent or do not determine both numbers,
    and when fewer than two runs (start year and end year) would result. *)
Definition checkAndSetTimeHorizon (startYear : Z)
    (endYear nbOfSteps nbOfRepresentedYears : option Z) : result (Z * Z) :=
  match endYear, nbOfSteps, nbOfRepresentedYears with
  | Some e, _, _ =>
      if decide (e = startYear) then
        Raise (ConfigurationError "fewer than two optimization runs")
      else
        match nbOfSteps, nbOfRepresentedYears with
        | Some n, Some r =>
            if decide (startYear + n * r = e) then resolvedHorizon n r
            else Raise (ConfigurationError "inconsistent time horizon")
        | Some n, None =>
            if decide (n ≠ 0 ∧ (e - startYear) `mod` n = 0) then
              resolvedHorizon n ((e - startYear) `div` n)
            else Raise (ConfigurationError "inconsistent time horizon")
        | None, Some r =>
            if decide (r ≠ 0 ∧ (e - startYear) `mod` r = 0) then
              resolvedHorizon ((e - startYear) `div` r) r
            else Raise (ConfigurationError "inconsistent time horizon")
        | None, None => Raise (ConfigurationError "under-specified time horizon")
        end
  | None, Some n, Some r => resolvedHorizon n r
  | None, _, _ => Raise (ConfigurationError "under-specified time horizon")
  end.

(** ** optimizeMyopic *)

(** The keyword arguments of [esM.optimize]. *)
Record OptimizeArgs : Type := mkOptimizeArgs {
  declaresOptimizationProblem : bool;
  timeSeriesAggregation : bool;
  logFileName : string;
  threads : Z;
  solver : string;
  timeLimit : option Z;
  optimizationSpecs : string;
  warmstart : bool
}.

(** The calls of [optimizeMyopic] to its collaborators, with the arguments
    other than the model. *)
Inductive Call : Type :=
  | Print (text : string) (value : Z)
  | SetNewCO2ReductionTarget (targets : option (list Z)) (step : Z)
  | Cluster (numberOfTypicalPeriods numberOfTimeStepsPerPeriod : Z)
  | Optimize (args : OptimizeArgs)
  | WriteOptimizationOutputToExcel (outputFileName : string)
      (optSumOutputLevel optValOutputLevel : Z).

(** The objects of a campaign: the model object [esM] refers to, which every
    step mutates in place; the objects made by [copy.deepcopy], by address
    in order of creation; and the calls made so far. *)
Record World (Val : Type) : Type := mkWorld {
  model : EnergySystemModel Val;
  copies : list (EnergySystemModel Val);
  calls : list Call
}.
Arguments mkWorld {Val} _ _ _.
Arguments model {Val} _.
Arguments copies {Val} _.
Arguments calls {Val} _.

(** The local variables of [optimizeMyopic] that the loop assigns;
    [myopicResults] maps a key to the address of a copy. *)
Record Locals : Type := mkLocals {
  var_mileStoneYear : Z;
  var_logFileName : string;
  var_myopicResults : list (string * nat)
}.

(** Computations on the world that may raise. *)
Definition M (Val A : Type) : Type := World Val -> World Val * result A.

Definition ret {Val A} (a : A) : M Val A := fun w => (w, Ok a).

Definition bind {Val A B} (m : M Val A) (k : A -> M Val B) : M Val B :=
  fun w => match m w with
           | (w', Ok a) => k a w'
           | (w', Raise e) => (w', Raise e)
           end.

Notation "x <~ m ;; k" := (bind m (fun x => k))
  (at level 100, m at next level, right associativity).
Notation "m ;;; k" := (bind m (fun _ => k))
  (at level 100, right associativity).

(** A call that neither reads nor writes the model. *)
Definition emit {Val} (c : Call) : M Val unit :=
  fun w => (mkWorld (model w) (copies w) (calls w ++ [c]), Ok tt).

(** A call of a collaborator that mutates the model in place. *)
Definition onModel {Val} (c : Call)
    (f : EnergySystemModel Val -> result (EnergySystemModel Val)) : M Val unit :=
  fun w => match f (model w) with
           | Ok m => (mkWorld m (copies w) (calls w ++ [c]), Ok tt)
           | Raise e => (mkWorld (model w) (copies w) (calls w ++ [c]), Raise e)
           end.

(** A call of a collaborator that reads the model. *)
Definition readModel {Val} (c : Call)
    (f : EnergySystemModel Val -> result unit) : M Val unit :=
  fun w => (mkWorld (model w) (copies w) (calls w ++ [c]), f (model w)).

(** A check: it returns or raises, and leaves no trace. *)
Definition check {Val} (f : EnergySystemModel Val -> result unit) : M Val unit :=
  fun w => (w, f (model w)).

(** [copy.deepcopy(esM)]: a new object with the value of the model. *)
Definition deepcopy {Val} : M Val nat :=
  fun w => (mkWorld (model w) (copies w ++ [model w]) (calls w),
            Ok (length (copies w))).

Section Campaign.

Context {Val : Type}.
Variable zeroVal : Val.
Variable minusOne : Val.
Variable isnan : Val -> bool.
Variable preprocess2dimData : DataFrame Val -> bool -> result (Series Val).

(** The collaborators of the campaign, none of them part of this file. *)
Variable checkSinkCompCO2toEnvironment :
  EnergySystemModel Val -> option (list Z) -> result unit.
Variable checkCO2ReductionTargets : option (list Z) -> Z -> result unit.
Variable setNewCO2ReductionTarget :
  EnergySystemModel Val -> option (list Z) -> Z -> result (EnergySystemModel Val).
Variable cluster : EnergySystemModel Val -> Z -> Z -> result (EnergySystemModel Val).
Variable optimize :
  EnergySystemModel Val -> OptimizeArgs -> result (EnergySystemModel Val).
Variable writeOptimizationOutputToExcel :
  EnergySystemModel Val -> string -> Z -> Z -> result unit.

(** [esM = getStock(esM, mileStoneYear, nbOfRepresentedYears)]: the model
    is mutated in place and [esM] keeps referring to it. *)
Definition callGetStock (mileStoneYear nbOfRepresentedYears : Z) : M Val unit :=
  fun w =>
    match getStock zeroVal minusOne isnan preprocess2dimData (model w)
                   mileStoneYear nbOfRepresentedYears with
    | (m, None) => (mkWorld m (copies w) (calls w), Ok tt)
    | (m, Some e) => (mkWorld m (copies w) (calls w), Raise e)
    end.

(** The body of the loop (lines 83-96). *)
Definition myopicStep (startYear nbOfRepresentedYears : Z)
    (timeSeriesAggregation : bool)
    (numberOfTypicalPeriods numberOfTimeStepsPerPeriod : Z)
    (threads : Z) (solver : string) (timeLimit : option Z)
    (optimizationSpecs : string) (CO2ReductionTargets : option (list Z))
    (step : Z) (loc : Locals) : M Val Locals :=
  let loc := mkLocals (startYear + step * nbOfRepresentedYears)
                      (var_logFileName loc) (var_myopicResults loc) in
  let loc := mkLocals (var_mileStoneYear loc)
                      ("log_" ++ str (var_mileStoneYear loc))
                      (var_myopicResults loc) in
  onModel (SetNewCO2ReductionTarget CO2ReductionTargets step)
    (fun m => setNewCO2ReductionTarget m CO2ReductionTargets step) ;;;
  (if timeSeriesAggregation then
     onModel (Cluster numberOfTypicalPeriods numberOfTimeStepsPerPeriod)
       (fun m => cluster m numberOfTypicalPeriods numberOfTimeStepsPerPeriod)
   else ret tt) ;;;
  let args := mkOptimizeArgs true timeSeriesAggregation (var_logFileName loc)
                             threads solver timeLimit optimizationSpecs false in
  onModel (Optimize args) (fun m => optimize m args) ;;;
  readModel
    (WriteOptimizationOutputToExcel ("ESM" ++ str (var_mileStoneYear loc)) 2 1)
    (fun m => writeOptimizationOutputToExcel m
                ("ESM" ++ str (var_mileStoneYear loc)) 2 1) ;;;
  snapshot <~ deepcopy ;;
  let loc := mkLocals (var_mileStoneYear loc) (var_logFileName loc)
               (dict_set ("ESM_" ++ str (var_mileStoneYear loc)) snapshot
                         (var_myopicResults loc)) in
  callGetStock (var_mileStoneYear loc) nbOfRepresentedYears ;;;
  ret loc.

(** [for step in range(0, nbOfSteps+1): ...] over the steps left. *)
Fixpoint myopicLoop (startYear nbOfRepresentedYears : Z)
    (timeSeriesAggregation : bool)
    (numberOfTypicalPeriods numberOfTimeStepsPerPeriod : Z)
    (threads : Z) (solver : string) (timeLimit : option Z)
    (optimizationSpecs : string) (CO2ReductionTargets : option (list Z))
    (steps : list Z) (loc : Locals) : M Val Locals :=
  match steps with
  | [] => ret loc
  | step :: steps' =>
      loc' <~ myopicStep startYear nbOfRepresentedYears timeSeriesAggregation
                numberOfTypicalPeriods numberOfTimeStepsPerPeriod threads
                solver timeLimit optimizationSpecs CO2ReductionTargets
                step loc ;;
      myopicLoop startYear nbOfRepresentedYears timeSeriesAggregation
        numberOfTypicalPeriods numberOfTimeStepsPerPeriod threads solver
        timeLimit optimizationSpecs CO2ReductionTargets steps' loc'
  end.

(** [optimizeMyopic(esM, startYear, ...)], started in the world where
    [esM] is the only object and no call has been made. The argument
    [warmstart] is never read. *)
Definition optimizeMyopic (esM : EnergySystemModel Val) (startYear : Z)
    (endYear nbOfSteps nbOfRepresentedYears : option Z)
    (timeSeriesAggregation : bool)
    (numberOfTypicalPeriods numberOfTimeStepsPerPeriod : Z)
    (logFileName : string) (threads : Z) (solver : string)
    (timeLimit : option Z) (optimizationSpecs : string) (warmstart : bool)
    (CO2ReductionTargets : option (list Z))
  : World Val * result (list (string * nat)) :=
  (match checkAndSetTimeHorizon startYear endYear nbOfSteps
                                nbOfRepresentedYears with
   | Raise e => fun w => (w, Raise e)
   | Ok (nbOfSteps, nbOfRepresentedYears) =>
       check (fun m => checkSinkCompCO2toEnvironment m CO2ReductionTargets) ;;;
       check (fun _ => checkCO2ReductionTargets CO2ReductionTargets nbOfSteps) ;;;
       emit (Print "Number of optimization runs: " (nbOfSteps + 1)) ;;;
       emit (Print "Number of years represented by one optimization: "
                   nbOfRepresentedYears) ;;;
       loc <~ myopicLoop startYear nbOfRepresentedYears timeSeriesAggregation
                numberOfTypicalPeriods numberOfTimeStepsPerPeriod threads
                solver timeLimit optimizationSpecs CO2ReductionTargets
                (seqZ 0 (nbOfSteps + 1))
                (mkLocals startYear logFileName []) ;;
       ret (var_myopicResults loc)
   end) (mkWorld esM [] []).

End Campaign.

(** ** Vocabulary of the properties *)

(** The optimal capacities of a domain, as [getStock] reads them. *)
Definition getTable {Val} (esM : EnergySystemModel Val) (mdl : string)
  : option (OptTable Val) :=
  cm ← dict_get mdl (componentModelingDict esM); capacityVariablesOptimum cm.

(** A component is original when its name does not carry the stock marker. *)
Definition isOriginal {Val} (c : Component Val) : Prop :=
  contains "stock" (name c) = false.

(** A component is a stock when its name carries the stock marker. *)
Definition isStock {Val} (c : Component Val) : Prop :=
  contains "stock" (name c) = true.

(** The components a result table names are components of its domain. *)
Definition tables_wf {Val} (esM : EnergySystemModel Val) : Prop :=
  forall mdl t comp,
    getTable esM mdl = Some t -> comp ∈ level0 t ->
    is_Some (getComponent esM mdl comp).

(** A name is the key of a component in one domain at most. *)
Definition unique_names {Val} (esM : EnergySystemModel Val) : Prop :=
  forall d1 d2 k,
    is_Some (getComponent esM d1 k) -> is_Some (getComponent esM d2 k) -> d1 = d2.

(** Every component sits in the domain of its modelling technique. *)
Definition classes_wf {Val} (esM : EnergySystemModel Val) : Prop :=
  forall d k c, getComponent esM d k = Some c -> modelingClass c = d.

(** A dictionary has each key once. *)
Definition keys_wf {Val} (esM : EnergySystemModel Val) : Prop :=
  NoDup (dict_keys (componentModelingDict esM)).

(** The candidate lifetime of a new stock: [technicalLifetime -
    nbOfRepresentedYears]. *)
Definition candidateLifetime {Val} (c : Component Val) (nbOfRepresentedYears : Z)
  : Series Z :=
  series_sub (technicalLifetime c) nbOfRepresentedYears.

(** Pointwise order of two series over the same index. *)
Definition series_le (s1 s2 : Series Z) : Prop :=
  Forall2 (fun a b : string * Z => a.1 = b.1 /\ a.2 <= b.2) s1 s2.

(** [s'] is the series [s] with [n] taken off the value of every label. *)
Definition series_minus (n : Z) (s' s : Series Z) : Prop :=
  Forall2 (fun a b : string * Z => a.1 = b.1 /\ a.2 = b.2 - n) s' s.

(** The series [z] has the labels [locs], in this order, and the value
    [zero] at each of them. *)
Definition isZeroSeries {A : Type} (zero : A) (locs : list string)
    (z : Series A) : Prop :=
  map fst z = locs /\ Forall (fun lv : string * A => lv.2 = zero) z.

(** The frame [f'] is the frame [f] with [v] in the place of every NaN:
    the same rows and columns, [v] where [f] has a NaN, and the value of
    [f] elsewhere. *)
Definition filledFrame {A : Type} (isnan : A -> bool) (v : A)
    (f f' : DataFrame A) : Prop :=
  Forall2
    (fun row' row : string * Series A =>
       row'.1 = row.1
       /\ Forall2
            (fun cell' cell : string * A =>
               cell'.1 = cell.1
               /\ (isnan cell.2 = true -> cell'.2 = v)
               /\ (isnan cell.2 = false -> cell'.2 = cell.2))
            row'.2 row.2)
    f' f.

(** The body of the loop for an entry neither raises nor registers a
    component: the component of the entry is a stock, or its candidate
    lifetime is at most zero at some location. *)
Definition quiet {Val} (esM : EnergySystemModel Val) (n : Z)
    (entry : string * string) : Prop :=
  exists c,
    getComponent esM entry.1 entry.2 = Some c
    /\ (isStock c
        \/ Exists (fun lv : string * Z => lv.2 - n <= 0) (technicalLifetime c)).

(** The entries of the result table of a domain, in the order of the loop. *)
Definition entries {Val} (esM : EnergySystemModel Val) (mdl : string)
  : list (string * string) :=
  match getTable esM mdl with
  | Some t => map (pair mdl) (unique (level0 t))
  | None => []
  end.

(** All entries that a call of [getStock] on [esM] goes through. *)
Definition work {Val} (esM : EnergySystemModel Val) : list (string * string) :=
  concat (map (entries esM) (dict_keys (componentModelingDict esM))).

Section StockRollerVocabulary.

Context {Val : Type}.
Variable zeroVal : Val.
Variable minusOne : Val.
Variable isnan : Val -> bool.
Variable preprocess2dimData : DataFrame Val -> bool -> result (Series Val).

(** The new stock of lines 119-122, before its capacity is fixed. *)
Definition draftStock (comp : string) (mileStoneYear nbOfRepresentedYears : Z)
    (c : Component Val) : Component Val :=
  set_lifetime (candidateLifetime c nbOfRepresentedYears)
               (set_name (stockName comp mileStoneYear) c).

(** What lines 138-143 leave of a stock component [c]. *)
Definition rolledStock (locs : list string) (nbOfRepresentedYears : Z)
    (c : Component Val) : Component Val :=
  let c1 := set_lifetime (series_sub (lifetime c) nbOfRepresentedYears) c in
  if any_le0 (lifetime c1) then retire zeroVal locs c1 else c1.

(** A sequence of loop bodies that all returned, one per entry of the
    list, from one model to another. *)
Inductive run (mileStoneYear nbOfRepresentedYears : Z)
  : list (string * string) -> EnergySystemModel Val -> EnergySystemModel Val
    -> Prop :=
  | run_nil esM : run mileStoneYear nbOfRepresentedYears [] esM esM
  | run_cons mdl comp t l esM1 esM2 esM3 :
      getTable esM1 mdl = Some t ->
      comp ∈ level0 t ->
      rollComponent zeroVal minusOne isnan preprocess2dimData mileStoneYear
                    nbOfRepresentedYears mdl t comp esM1 = (esM2, None) ->
      run mileStoneYear nbOfRepresentedYears l esM2 esM3 ->
      run mileStoneYear nbOfRepresentedYears ((mdl, comp) :: l) esM1 esM3.

End StockRollerVocabulary.

(** At least two of end year, number of steps and years per step are given. *)
Definition twoGiven (endYear nbOfSteps nbOfRepresentedYears : option Z) : Prop :=
  match endYear, nbOfSteps, nbOfRepresentedYears with
  | Some _, Some _, _ | Some _, _, Some _ | _, Some _, Some _ => True
  | _, _, _ => False
  end.

(** The key of [myopicResults] for a step. *)
Definition resultKey (startYear nbOfRepresentedYears step : Z) : string :=
  "ESM_" ++ str (startYear + step * nbOfRepresentedYears).

Section CampaignVocabulary.

Context {Val : Type}.
Variable zeroVal : Val.
Variable minusOne : Val.
Variable isnan : Val -> bool.
Variable preprocess2dimData : DataFrame Val -> bool -> result (Series Val).
Variable setNewCO2ReductionTarget :
  EnergySystemModel Val -> option (list Z) -> Z -> result (EnergySystemModel Val).
Variable cluster : EnergySystemModel Val -> Z -> Z -> result (EnergySystemModel Val).
Variable optimize :
  EnergySystemModel Val -> OptimizeArgs -> result (EnergySystemModel Val).
Variable writeOptimizationOutputToExcel :
  EnergySystemModel Val -> string -> Z -> Z -> result unit.

Variables (startYear nbOfRepresentedYears : Z) (timeSeriesAggregation : bool).
Variables (numberOfTypicalPeriods numberOfTimeStepsPerPeriod threads : Z).
Variables (solver : string) (timeLimit : option Z) (optimizationSpecs : string).
Variable CO2ReductionTargets : option (list Z).

(** The model of a step once it is solved and its results are written:
    the value that the step copies into [myopicResults]. *)
Definition solvedModel (step : Z) (m : EnergySystemModel Val)
  : result (EnergySystemModel Val) :=
  match setNewCO2ReductionTarget m CO2ReductionTargets step with
  | Raise e => Raise e
  | Ok m1 =>
      match (if timeSeriesAggregation
             then cluster m1 numberOfTypicalPeriods numberOfTimeStepsPerPeriod
             else Ok m1) with
      | Raise e => Raise e
      | Ok m2 =>
          match optimize m2
                  (mkOptimizeArgs true timeSeriesAggregation
                     ("log_" ++ str (startYear + step * nbOfRepresentedYears))
                     threads solver timeLimit optimizationSpecs false) with
          | Raise e => Raise e
          | Ok m3 =>
              match writeOptimizationOutputToExcel m3
                      ("ESM" ++ str (startYear + step * nbOfRepresentedYears))
                      2 1 with
              | Raise e => Raise e
              | Ok _ => Ok m3
              end
          end
      end
  end.

(** The solved models of the steps of a campaign that starts from [m]:
    each step solves the model that [getStock] made of the one before. *)
Fixpoint solvedModels (steps : list Z) (m : EnergySystemModel Val)
  : list (EnergySystemModel Val) :=
  match steps with
  | [] => []
  | step :: steps' =>
      match solvedModel step m with
      | Raise _ => []
      | Ok m' =>
          m' :: solvedModels steps'
                  (getStock zeroVal minusOne isnan preprocess2dimData m'
                     (startYear + step * nbOfRepresentedYears)
                     nbOfRepresentedYears).1
      end
  end.

End CampaignVocabulary.

(** ** Sample models *)

(** Capacities as integers, none of them NaN, and a frame flattened row by
    row for [preprocess2dimData]. *)
Definition nonan (v : Z) : bool := false.

Definition flatten2dim (f : DataFrame Z) (discard : bool) : result (Series Z) :=
  Ok (concat (map snd f)).

(** A wind turbine with a technical lifetime of 15 years. *)
Definition sample_wind : Component Z :=
  mkComponent "Wind" "SourceSinkModel"
    [("a", 15); ("b", 15)] [("a", 15); ("b", 15)]
    None (Some [("a", 50); ("b", 60)]) None (Some "wind").

(** The stock of an earlier step, with five years left. *)
Definition sample_stock : Component Z :=
  mkComponent "Wind_stock_2010" "SourceSinkModel"
    [("a", 15); ("b", 15)] [("a", 5); ("b", 5)]
    (Some [("a", 3); ("b", 4)]) (Some [("a", 50); ("b", 60)]) None (Some "wind").

(** A component of the user, not made by the roller, whose name happens to
    contain the marker. *)
Definition sample_feedstock : Component Z :=
  mkComponent "Feedstock" "SourceSinkModel"
    [("a", 30); ("b", 30)] [("a", 30); ("b", 30)]
    None None None None.

Definition sample_table : OptTable Z :=
  FlatTable [("Wind", [("a", 5); ("b", 7)]);
             ("Wind_stock_2010", [("a", 3); ("b", 4)]);
             ("Feedstock", [("a", 1); ("b", 2)])].

Definition sample_model : EnergySystemModel Z :=
  mkEnergySystemModel ["a"; "b"]
    [("SourceSinkModel",
      mkComponentModel
        (<["Wind" := sample_wind]>
           (<["Wind_stock_2010" := sample_stock]>
              (<["Feedstock" := sample_feedstock]> ∅)))
        (Some sample_table))].

(** A turbine whose technical lifetime ends within the next ten years at
    location [b] only. *)
Definition mixed_wind : Component Z :=
  mkComponent "Wind" "SourceSinkModel"
    [("a", 15); ("b", 5)] [("a", 15); ("b", 5)] None None None None.

Definition mixed_model : EnergySystemModel Z :=
  mkEnergySystemModel ["a"; "b"]
    [("SourceSinkModel",
      mkComponentModel (<["Wind" := mixed_wind]> ∅)
        (Some (FlatTable [("Wind", [("a", 5); ("b", 7)])])))].

(** A model with a second domain that has no optimal capacities. *)
Definition sample_battery : Component Z :=
  mkComponent "Battery" "StorageModel"
    [("a", 20); ("b", 20)] [("a", 20); ("b", 20)] None None None None.

Definition sample_storage : ComponentModel Z :=
  mkComponentModel (<["Battery" := sample_battery]> ∅) None.

Definition two_domain_model : EnergySystemModel Z :=
  mkEnergySystemModel ["a"; "b"]
    (componentModelingDict sample_model ++ [("StorageModel", sample_storage)]).

(** A model none of whose domains has optimal capacities. *)
Definition idle_model : EnergySystemModel Z :=
  mkEnergySystemModel ["a"; "b"] [("StorageModel", sample_storage)].

(** [getStock] and [optimizeMyopic] on the sample models, with collaborators
    that accept everything and leave the model as it is. *)
Definition sample_getStock :=
  getStock (Val := Z) 0 (-1) nonan flatten2dim.

Definition sample_optimizeMyopic :=
  optimizeMyopic (Val := Z) 0 (-1) nonan flatten2dim
    (fun _ _ => Ok tt) (fun _ _ => Ok tt) (fun m _ _ => Ok m)
    (fun m _ _ => Ok m) (fun m _ => Ok m) (fun _ _ _ _ => Ok tt).

(** ** Further vocabulary *)

(** The component has the attributes that lines 140-143 set on an expired
    stock. *)
Definition isRetired {Val} (zeroVal : Val) (locs : list string)
    (c : Component Val) : Prop :=
  capacityFix c = Some (const_series zeroVal locs)
  /\ capacityMax c = Some (const_series zeroVal locs)
  /\ capacityMin c = Some (const_series zeroVal locs)
  /\ sharedPotentialID c = None.

(** The calls that one step of the campaign makes, in order, when every
    call returns. *)
Definition stepCalls (startYear nbOfRepresentedYears : Z)
    (timeSeriesAggregation : bool)
    (numberOfTypicalPeriods numberOfTimeStepsPerPeriod threads : Z)
    (solver : string) (timeLimit : option Z) (optimizationSpecs : string)
    (CO2ReductionTargets : option (list Z)) (step : Z) : list Call :=
  [SetNewCO2ReductionTarget CO2ReductionTargets step]
  ++ (if timeSeriesAggregation
      then [Cluster numberOfTypicalPeriods numberOfTimeStepsPerPeriod]
      else [])
  ++ [Optimize
        (mkOptimizeArgs true timeSeriesAggregation
           ("log_" ++ str (startYear + step * nbOfRepresentedYears))
           threads solver timeLimit optimizationSpecs false);
      WriteOptimizationOutputToExcel
        ("ESM" ++ str (startYear + step * nbOfRepresentedYears)) 2 1].

(** ** Further sample models *)

(** The sample model after the roll of 2020, and its stock of 2010, which
    that roll has retired. *)
Definition rolled_model : EnergySystemModel Z :=
  (sample_getStock sample_model 2020 10).1.

Definition retired_stock : Component Z :=
  mkComponent "Wind_stock_2010" "SourceSinkModel"
    [("a", 15); ("b", 15)] [("a", -5); ("b", -5)]
    (Some [("a", 0); ("b", 0)]) (Some [("a", 0); ("b", 0)])
    (Some [("a", 0); ("b", 0)]) None.

(** A cable between the two locations, with optimal capacities over two
    dimensions, of which the two on the diagonal are NaN; capacities are
    optional integers here, and [None] is NaN. *)
Definition isnone (v : option Z) : bool :=
  match v with
  | None => true
  | Some _ => false
  end.

Definition flatten2dim_opt (f : DataFrame (option Z)) (discard : bool)
  : result (Series (option Z)) :=
  Ok (concat (map snd f)).

Definition nan_cable : Component (option Z) :=
  mkComponent "Cable" "TransmissionModel"
    [("a_b", 40); ("b_a", 40)] [("a_b", 40); ("b_a", 40)]
    None None None None.

Definition nan_cable_frame : DataFrame (option Z) :=
  [("a", [("a", None); ("b", Some 4)]); ("b", [("a", Some 4); ("b", None)])].

Definition nan_cable_model : EnergySystemModel (option Z) :=
  mkEnergySystemModel ["a"; "b"]
    [("TransmissionModel",
      mkComponentModel (<["Cable" := nan_cable]> ∅)
        (Some (MultiTable [(("Cable", "a"), [("a", None); ("b", Some 4)]);
                           (("Cable", "b"), [("a", Some 4); ("b", None)])])))].

(** A model whose result table names, after a stock, a component that the
    domain does not have. *)
Definition missing_table : OptTable Z :=
  FlatTable [("Wind_stock_2010", [("a", 3); ("b", 4)]);
             ("Solar", [("a", 1); ("b", 1)])].

Definition missing_model : EnergySystemModel Z :=
  mkEnergySystemModel ["a"; "b"]
    [("SourceSinkModel",
      mkComponentModel (<["Wind_stock_2010" := sample_stock]> ∅)
        (Some missing_table))].

(** A campaign of three runs on the sample model, and a campaign of two
    runs of zero years on the idle model. *)
Definition sample_campaign : World Z * result (list (string * nat)) :=
  sample_optimizeMyopic sample_model 2020 None (Some 2) (Some 10)
    false 7 24 "myopic" 3 "gurobi" None "" false None.

Definition idle_campaign : World Z * result (list (string * nat)) :=
  sample_optimizeMyopic idle_model 2020 None (Some 1) (Some 0)
    true 7 24 "" 3 "gurobi" None "" false None.

(** * Properties *)

(** ** Python values *)

Example str_2030 : str 2030 = "2030".
Proof. reflexivity. Qed.

Example str_neg : str (-5) = "-5".
Proof. reflexivity. Qed.

Example contains_feedstock : contains "stock" "Feedstock" = true.
Proof. reflexivity. Qed.

Example contains_wind : contains "stock" "Wind (onshore)" = false.
Proof. reflexivity. Qed.

Example unique_ex : unique ["a"; "b"; "a"; "c"; "b"] = ["a"; "b"; "c"].
Proof. reflexivity. Qed.

(** ** Strings *)

Lemma prefix_app (n b : string) : String.prefix n (n ++ b) = true.
Proof.
  induction n as [|a n IH]; simpl.
  - by destruct b.
  - destruct (Ascii.ascii_dec a a); [exact IH | done].
Qed.

Lemma contains_prefix (n hay : string) :
  String.prefix n hay = true -> contains n hay = true.
Proof. intros H. destruct hay; cbn [contains]; rewrite H; done. Qed.

Lemma contains_app (n a b : string) : contains n (a ++ n ++ b) = true.
Proof.
  induction a as [|x a IH].
  - change (contains n (n ++ b) = true). apply contains_prefix, prefix_app.
  - change (contains n (String x (a ++ n ++ b)) = true).
    cbn [contains]. rewrite IH. apply orb_true_r.
Qed.

Lemma string_app_assoc (a b c : string) : (a ++ b) ++ c = a ++ b ++ c.
Proof.
  induction a as [|x a IH]; [done|].
  change (String x ((a ++ b) ++ c) = String x (a ++ b ++ c)). by rewrite IH.
Qed.

Lemma string_length_app (a b : string) :
  String.length (a ++ b) = (String.length a + String.length b)%nat.
Proof.
  induction a as [|x a IH]; [done|].
  change (S (String.length (a ++ b)) = S (String.length a + String.length b)).
  by rewrite IH.
Qed.

Lemma string_app_inv_tail (a b s : string) : a ++ s = b ++ s -> a = b.
Proof.
  revert b. induction a as [|x a IH]; intros [|y b] H.
  - done.
  - apply (f_equal String.length) in H.
    rewrite !string_length_app in H. simpl in H. lia.
  - apply (f_equal String.length) in H.
    rewrite !string_length_app in H. simpl in H. lia.
  - change (String x (a ++ s) = String y (b ++ s)) in H.
    injection H as -> H. f_equal. by apply IH.
Qed.

Lemma stockName_contains (comp : string) (y : Z) :
  contains "stock" (stockName comp y) = true.
Proof.
  unfold stockName.
  change (comp ++ "_stock" ++ "_" ++ str y)
    with (comp ++ "_" ++ "stock" ++ "_" ++ str y).
  rewrite <- string_app_assoc. apply contains_app.
Qed.

Lemma stockName_inj (c1 c2 : string) (y : Z) :
  stockName c1 y = stockName c2 y -> c1 = c2.
Proof. apply string_app_inv_tail. Qed.

(** ** Dictionaries *)

Lemma dict_get_set {A} (k k' : string) (v : A) (d : list (string * A)) :
  dict_get k' (dict_set k v d) = if decide (k = k') then Some v else dict_get k' d.
Proof.
  induction d as [|[k0 v0] d IH]; simpl.
  - by destruct (decide (k = k')).
  - destruct (decide (k0 = k)) as [->|Hne]; simpl.
    + by destruct (decide (k = k')).
    + rewrite IH. destruct (decide (k0 = k')) as [->|]; [|done].
      by destruct (decide (k = k')); [congruence|].
Qed.

Lemma dict_get_set_eq {A} (k : string) (v : A) (d : list (string * A)) :
  dict_get k (dict_set k v d) = Some v.
Proof. rewrite dict_get_set. by destruct (decide (k = k)). Qed.

Lemma dict_get_set_ne {A} (k k' : string) (v : A) (d : list (string * A)) :
  k ≠ k' -> dict_get k' (dict_set k v d) = dict_get k' d.
Proof. intros. rewrite dict_get_set. by destruct (decide (k = k')). Qed.

Lemma dict_get_keys {A} (k : string) (d : list (string * A)) :
  is_Some (dict_get k d) <-> k ∈ dict_keys d.
Proof.
  induction d as [|[k0 v0] d IH]; simpl.
  - split; [intros [? ?]; done | intros H; inversion H].
  - destruct (decide (k0 = k)) as [->|Hne].
    + split; [intros _; left | eauto].
    + rewrite IH. split; [by right|].
      intros H. inversion H; by subst.
Qed.

Lemma dict_keys_set_in {A} (k : string) (v : A) (d : list (string * A)) :
  k ∈ dict_keys d -> dict_keys (dict_set k v d) = dict_keys d.
Proof.
  induction d as [|[k0 v0] d IH]; simpl; intros H.
  - inversion H.
  - destruct (decide (k0 = k)) as [->|Hne]; simpl; [done|].
    f_equal. apply IH. inversion H; by subst.
Qed.

Lemma dict_keys_set_notin {A} (k : string) (v : A) (d : list (string * A)) :
  k ∉ dict_keys d -> dict_keys (dict_set k v d) = (dict_keys d ++ [k])%list.
Proof.
  induction d as [|[k0 v0] d IH]; simpl; intros H; [done|].
  destruct (decide (k0 = k)) as [->|Hne]; simpl.
  - exfalso. apply H. left.
  - f_equal. apply IH. intros Hin. apply H. by right.
Qed.

Lemma dict_keys_length {A} (d : list (string * A)) :
  length (dict_keys d) = length d.
Proof. apply length_map. Qed.

(** ** Reading a model after [storeComponent] and [add] *)

Section Observations.

Context {Val : Type}.
Implicit Types (esM : EnergySystemModel Val) (c : Component Val).

Lemma isRegistered_true esM nm :
  isRegistered esM nm = true <-> exists d, is_Some (getComponent esM d nm).
Proof.
  unfold isRegistered. rewrite existsb_exists. split.
  - intros (d & _ & H). exists d. by apply bool_decide_eq_true in H.
  - intros (d & H). exists d. split.
    + apply list_elem_of_In, dict_get_keys.
      unfold getComponent in H.
      destruct (dict_get d (componentModelingDict esM)); [eauto|].
      by destruct H.
    + by apply bool_decide_eq_true.
Qed.

Lemma isRegistered_false esM nm :
  isRegistered esM nm = false <-> forall d, getComponent esM d nm = None.
Proof.
  rewrite <- not_true_iff_false, isRegistered_true. split.
  - intros H d. destruct (getComponent esM d nm) eqn:E; [|done].
    exfalso. apply H. exists d. rewrite E. eauto.
  - intros H (d & Hd). rewrite H in Hd. by destruct Hd.
Qed.

Lemma getComponent_domain esM d k :
  is_Some (getComponent esM d k) -> d ∈ dict_keys (componentModelingDict esM).
Proof.
  unfold getComponent. intros H. apply dict_get_keys.
  destruct (dict_get d (componentModelingDict esM)); [eauto | by destruct H].
Qed.

Lemma getTable_domain esM d :
  is_Some (getTable esM d) -> d ∈ dict_keys (componentModelingDict esM).
Proof.
  unfold getTable. intros H. apply dict_get_keys.
  destruct (dict_get d (componentModelingDict esM)); [eauto | by destruct H].
Qed.

Section Store.

Variables (mdl comp : string) (c : Component Val).
Variable esM : EnergySystemModel Val.
Hypothesis Hmdl : is_Some (dict_get mdl (componentModelingDict esM)).

Lemma storeComponent_get_eq :
  getComponent (storeComponent mdl comp c esM) mdl comp = Some c.
Proof.
  unfold storeComponent, getComponent. destruct Hmdl as [cm ->]. simpl.
  rewrite dict_get_set_eq. simpl. apply lookup_insert_eq.
Qed.

Lemma storeComponent_get_ne d k :
  (d, k) ≠ (mdl, comp) ->
  getComponent (storeComponent mdl comp c esM) d k = getComponent esM d k.
Proof.
  intros Hne. unfold storeComponent, getComponent.
  destruct Hmdl as [cm Hcm]. rewrite Hcm. simpl.
  rewrite dict_get_set. destruct (decide (mdl = d)) as [<-|]; [|done].
  rewrite Hcm. simpl. apply lookup_insert_ne. congruence.
Qed.

Lemma storeComponent_table d :
  getTable (storeComponent mdl comp c esM) d = getTable esM d.
Proof.
  unfold storeComponent, getTable. destruct Hmdl as [cm Hcm]. rewrite Hcm.
  simpl. rewrite dict_get_set. destruct (decide (mdl = d)) as [<-|]; [|done].
  by rewrite Hcm.
Qed.

Lemma storeComponent_keys :
  dict_keys (componentModelingDict (storeComponent mdl comp c esM))
  = dict_keys (componentModelingDict esM).
Proof.
  unfold storeComponent. destruct Hmdl as [cm Hcm]. rewrite Hcm. simpl.
  apply dict_keys_set_in, dict_get_keys. eauto.
Qed.

Lemma storeComponent_locations :
  locations (storeComponent mdl comp c esM) = locations esM.
Proof. unfold storeComponent. destruct Hmdl as [cm ->]. done. Qed.

End Store.

Section Add.

Variables (c : Component Val) (esM esM' : EnergySystemModel Val).
Hypothesis Hadd : add c esM = Ok esM'.

Lemma add_fresh : isRegistered esM (name c) = false.
Proof. unfold add in Hadd. by destruct (isRegistered esM (name c)). Qed.

Lemma add_eq :
  esM' = set_componentModelingDict
           (dict_set (modelingClass c)
              (set_componentsDict
                 (<[name c := c]>
                    (componentsDict
                       (default (mkComponentModel ∅ None)
                          (dict_get (modelingClass c)
                             (componentModelingDict esM)))))
                 (default (mkComponentModel ∅ None)
                    (dict_get (modelingClass c) (componentModelingDict esM))))
              (componentModelingDict esM))
           esM.
Proof.
  unfold add in Hadd. destruct (isRegistered esM (name c)); [done|].
  by injection Hadd as <-.
Qed.

Lemma add_get_eq : getComponent esM' (modelingClass c) (name c) = Some c.
Proof.
  rewrite add_eq. unfold getComponent. simpl.
  rewrite dict_get_set_eq. simpl. apply lookup_insert_eq.
Qed.

Lemma add_get_ne d k :
  (d, k) ≠ (modelingClass c, name c) ->
  getComponent esM' d k = getComponent esM d k.
Proof.
  intros Hne. rewrite add_eq. unfold getComponent. simpl.
  rewrite dict_get_set.
  destruct (decide (modelingClass c = d)) as [<-|]; [|done].
  simpl. rewrite lookup_insert_ne by congruence.
  by destruct (dict_get (modelingClass c) (componentModelingDict esM)).
Qed.

Lemma add_get_old d k :
  is_Some (getComponent esM d k) ->
  getComponent esM' d k = getComponent esM d k.
Proof.
  intros Hsome. apply add_get_ne. intros [= -> ->].
  pose proof add_fresh as Hf. rewrite isRegistered_false in Hf.
  rewrite Hf in Hsome. by destruct Hsome.
Qed.

Lemma add_table d : getTable esM' d = getTable esM d.
Proof.
  rewrite add_eq. unfold getTable. simpl. rewrite dict_get_set.
  destruct (decide (modelingClass c = d)) as [<-|]; [|done].
  by destruct (dict_get (modelingClass c) (componentModelingDict esM)).
Qed.

Lemma add_locations : locations esM' = locations esM.
Proof. by rewrite add_eq. Qed.

Lemma add_keys_in :
  modelingClass c ∈ dict_keys (componentModelingDict esM) ->
  dict_keys (componentModelingDict esM') = dict_keys (componentModelingDict esM).
Proof. intros H. rewrite add_eq. simpl. by apply dict_keys_set_in. Qed.

Lemma add_keys_incl d :
  d ∈ dict_keys (componentModelingDict esM) ->
  d ∈ dict_keys (componentModelingDict esM').
Proof.
  intros H. rewrite add_eq. simpl.
  destruct (decide (modelingClass c ∈ dict_keys (componentModelingDict esM))).
  - by rewrite dict_keys_set_in.
  - rewrite dict_keys_set_notin by done. apply elem_of_app. by left.
Qed.

End Add.

End Observations.

(** ** One loop body *)

Lemma series_sub_le (s : Series Z) (n : Z) : 0 <= n -> series_le (series_sub s n) s.
Proof.
  intros Hn. unfold series_le, series_sub.
  induction s as [|[l v] s IH]; simpl; [constructor|].
  constructor; [simpl; split; [done | lia] | exact IH].
Qed.

Lemma series_le_refl (s : Series Z) : series_le s s.
Proof.
  unfold series_le. induction s as [|a s IH]; [constructor|].
  constructor; [split; [done | lia] | exact IH].
Qed.

Lemma series_le_trans (s1 s2 s3 : Series Z) :
  series_le s1 s2 -> series_le s2 s3 -> series_le s1 s3.
Proof.
  unfold series_le. intros H12. revert s3.
  induction H12 as [|a b s1 s2 [Hl Hv] _ IH]; intros s3 H23;
    inversion H23 as [|b' c s2' s3' [Hl' Hv'] Hrest]; subst; constructor.
  - split; [congruence | lia].
  - by apply IH.
Qed.

Section Step.

Context {Val : Type}.
Variable zeroVal : Val.
Variable minusOne : Val.
Variable isnan : Val -> bool.
Variable preprocess2dimData : DataFrame Val -> bool -> result (Series Val).
Implicit Types (esM : EnergySystemModel Val) (c : Component Val).

Local Abbreviation rollComponent' :=
  (rollComponent zeroVal minusOne isnan preprocess2dimData).
Local Abbreviation fixCapacity' := (fixCapacity minusOne isnan preprocess2dimData).

Lemma fixCapacity_fields t comp c0 c1 :
  fixCapacity' t comp c0 = Ok c1 ->
  name c1 = name c0 /\ modelingClass c1 = modelingClass c0
  /\ technicalLifetime c1 = technicalLifetime c0 /\ lifetime c1 = lifetime c0
  /\ capacityMax c1 = capacityMax c0 /\ capacityMin c1 = capacityMin c0
  /\ sharedPotentialID c1 = sharedPotentialID c0.
Proof.
  unfold fixCapacity. intros H.
  destruct (capacityFix c0); [by injection H as <-|].
  destruct (table_loc t comp) as [s|f].
  - by injection H as <-.
  - destruct (preprocess2dimData _ _); [by injection H as <- | done].
Qed.

Lemma fixCapacity_series t comp c0 c1 s :
  fixCapacity' t comp c0 = Ok c1 ->
  capacityFix c0 = None -> table_loc t comp = LocSeries s ->
  capacityFix c1 = Some s.
Proof.
  unfold fixCapacity. intros H Hc Ht. rewrite Hc, Ht in H.
  by injection H as <-.
Qed.

Lemma fixCapacity_kept t comp c0 c1 s :
  fixCapacity' t comp c0 = Ok c1 ->
  capacityFix c0 = Some s -> c1 = c0.
Proof.
  unfold fixCapacity. intros H Hc. rewrite Hc in H. by injection H as <-.
Qed.

Lemma rolledStock_name locs n c : name (rolledStock zeroVal locs n c) = name c.
Proof. unfold rolledStock. simpl. by destruct (any_le0 _). Qed.

Lemma rolledStock_lifetime locs n c :
  lifetime (rolledStock zeroVal locs n c) = series_sub (lifetime c) n.
Proof. unfold rolledStock. simpl. by destruct (any_le0 _). Qed.

(** What a body that returned has done. *)
Lemma rollComponent_inv y n mdl t comp esM1 esM2 :
  rollComponent' y n mdl t comp esM1 = (esM2, None) ->
  exists c, getComponent esM1 mdl comp = Some c /\
    ((isOriginal c /\ any_le0 (candidateLifetime c n) = true /\ esM2 = esM1)
     \/ (isOriginal c /\ any_le0 (candidateLifetime c n) = false /\
         exists sc, fixCapacity' t comp (draftStock comp y n c) = Ok sc
                    /\ add sc esM1 = Ok esM2)
     \/ (isStock c /\
         esM2 = storeComponent mdl comp
                  (rolledStock zeroVal (locations esM1) n c) esM1)).
Proof.
  unfold rollComponent, getComponent. intros H.
  destruct (dict_get mdl (componentModelingDict esM1)) as [cm|]; [|done].
  simpl. destruct (componentsDict cm !! comp) as [c|]; [|done].
  exists c. split; [done|].
  destruct (contains "stock" (name c)) eqn:Hs; cbn [negb] in H.
  - right. right. split; [done|]. injection H as <-. reflexivity.
  - change (set_lifetime _ _) with (draftStock comp y n c) in H.
    change (lifetime (draftStock comp y n c)) with (candidateLifetime c n) in H.
    destruct (any_le0 (candidateLifetime c n)) eqn:Ha.
    + left. injection H as <-. done.
    + right. left. split; [done|]. split; [done|].
      destruct (fixCapacity' t comp (draftStock comp y n c)) as [sc|]; [|done].
      exists sc. split; [done|].
      destruct (add sc esM1); [injection H as <-; done | done].
Qed.

(** A body that raised has changed nothing. *)
Lemma rollComponent_raise y n mdl t comp esM1 esM2 e :
  rollComponent' y n mdl t comp esM1 = (esM2, Some e) -> esM2 = esM1.
Proof.
  unfold rollComponent. intros H.
  destruct (dict_get mdl (componentModelingDict esM1)) as [cm|];
    [|by injection H as <-].
  destruct (componentsDict cm !! comp) as [c|]; [|by injection H as <-].
  destruct (contains "stock" (name c)); cbn [negb] in H; [done|].
  destruct (any_le0 _); [done|].
  destruct (fixCapacity' _ _ _); [|by injection H as <-].
  destruct (add _ _); [done | by injection H as <-].
Qed.

Section Effects.

Variables (y n : Z) (mdl comp : string) (t : OptTable Val).
Variables (esM1 esM2 : EnergySystemModel Val).
Hypothesis Hstep : rollComponent' y n mdl t comp esM1 = (esM2, None).

Lemma step_domain : is_Some (dict_get mdl (componentModelingDict esM1)).
Proof.
  destruct (rollComponent_inv _ _ _ _ _ _ _ Hstep) as (c & Hc & _).
  unfold getComponent in Hc.
  destruct (dict_get mdl (componentModelingDict esM1)); [eauto | done].
Qed.

Lemma step_table d : getTable esM2 d = getTable esM1 d.
Proof.
  pose proof step_domain as Hdom.
  destruct (rollComponent_inv _ _ _ _ _ _ _ Hstep)
    as (c & Hc & [(_ & _ & ->) | [(_ & _ & sc & _ & Hadd) | (_ & ->)]]).
  - done.
  - by apply (add_table _ _ _ Hadd).
  - apply storeComponent_table, Hdom.
Qed.

Lemma step_locations : locations esM2 = locations esM1.
Proof.
  pose proof step_domain as Hdom.
  destruct (rollComponent_inv _ _ _ _ _ _ _ Hstep)
    as (c & Hc & [(_ & _ & ->) | [(_ & _ & sc & _ & Hadd) | (_ & ->)]]).
  - done.
  - by apply (add_locations _ _ _ Hadd).
  - apply storeComponent_locations, Hdom.
Qed.

Lemma step_keys d :
  d ∈ dict_keys (componentModelingDict esM1) ->
  d ∈ dict_keys (componentModelingDict esM2).
Proof.
  pose proof step_domain as Hdom.
  destruct (rollComponent_inv _ _ _ _ _ _ _ Hstep)
    as (c & Hc & [(_ & _ & ->) | [(_ & _ & sc & _ & Hadd) | (_ & ->)]]).
  - done.
  - by apply (add_keys_incl _ _ _ Hadd).
  - by rewrite storeComponent_keys by apply Hdom.
Qed.

(** The body leaves every other component as it is. *)
Lemma step_get_other d k :
  (d, k) ≠ (mdl, comp) -> is_Some (getComponent esM1 d k) ->
  getComponent esM2 d k = getComponent esM1 d k.
Proof.
  pose proof step_domain as Hdom.
  intros Hne Hsome.
  destruct (rollComponent_inv _ _ _ _ _ _ _ Hstep)
    as (c & Hc & [(_ & _ & ->) | [(_ & _ & sc & _ & Hadd) | (_ & ->)]]).
  - done.
  - by apply (add_get_old _ _ _ Hadd).
  - by apply storeComponent_get_ne; [apply Hdom|].
Qed.

(** The body leaves every original component as it is. *)
Lemma step_get_original d k c :
  getComponent esM1 d k = Some c -> isOriginal c ->
  getComponent esM2 d k = Some c.
Proof.
  pose proof step_domain as Hdom.
  intros Hget Horig.
  destruct (rollComponent_inv _ _ _ _ _ _ _ Hstep)
    as (c0 & Hc & [(_ & _ & ->) | [(_ & _ & sc & _ & Hadd) | (Hst & ->)]]).
  - done.
  - rewrite (add_get_old _ _ _ Hadd); [done | rewrite Hget; eauto].
  - rewrite storeComponent_get_ne; [done | apply Hdom |].
    intros [= -> ->]. rewrite Hc in Hget. injection Hget as ->.
    unfold isOriginal, isStock in *. congruence.
Qed.

(** Every original component after the body was there before it. *)
Lemma step_get_original_back d k c :
  getComponent esM2 d k = Some c -> isOriginal c ->
  getComponent esM1 d k = Some c.
Proof.
  pose proof step_domain as Hdom.
  intros Hget Horig.
  destruct (rollComponent_inv _ _ _ _ _ _ _ Hstep)
    as (c0 & Hc & [(_ & _ & ->) | [(_ & _ & sc & Hfix & Hadd) | (Hst & ->)]]).
  - done.
  - destruct (decide ((d, k) = (modelingClass sc, name sc))) as [[= -> ->]|Hne].
    + rewrite (add_get_eq _ _ _ Hadd) in Hget. injection Hget as <-.
      destruct (fixCapacity_fields _ _ _ _ Hfix) as (Hname & _).
      unfold isOriginal in Horig. rewrite Hname in Horig. simpl in Horig.
      by rewrite stockName_contains in Horig.
    + by rewrite (add_get_ne _ _ _ Hadd) in Hget.
  - destruct (decide ((d, k) = (mdl, comp))) as [[= -> ->]|Hne].
    + rewrite storeComponent_get_eq in Hget by apply Hdom.
      injection Hget as <-. unfold isOriginal, isStock in *.
      rewrite rolledStock_name in Horig. congruence.
    + by rewrite storeComponent_get_ne in Hget; [| apply Hdom |].
Qed.

(** The body lets no lifetime grow and renames nothing. *)
Lemma step_lifetime d k c :
  0 <= n -> getComponent esM1 d k = Some c ->
  exists c', getComponent esM2 d k = Some c' /\ name c' = name c
             /\ series_le (lifetime c') (lifetime c).
Proof.
  pose proof step_domain as Hdom.
  intros Hn Hget.
  destruct (decide ((d, k) = (mdl, comp))) as [[= -> ->]|Hne].
  - destruct (rollComponent_inv _ _ _ _ _ _ _ Hstep)
      as (c0 & Hc & [(_ & _ & ->) | [(_ & _ & sc & _ & Hadd) | (Hst & ->)]]).
    + exists c. split; [done|]. split; [done | apply series_le_refl].
    + exists c. split; [|split; [done | apply series_le_refl]].
      rewrite (add_get_old _ _ _ Hadd); [done | rewrite Hget; eauto].
    + rewrite Hc in Hget. injection Hget as ->.
      exists (rolledStock zeroVal (locations esM1) n c).
      split; [apply storeComponent_get_eq, Hdom|].
      split; [apply rolledStock_name|].
      rewrite rolledStock_lifetime. by apply series_sub_le.
  - exists c. split; [|split; [done | apply series_le_refl]].
    rewrite step_get_other; [done | done | rewrite Hget; eauto].
Qed.

(** Registered names stay registered. *)
Lemma step_registered nm :
  isRegistered esM1 nm = true -> isRegistered esM2 nm = true.
Proof.
  pose proof step_domain as Hdom.
  rewrite !isRegistered_true. intros (d & Hd).
  destruct (decide ((d, nm) = (mdl, comp))) as [[= -> ->]|Hne].
  - destruct (rollComponent_inv _ _ _ _ _ _ _ Hstep)
      as (c0 & Hc & [(_ & _ & ->) | [(_ & _ & sc & _ & Hadd) | (Hst & ->)]]).
    + eauto.
    + exists mdl. by rewrite (add_get_old _ _ _ Hadd).
    + exists mdl. rewrite storeComponent_get_eq by apply Hdom. eauto.
  - exists d. by rewrite step_get_other.
Qed.

(** A name that the body registers is the stock name of its entry, whose
    component is original with a candidate lifetime above zero
    everywhere. *)
Lemma step_registered_new nm :
  isRegistered esM2 nm = true ->
  isRegistered esM1 nm = true
  \/ (nm = stockName comp y
      /\ exists c, getComponent esM1 mdl comp = Some c /\ isOriginal c
                   /\ any_le0 (candidateLifetime c n) = false).
Proof.
  pose proof step_domain as Hdom.
  intros Hreg.
  destruct (rollComponent_inv _ _ _ _ _ _ _ Hstep)
    as (c0 & Hc & [(_ & _ & ->) | [(Ho & Ha & sc & Hfix & Hadd) | (Hst & ->)]]).
  - by left.
  - destruct (decide (nm = name sc)) as [->|Hne].
    + right. destruct (fixCapacity_fields _ _ _ _ Hfix) as (Hname & _).
      split; [by rewrite Hname | eauto].
    + left. apply isRegistered_true in Hreg as (d & Hd).
      apply isRegistered_true. exists d.
      rewrite (add_get_ne _ _ _ Hadd) in Hd; [done | congruence].
  - left. apply isRegistered_true in Hreg as (d & Hd).
    apply isRegistered_true.
    destruct (decide ((d, nm) = (mdl, comp))) as [[= -> ->]|Hne].
    + exists mdl. rewrite Hc. eauto.
    + exists d. by rewrite storeComponent_get_ne in Hd;
        [| apply Hdom |].
Qed.

(** In a model whose components sit in the domain of their modelling
    technique, the body writes to its own domain only. *)
Lemma step_dict_other d :
  classes_wf esM1 -> d ≠ mdl ->
  dict_get d (componentModelingDict esM2)
  = dict_get d (componentModelingDict esM1).
Proof.
  pose proof step_domain as Hdom. intros Hwf Hne.
  destruct (rollComponent_inv _ _ _ _ _ _ _ Hstep)
    as (c0 & Hc & [(_ & _ & ->) | [(_ & _ & sc & Hfix & Hadd) | (_ & ->)]]).
  - done.
  - destruct (fixCapacity_fields _ _ _ _ Hfix) as (_ & Hclass & _).
    cbn in Hclass. rewrite (Hwf _ _ _ Hc) in Hclass.
    rewrite (add_eq _ _ _ Hadd). simpl. rewrite Hclass.
    by apply dict_get_set_ne.
  - unfold storeComponent. destruct Hdom as [cm ->]. simpl.
    by apply dict_get_set_ne.
Qed.

Lemma step_classes : classes_wf esM1 -> classes_wf esM2.
Proof.
  pose proof step_domain as Hdom. intros Hwf d k c Hget.
  destruct (rollComponent_inv _ _ _ _ _ _ _ Hstep)
    as (c0 & Hc & [(_ & _ & ->) | [(_ & _ & sc & Hfix & Hadd) | (_ & ->)]]).
  - eauto.
  - destruct (decide ((d, k) = (modelingClass sc, name sc))) as [[= -> ->]|Hne].
    + rewrite (add_get_eq _ _ _ Hadd) in Hget. by injection Hget as <-.
    + rewrite (add_get_ne _ _ _ Hadd) in Hget by done. eauto.
  - destruct (decide ((d, k) = (mdl, comp))) as [[= -> ->]|Hne].
    + rewrite storeComponent_get_eq in Hget by done. injection Hget as <-.
      unfold rolledStock. destruct (any_le0 _); cbn; eauto.
    + rewrite storeComponent_get_ne in Hget by done. eauto.
Qed.

End Effects.

End Step.

(** ** Sequences of loop bodies *)

Lemma elem_of_unique (x : string) (l : list string) : x ∈ unique l <-> x ∈ l.
Proof.
  induction l as [|a l IH]; simpl; [done|].
  rewrite !elem_of_cons, list_elem_of_filter, IH.
  destruct (decide (x = a)); tauto.
Qed.

Lemma elem_of_concat {A} (x : A) (ls : list (list A)) :
  x ∈ concat ls <-> exists l, x ∈ l /\ l ∈ ls.
Proof.
  rewrite list_elem_of_In, in_concat. split.
  - intros (l & Hl & Hx). exists l. by rewrite !list_elem_of_In.
  - intros (l & Hx & Hl). exists l. by rewrite <- !list_elem_of_In.
Qed.

Lemma NoDup_unique (l : list string) : NoDup (unique l).
Proof.
  induction l as [|a l IH]; simpl; constructor.
  - rewrite list_elem_of_filter. intros [Hne _]. by apply Hne.
  - by apply NoDup_filter.
Qed.

Section Runs.

Context {Val : Type}.
Variable zeroVal : Val.
Variable minusOne : Val.
Variable isnan : Val -> bool.
Variable preprocess2dimData : DataFrame Val -> bool -> result (Series Val).
Variables (y n : Z).
Implicit Types (esM : EnergySystemModel Val) (c : Component Val).

Local Abbreviation run' := (run zeroVal minusOne isnan preprocess2dimData y n).
Local Abbreviation rollComponent' :=
  (rollComponent zeroVal minusOne isnan preprocess2dimData y n).

Lemma run_app l1 l2 esM1 esM2 esM3 :
  run' l1 esM1 esM2 -> run' l2 esM2 esM3 -> run' (l1 ++ l2) esM1 esM3.
Proof.
  induction 1 as [|mdl comp t l a b c Ht Hin Hstep _ IH]; intros H2; [done|].
  simpl. econstructor; eauto.
Qed.

Lemma run_table l esM1 esM2 d :
  run' l esM1 esM2 -> getTable esM2 d = getTable esM1 d.
Proof.
  induction 1 as [|mdl comp t l a b c Ht Hin Hstep _ IH]; [done|].
  rewrite IH. eapply step_table, Hstep.
Qed.

Lemma run_locations l esM1 esM2 :
  run' l esM1 esM2 -> locations esM2 = locations esM1.
Proof.
  induction 1 as [|mdl comp t l a b c Ht Hin Hstep _ IH]; [done|].
  rewrite IH. eapply step_locations, Hstep.
Qed.

Lemma run_keys l esM1 esM2 d :
  run' l esM1 esM2 ->
  d ∈ dict_keys (componentModelingDict esM1) ->
  d ∈ dict_keys (componentModelingDict esM2).
Proof.
  induction 1 as [|mdl comp t l a b c Ht Hin Hstep _ IH]; [done|].
  intros Hd. apply IH. eapply step_keys; eauto.
Qed.

Lemma run_entries l esM1 esM2 mdl comp :
  run' l esM1 esM2 -> (mdl, comp) ∈ l ->
  exists t, getTable esM1 mdl = Some t /\ comp ∈ level0 t.
Proof.
  induction 1 as [|mdl' comp' t l a b c Ht Hin Hstep Hrun IH]; intros Hel.
  - inversion Hel.
  - apply elem_of_cons in Hel as [[= -> ->]|Hel]; [eauto|].
    destruct (IH Hel) as (t' & Ht' & Hin'). exists t'. split; [|done].
    by rewrite <- (step_table _ _ _ _ _ _ _ _ _ _ _ Hstep).
Qed.

Lemma run_get_other l esM1 esM2 d k :
  run' l esM1 esM2 -> (d, k) ∉ l -> is_Some (getComponent esM1 d k) ->
  getComponent esM2 d k = getComponent esM1 d k.
Proof.
  induction 1 as [|mdl comp t l a b c Ht Hin Hstep _ IH]; [done|].
  intros Hnot Hsome. apply not_elem_of_cons in Hnot as [Hne Hnot].
  pose proof (step_get_other _ _ _ _ _ _ _ _ _ _ _ Hstep d k Hne Hsome) as E.
  rewrite IH; [done | done | by rewrite E].
Qed.

Lemma run_get_original l esM1 esM2 d k c :
  run' l esM1 esM2 -> getComponent esM1 d k = Some c -> isOriginal c ->
  getComponent esM2 d k = Some c.
Proof.
  induction 1 as [|mdl comp t l a b c' Ht Hin Hstep _ IH]; [done|].
  intros Hget Ho. apply IH; [|done]. eapply step_get_original; eauto.
Qed.

Lemma run_get_original_back l esM1 esM2 d k c :
  run' l esM1 esM2 -> getComponent esM2 d k = Some c -> isOriginal c ->
  getComponent esM1 d k = Some c.
Proof.
  induction 1 as [|mdl comp t l a b c' Ht Hin Hstep _ IH]; [done|].
  intros Hget Ho. eapply step_get_original_back; eauto.
Qed.

Lemma run_lifetime l esM1 esM2 d k c :
  0 <= n -> run' l esM1 esM2 -> getComponent esM1 d k = Some c ->
  exists c', getComponent esM2 d k = Some c' /\ name c' = name c
             /\ series_le (lifetime c') (lifetime c).
Proof.
  intros Hn Hrun. revert c.
  induction Hrun as [|mdl comp t l a b c' Ht Hin Hstep _ IH]; intros c Hget.
  - exists c. split; [done|]. split; [done | apply series_le_refl].
  - destruct (step_lifetime _ _ _ _ _ _ _ _ _ _ _ Hstep d k c Hn Hget)
      as (c1 & Hget1 & Hname1 & Hle1).
    destruct (IH c1 Hget1) as (c2 & Hget2 & Hname2 & Hle2).
    exists c2. split; [done|]. split; [congruence|].
    eapply series_le_trans; eauto.
Qed.

Lemma run_registered l esM1 esM2 nm :
  run' l esM1 esM2 -> isRegistered esM1 nm = true -> isRegistered esM2 nm = true.
Proof.
  induction 1 as [|mdl comp t l a b c' Ht Hin Hstep _ IH]; [done|].
  intros Hreg. apply IH. eapply step_registered; eauto.
Qed.

(** A name registered along the way is the stock name of an entry whose
    component was original at the start, with a candidate lifetime above
    zero everywhere. *)
Lemma run_registered_new l esM1 esM2 nm :
  run' l esM1 esM2 -> isRegistered esM2 nm = true ->
  isRegistered esM1 nm = true
  \/ exists mdl comp c,
       (mdl, comp) ∈ l /\ nm = stockName comp y
       /\ getComponent esM1 mdl comp = Some c /\ isOriginal c
       /\ any_le0 (candidateLifetime c n) = false.
Proof.
  induction 1 as [|mdl comp t l a b c' Ht Hin Hstep _ IH]; [by left|].
  intros Hreg. destruct (IH Hreg) as [Hb | (mdl' & comp' & c & Hel & -> & Hc & Ho & Ha)].
  - destruct (step_registered_new _ _ _ _ _ _ _ _ _ _ _ Hstep nm Hb)
      as [Ha | (-> & c & Hc & Ho & Ha)]; [by left|].
    right. exists mdl, comp, c. split; [left | done].
  - right. exists mdl', comp', c. split; [by right|]. split; [done|].
    split; [|done]. eapply step_get_original_back; eauto.
Qed.

Lemma run_classes l esM1 esM2 :
  run' l esM1 esM2 -> classes_wf esM1 -> classes_wf esM2.
Proof.
  induction 1 as [|mdl comp t l a b c' Ht Hin Hstep _ IH]; [done|].
  intros Hwf. apply IH. eapply step_classes; eauto.
Qed.

Lemma run_dict_other l esM1 esM2 d :
  run' l esM1 esM2 -> classes_wf esM1 -> getTable esM1 d = None ->
  dict_get d (componentModelingDict esM2)
  = dict_get d (componentModelingDict esM1).
Proof.
  induction 1 as [|mdl comp t l a b c' Ht Hin Hstep _ IH]; [done|].
  intros Hwf Hnone. rewrite IH.
  - eapply step_dict_other; eauto. intros ->. congruence.
  - eapply step_classes; eauto.
  - by rewrite (step_table _ _ _ _ _ _ _ _ _ _ _ Hstep).
Qed.

(** The body of an entry of the list, with the bodies before and after. *)
Lemma run_split l esM1 esM3 mdl comp :
  run' l esM1 esM3 -> (mdl, comp) ∈ l ->
  exists l1 l2 esM esM2 t,
    l = (l1 ++ (mdl, comp) :: l2)%list /\ run' l1 esM1 esM
    /\ getTable esM mdl = Some t /\ comp ∈ level0 t
    /\ rollComponent' mdl t comp esM = (esM2, None)
    /\ run' l2 esM2 esM3.
Proof.
  induction 1 as [|mdl' comp' t l a b c' Ht Hin Hstep Hrun IH]; intros Hel.
  - inversion Hel.
  - apply elem_of_cons in Hel as [[= -> ->]|Hel].
    + exists [], l, a, b, t. repeat split; try done. constructor.
    + destruct (IH Hel) as (l1 & l2 & e1 & e2 & t' & -> & H1 & Ht' & Hin' & Hs & H2).
      exists ((mdl', comp') :: l1), l2, e1, e2, t'.
      repeat split; try done. econstructor; eauto.
Qed.

(** ** From the loops of [getStock] to sequences of bodies *)

Lemma rollComponents_run mdl t comps esM esM' e :
  rollComponents zeroVal minusOne isnan preprocess2dimData y n mdl t comps esM
  = (esM', e) ->
  getTable esM mdl = Some t -> (forall comp, comp ∈ comps -> comp ∈ level0 t) ->
  exists l, run' l esM esM' /\ (e = None -> l = map (pair mdl) comps).
Proof.
  revert esM. induction comps as [|comp comps IH]; simpl; intros esM H Ht Hin.
  - injection H as <- <-. exists []. split; [constructor | done].
  - destruct (rollComponent' mdl t comp esM) as [esM1 [e1|]] eqn:Hstep.
    + injection H as <- <-.
      apply rollComponent_raise in Hstep as ->.
      exists []. split; [constructor | done].
    + destruct (IH esM1 H) as (l & Hrun & Hl).
      * by rewrite (step_table _ _ _ _ _ _ _ _ _ _ _ Hstep).
      * intros c Hc. apply Hin. by right.
      * exists ((mdl, comp) :: l). split.
        -- econstructor; eauto. apply Hin. left.
        -- intros He. by rewrite (Hl He).
Qed.

Lemma rollDomain_run mdl esM esM' e :
  rollDomain zeroVal minusOne isnan preprocess2dimData y n mdl esM = (esM', e) ->
  exists l, run' l esM esM' /\ (e = None -> l = entries esM mdl).
Proof.
  unfold rollDomain, entries, getTable. intros H.
  destruct (dict_get mdl (componentModelingDict esM)) as [cm|] eqn:Hcm; simpl.
  - destruct (capacityVariablesOptimum cm) as [t|] eqn:Ht.
    + apply rollComponents_run in H; [done | |].
      * unfold getTable. by rewrite Hcm.
      * intros comp. apply elem_of_unique.
    + injection H as <- <-. exists []. split; [constructor | done].
  - injection H as <- <-. exists []. split; [constructor | done].
Qed.

Lemma entries_run l esM1 esM2 mdl :
  run' l esM1 esM2 -> entries esM2 mdl = entries esM1 mdl.
Proof. intros H. unfold entries. by rewrite (run_table _ _ _ _ H). Qed.

Lemma rollDomains_run size0 mdls esM esM' e :
  rollDomains zeroVal minusOne isnan preprocess2dimData y n size0 mdls esM
  = (esM', e) ->
  exists l, run' l esM esM' /\ (e = None -> l = concat (map (entries esM) mdls)).
Proof.
  revert esM. induction mdls as [|mdl mdls IH]; simpl; intros esM H.
  - destruct (negb _); injection H as <- <-;
      exists []; (split; [constructor | done]).
  - destruct (negb _).
    { injection H as <- <-. exists []. split; [constructor | done]. }
    destruct (rollDomain zeroVal minusOne isnan preprocess2dimData y n mdl esM)
      as [esM1 [e1|]] eqn:Hdom.
    + injection H as <- <-.
      destruct (rollDomain_run _ _ _ _ Hdom) as (l & Hrun & _).
      exists l. split; [done | done].
    + destruct (rollDomain_run _ _ _ _ Hdom) as (l1 & Hrun1 & Hl1).
      destruct (IH esM1 H) as (l2 & Hrun2 & Hl2).
      exists (l1 ++ l2)%list. split; [eapply run_app; eauto|].
      intros He. rewrite (Hl1 eq_refl), (Hl2 He). f_equal. f_equal.
      apply map_ext. intros d. eapply entries_run; eauto.
Qed.

(** A call of [getStock] is a sequence of bodies that returned; when the
    call returns, it is the sequence over all entries. *)
Lemma getStock_run esM esM' e :
  getStock zeroVal minusOne isnan preprocess2dimData esM y n = (esM', e) ->
  exists l, run' l esM esM' /\ (e = None -> l = work esM).
Proof. apply rollDomains_run. Qed.

End Runs.

Lemma elem_of_work {Val} (esM : EnergySystemModel Val) mdl comp :
  (mdl, comp) ∈ work esM
  <-> exists t, getTable esM mdl = Some t /\ comp ∈ level0 t.
Proof.
  unfold work. rewrite elem_of_concat. split.
  - intros (l & Hin & Hl). apply list_elem_of_fmap in Hl as (d & -> & Hd).
    unfold entries in Hin.
    destruct (getTable esM d) as [t|] eqn:Ht; [|inversion Hin].
    apply list_elem_of_fmap in Hin as (c & [= -> ->] & Hc).
    exists t. split; [done|]. by apply elem_of_unique.
  - intros (t & Ht & Hin). exists (entries esM mdl). split.
    + unfold entries. rewrite Ht. apply list_elem_of_fmap.
      exists comp. split; [done|]. by apply elem_of_unique.
    + apply list_elem_of_fmap. exists mdl. split; [done|].
      apply getTable_domain. rewrite Ht. eauto.
Qed.

Lemma NoDup_work {Val} (esM : EnergySystemModel Val) :
  keys_wf esM -> NoDup (work esM).
Proof.
  unfold keys_wf, work.
  induction (dict_keys (componentModelingDict esM)) as [|d ds IH]; simpl;
    intros Hnd; [constructor|].
  apply NoDup_cons in Hnd as [Hd Hnd]. apply NoDup_app. split; [|split].
  - unfold entries. destruct (getTable esM d); [|constructor].
    apply NoDup_fmap_2; [intros a b; congruence | apply NoDup_unique].
  - intros [m k] H1 H2. apply elem_of_concat in H2 as (l & Hin & Hl).
    apply list_elem_of_fmap in Hl as (d' & -> & Hd').
    unfold entries in H1, Hin.
    destruct (getTable esM d); [|inversion H1].
    destruct (getTable esM d'); [|inversion Hin].
    apply list_elem_of_fmap in H1 as (? & [= -> ->] & _).
    apply list_elem_of_fmap in Hin as (? & [= -> ->] & _). done.
  - by apply IH.
Qed.

(** ** The stock roller *)

Lemma any_le0_true (s : Series Z) :
  any_le0 s = true <-> Exists (fun lv : string * Z => lv.2 <= 0) s.
Proof.
  unfold any_le0. rewrite existsb_exists, Exists_exists. split.
  - intros (lv & Hin & Hle). exists lv. split.
    + by apply list_elem_of_In.
    + by apply Z.leb_le.
  - intros (lv & Hin & Hle). exists lv. split.
    + by apply list_elem_of_In.
    + by apply Z.leb_le.
Qed.

Lemma any_le0_false (s : Series Z) :
  any_le0 s = false <-> Forall (fun lv : string * Z => 0 < lv.2) s.
Proof.
  rewrite <- not_true_iff_false, any_le0_true, <- Forall_Exists_neg.
  apply Forall_iff. intros lv. lia.
Qed.

Lemma series_sub_minus (s : Series Z) (n : Z) : series_minus n (series_sub s n) s.
Proof.
  unfold series_minus, series_sub.
  induction s as [|[l v] s IH]; simpl; [constructor|].
  constructor; [by simpl | exact IH].
Qed.

Lemma series_minus_eq (n : Z) (s' s : Series Z) :
  series_minus n s' s -> s' = map (fun lv : string * Z => (lv.1, lv.2 - n)) s.
Proof.
  unfold series_minus.
  induction 1 as [|[l' v'] [l v] s' s [Hl Hv] _ IH]; simpl in *; [done|].
  by rewrite Hl, Hv, IH.
Defined.

Lemma const_series_zero {A} (zero : A) (locs : list string) :
  isZeroSeries zero locs (const_series zero locs).
Proof.
  unfold isZeroSeries, const_series. split.
  - induction locs as [|l locs IH]; simpl; [done | by rewrite IH].
  - induction locs as [|l locs IH]; simpl; constructor; [done | exact IH].
Qed.

Lemma isZeroSeries_eq {A} (zero : A) (locs : list string) (z : Series A) :
  isZeroSeries zero locs z -> z = map (fun l => (l, zero)) locs.
Proof.
  intros [<- Hall].
  induction Hall as [|[l v] z Hv _ IH]; simpl in *; [done|].
  by rewrite Hv, <- IH.
Defined.

Lemma fillna_filled {A} (isnan : A -> bool) (v : A) (f : DataFrame A) :
  filledFrame isnan v f (fillna isnan v f).
Proof.
  unfold filledFrame, fillna.
  induction f as [|[l row] f IH]; simpl; [constructor|].
  constructor; [|exact IH]. split; [done|]. simpl.
  clear IH. induction row as [|[l' x] row IH]; simpl; [constructor|].
  constructor; [|exact IH]. simpl.
  destruct (isnan x); repeat split; done.
Qed.

Lemma filledFrame_eq {A} (isnan : A -> bool) (v : A) (f f' : DataFrame A) :
  filledFrame isnan v f f'
  -> f' = map (fun row : string * Series A =>
                 (row.1, map (fun cell : string * A =>
                                (cell.1, if isnan cell.2 then v else cell.2))
                             row.2)) f.
Proof.
  unfold filledFrame.
  induction 1 as [|[l' row'] [l row] f' f [Hl Hrow] _ IH]; simpl in *; [done|].
  rewrite Hl, IH. f_equal. f_equal. clear IH Hl.
  induction Hrow as [|[a' x'] [a x] r' r (Ha & Ht & Hf) _ IH]; simpl in *;
    [done|].
  rewrite Ha, IH. f_equal. f_equal.
  destruct (isnan x); [by apply Ht | by apply Hf].
Defined.

Lemma candidate_positive {Val} (c : Component Val) (n : Z) :
  Forall (fun lv : string * Z => 0 < lv.2 - n) (technicalLifetime c)
  <-> any_le0 (candidateLifetime c n) = false.
Proof.
  rewrite any_le0_false. unfold candidateLifetime, series_sub.
  by rewrite Forall_fmap.
Qed.

Lemma candidate_expired {Val} (c : Component Val) (n : Z) :
  Exists (fun lv : string * Z => lv.2 - n <= 0) (technicalLifetime c)
  <-> any_le0 (candidateLifetime c n) = true.
Proof.
  rewrite any_le0_true. unfold candidateLifetime, series_sub.
  by rewrite Exists_fmap.
Qed.

Lemma filter_none {A} (P : A -> Prop) `{forall x, Decision (P x)} (l : list A) :
  (forall x, x ∈ l -> ~ P x) -> filter P l = [].
Proof.
  induction l as [|a l IH]; intros Hl; [done|].
  rewrite filter_cons_False by (apply Hl; left).
  apply IH. intros x Hx. apply Hl. by right.
Qed.

Lemma filter_all {A} (P : A -> Prop) `{forall x, Decision (P x)} (l : list A) :
  (forall x, x ∈ l -> P x) -> filter P l = l.
Proof.
  induction l as [|a l IH]; intros Hl; [done|].
  rewrite filter_cons_True by (apply Hl; left).
  f_equal. apply IH. intros x Hx. apply Hl. by right.
Qed.

(** On a flat index, the one row of a label is what [loc] selects. *)
Lemma table_loc_flat {Val} (rows1 rows2 : list (string * Series Val))
    (comp : string) (v : Series Val) :
  comp ∉ map fst rows1 -> comp ∉ map fst rows2 ->
  table_loc (FlatTable (rows1 ++ (comp, v) :: rows2)) comp = LocSeries v.
Proof.
  intros H1 H2. unfold table_loc.
  rewrite filter_app, filter_cons_True by done.
  rewrite (filter_none _ rows1), (filter_none _ rows2); [done| |].
  - intros x Hx Heq. apply H2. apply list_elem_of_fmap. by exists x.
  - intros x Hx Heq. apply H1. apply list_elem_of_fmap. by exists x.
Qed.

(** On a two-level index, the rows of an outer label, by inner label, are
    what [loc] selects. *)
Lemma table_loc_multi {Val} (rows1 rows2 : list ((string * string) * Series Val))
    (comp : string) (f : DataFrame Val) :
  comp ∉ map (fun r => r.1.1) rows1 -> comp ∉ map (fun r => r.1.1) rows2 ->
  table_loc
    (MultiTable (rows1 ++ map (fun r : string * Series Val => ((comp, r.1), r.2)) f
                 ++ rows2)) comp
  = LocFrame f.
Proof.
  intros H1 H2. unfold table_loc. rewrite !filter_app.
  rewrite (filter_none _ rows1), (filter_none _ rows2).
  - rewrite filter_all.
    + simpl. rewrite app_nil_r. f_equal.
      induction f as [|[l r] f IH]; simpl; [done | by rewrite IH].
    + intros x Hx. apply list_elem_of_fmap in Hx as (r & -> & _). done.
  - intros x Hx Heq. apply H2. apply list_elem_of_fmap. by exists x.
  - intros x Hx Heq. apply H1. apply list_elem_of_fmap. by exists x.
Qed.

Lemma unique_app_first (l1 l2 : list string) (x : string) :
  x ∉ l1 -> exists l2', unique (l1 ++ x :: l2) = (unique l1 ++ x :: l2')%list.
Proof.
  induction l1 as [|a l1 IH]; intros Hx; simpl.
  - eauto.
  - apply not_elem_of_cons in Hx as [Hne Hx].
    destruct (IH Hx) as (l2' & ->). rewrite filter_app, filter_cons_True by done.
    eauto.
Qed.

Section StockRollerProperties.

Context {Val : Type}.
Variable zeroVal : Val.
Variable minusOne : Val.
Variable isnan : Val -> bool.
Variable preprocess2dimData : DataFrame Val -> bool -> result (Series Val).
Implicit Types (esM : EnergySystemModel Val) (c : Component Val).

Local Abbreviation getStock' :=
  (getStock zeroVal minusOne isnan preprocess2dimData).
Local Abbreviation run' := (run zeroVal minusOne isnan preprocess2dimData).

(** The body of an entry in a call that returned, with the bodies before
    and after it, none of which is a body of that entry. *)
Lemma getStock_entry esM y n esM' mdl t comp :
  keys_wf esM -> getStock' esM y n = (esM', None) ->
  getTable esM mdl = Some t -> comp ∈ level0 t ->
  exists l1 l2 esM1 esM2,
    run' y n l1 esM esM1 /\ ((mdl, comp) ∉ l1)
    /\ rollComponent zeroVal minusOne isnan preprocess2dimData y n mdl t comp
         esM1 = (esM2, None)
    /\ run' y n l2 esM2 esM' /\ ((mdl, comp) ∉ l2)
    /\ (forall d k, (d, k) ∈ l2 -> (d, k) ∈ work esM).
Proof.
  intros Hkeys Hget Ht Hin.
  destruct (getStock_run _ _ _ _ _ _ _ _ _ Hget) as (l & Hrun & Hl).
  specialize (Hl eq_refl). subst l.
  assert ((mdl, comp) ∈ work esM) as Hel by (apply elem_of_work; eauto).
  destruct (run_split _ _ _ _ _ _ _ _ _ _ _ Hrun Hel)
    as (l1 & l2 & esM1 & esM2 & t' & Heq & Hrun1 & Ht' & Hin' & Hstep & Hrun2).
  rewrite (run_table _ _ _ _ _ _ _ _ _ _ Hrun1), Ht in Ht'.
  injection Ht' as <-.
  pose proof (NoDup_work esM Hkeys) as Hnd. rewrite Heq in Hnd.
  apply NoDup_app in Hnd as (_ & Hdisj & Hnd2).
  apply NoDup_cons in Hnd2 as [Hnot2 _].
  exists l1, l2, esM1, esM2. repeat split; try done.
  - intros H1. apply (Hdisj _ H1). left.
  - intros d k Hdk. rewrite Heq. apply elem_of_app. right. by right.
Qed.

(** C7: [getStock] never changes an original component: whatever the call
    does, and whether it returns or raises, every component whose name
    does not carry the stock marker is afterwards under the same key of
    the same domain with all its attributes as before. *)
Theorem getStock_originals_unchanged esM y n esM' e d k c :
  getStock' esM y n = (esM', e) ->
  getComponent esM d k = Some c -> isOriginal c ->
  getComponent esM' d k = Some c.
Proof.
  intros Hget Hc Ho.
  destruct (getStock_run _ _ _ _ _ _ _ _ _ Hget) as (l & Hrun & _).
  eapply run_get_original; eauto.
Qed.

(** C8: with [nbOfRepresentedYears >= 0], a stock component of the model
    is still there after a call of [getStock], and its lifetime is at
    every location at most what it was, whether or not a result table
    names it and whether the call returns or raises. *)
Theorem getStock_lifetime_monotone esM y n esM' e d k c :
  0 <= n -> getStock' esM y n = (esM', e) ->
  getComponent esM d k = Some c -> isStock c ->
  exists c', getComponent esM' d k = Some c' /\ isStock c'
             /\ series_le (lifetime c') (lifetime c).
Proof.
  intros Hn Hget Hc Hs.
  destruct (getStock_run _ _ _ _ _ _ _ _ _ Hget) as (l & Hrun & _).
  destruct (run_lifetime _ _ _ _ _ _ _ _ _ _ _ _ Hn Hrun Hc)
    as (c' & Hc' & Hname & Hle).
  exists c'. split; [done|]. split; [|done].
  unfold isStock in *. by rewrite Hname.
Qed.

(** C2: when [getStock] returns, a component named in the result table of
    its domain whose name carries the stock marker is still in the model,
    under the same key; at every location its lifetime is the old one minus
    [nbOfRepresentedYears]; if that is at most zero at some location, its
    [capacityFix], [capacityMax] and [capacityMin] are each a series with
    the value zero at every location of the model, and its
    [sharedPotentialID] is [None]; otherwise the four are as before. *)
Theorem getStock_rolls_stock esM y n esM' mdl t comp c :
  keys_wf esM -> getStock' esM y n = (esM', None) ->
  getTable esM mdl = Some t -> comp ∈ level0 t ->
  getComponent esM mdl comp = Some c -> isStock c ->
  exists c', getComponent esM' mdl comp = Some c'
    /\ name c' = name c
    /\ series_minus n (lifetime c') (lifetime c)
    /\ (Exists (fun lv : string * Z => lv.2 <= 0) (lifetime c') ->
        (exists z, capacityFix c' = Some z
                   /\ isZeroSeries zeroVal (locations esM) z)
        /\ (exists z, capacityMax c' = Some z
                      /\ isZeroSeries zeroVal (locations esM) z)
        /\ (exists z, capacityMin c' = Some z
                      /\ isZeroSeries zeroVal (locations esM) z)
        /\ sharedPotentialID c' = None)
    /\ (Forall (fun lv : string * Z => 0 < lv.2) (lifetime c') ->
        capacityFix c' = capacityFix c /\ capacityMax c' = capacityMax c
        /\ capacityMin c' = capacityMin c
        /\ sharedPotentialID c' = sharedPotentialID c).
Proof.
  intros Hkeys Hget Ht Hin Hc Hs.
  destruct (getStock_entry _ _ _ _ _ _ _ Hkeys Hget Ht Hin)
    as (l1 & l2 & esM1 & esM2 & Hrun1 & Hnot1 & Hstep & Hrun2 & Hnot2 & _).
  assert (getComponent esM1 mdl comp = Some c) as Hc1.
  { rewrite (run_get_other _ _ _ _ _ _ _ _ _ _ _ Hrun1 Hnot1); [done|].
    rewrite Hc; eauto. }
  destruct (rollComponent_inv _ _ _ _ _ _ _ _ _ _ _ Hstep)
    as (c0 & Hc0 & [(Ho & _) | [(Ho & _) | (_ & ->)]]);
    rewrite Hc1 in Hc0; injection Hc0 as <-;
    [unfold isOriginal, isStock in *; congruence ..|].
  set (c' := rolledStock zeroVal (locations esM1) n c) in *.
  assert (getComponent esM' mdl comp = Some c') as Hc'.
  { rewrite (run_get_other _ _ _ _ _ _ _ _ _ _ _ Hrun2 Hnot2).
    - apply storeComponent_get_eq.
      apply (step_domain _ _ _ _ _ _ _ _ _ _ _ Hstep).
    - rewrite storeComponent_get_eq; [eauto|].
      apply (step_domain _ _ _ _ _ _ _ _ _ _ _ Hstep). }
  exists c'. split; [done|].
  split; [apply rolledStock_name|].
  split; [subst c'; rewrite rolledStock_lifetime; apply series_sub_minus|].
  subst c'. rewrite (run_locations _ _ _ _ _ _ _ _ _ Hrun1).
  unfold rolledStock. cbn [lifetime set_lifetime].
  destruct (any_le0 (series_sub (lifetime c) n)) eqn:Ha; cbn; split.
  - intros _.
    repeat split; try (eexists; split; [reflexivity|]; split);
      try apply const_series_zero; reflexivity.
  - intros Hall. apply any_le0_false in Hall. congruence.
  - intros Hex. apply any_le0_true in Hex. congruence.
  - done.
Qed.

(** C1: when [getStock] returns, for an original component named in the
    result table of its domain whose candidate lifetime
    [technicalLifetime - nbOfRepresentedYears] is positive at every
    location, the model has a component that was not there before, under
    the name [<key>_stock_<mileStoneYear>]: a duplicate of the original
    with that name, with the technical lifetime minus
    [nbOfRepresentedYears] as lifetime at every location and, when the
    original had no [capacityFix] and the table has a flat index with one
    row for the component, with the values of that row as [capacityFix]. *)
Theorem getStock_adds_stock esM y n esM' mdl t comp c :
  keys_wf esM -> tables_wf esM -> getStock' esM y n = (esM', None) ->
  getTable esM mdl = Some t -> comp ∈ level0 t ->
  getComponent esM mdl comp = Some c -> isOriginal c ->
  Forall (fun lv : string * Z => 0 < lv.2 - n) (technicalLifetime c) ->
  isRegistered esM (comp ++ "_stock_" ++ str y) = false
  /\ exists s,
       getComponent esM' (modelingClass c) (comp ++ "_stock_" ++ str y) = Some s
       /\ name s = comp ++ "_stock_" ++ str y
       /\ series_minus n (lifetime s) (technicalLifetime c)
       /\ modelingClass s = modelingClass c
       /\ technicalLifetime s = technicalLifetime c
       /\ capacityMax s = capacityMax c /\ capacityMin s = capacityMin c
       /\ sharedPotentialID s = sharedPotentialID c
       /\ (forall v, capacityFix c = Some v -> capacityFix s = Some v)
       /\ (forall rows1 rows2 v,
             capacityFix c = None ->
             t = FlatTable (rows1 ++ (comp, v) :: rows2) ->
             comp ∉ map fst rows1 -> comp ∉ map fst rows2 ->
             capacityFix s = Some v).
Proof.
  intros Hkeys Hwf Hget Ht Hin Hc Ho Hpos.
  change (comp ++ "_stock_" ++ str y) with (stockName comp y).
  apply candidate_positive in Hpos.
  destruct (getStock_entry _ _ _ _ _ _ _ Hkeys Hget Ht Hin)
    as (l1 & l2 & esM1 & esM2 & Hrun1 & Hnot1 & Hstep & Hrun2 & Hnot2 & Hl2).
  pose proof (run_get_original _ _ _ _ _ _ _ _ _ _ _ _ Hrun1 Hc Ho) as Hc1.
  destruct (rollComponent_inv _ _ _ _ _ _ _ _ _ _ _ Hstep)
    as (c0 & Hc0 & Hcases).
  rewrite Hc1 in Hc0. injection Hc0 as <-.
  destruct Hcases as [(_ & Ha & _) | [(_ & _ & s & Hfix & Hadd) | (Hs & _)]];
    [congruence | | unfold isOriginal, isStock in *; congruence].
  destruct (fixCapacity_fields _ _ _ _ _ _ _ Hfix)
    as (Hname & Hclass & Htech & Hlife & Hmax & Hmin & Hshared).
  cbn in Hname, Hclass, Htech, Hlife, Hmax, Hmin, Hshared.
  assert (isRegistered esM (stockName comp y) = false) as Hfresh.
  { destruct (isRegistered esM (stockName comp y)) eqn:Hreg; [|done].
    apply (run_registered _ _ _ _ _ _ _ _ _ _ Hrun1) in Hreg.
    pose proof (add_fresh _ _ _ Hadd) as Hf. rewrite Hname in Hf. congruence. }
  split; [done|]. exists s.
  split; [|split; [done|]; split; [|repeat split; try done]].
  - rewrite (run_get_other _ _ _ _ _ _ _ _ _ _ _ Hrun2).
    + rewrite <- Hclass, <- Hname. apply (add_get_eq _ _ _ Hadd).
    + intros Hel. apply Hl2, elem_of_work in Hel as (t' & Ht' & Hin').
      destruct (Hwf _ _ _ Ht' Hin') as [c' Hc'].
      rewrite isRegistered_false in Hfresh. by rewrite Hfresh in Hc'.
    + rewrite <- Hclass, <- Hname, (add_get_eq _ _ _ Hadd). eauto.
  - rewrite Hlife. apply series_sub_minus.
  - intros v Hv. by rewrite (fixCapacity_kept _ _ _ _ _ _ _ v Hfix).
  - intros rows1 rows2 v Hv -> H1 H2.
    apply (fixCapacity_series _ _ _ _ _ _ _ _ Hfix); [done|].
    by apply table_loc_flat.
Qed.

(** C3, as the code has it: when [getStock] returns, for an original
    component named in the result table of its domain, in a model where a
    name is the key of one component at most, the stock
    [<key>_stock_<mileStoneYear>] is new in the model exactly when the
    candidate lifetime is positive at every location; a candidate lifetime
    that is at most zero at one location is enough to skip the creation. *)
Theorem getStock_creates_iff_all_positive esM y n esM' mdl t comp c :
  keys_wf esM -> unique_names esM -> getStock' esM y n = (esM', None) ->
  getTable esM mdl = Some t -> comp ∈ level0 t ->
  getComponent esM mdl comp = Some c -> isOriginal c ->
  (isRegistered esM (stockName comp y) = false
   /\ isRegistered esM' (stockName comp y) = true)
  <-> Forall (fun lv : string * Z => 0 < lv.2) (candidateLifetime c n).
Proof.
  intros Hkeys Huniq Hget Ht Hin Hc Ho. rewrite <- any_le0_false. split.
  - intros [Hold Hnew].
    destruct (getStock_run _ _ _ _ _ _ _ _ _ Hget) as (l & Hrun & _).
    destruct (run_registered_new _ _ _ _ _ _ _ _ _ _ Hrun Hnew)
      as [Hreg | (mdl' & comp' & c' & _ & Heq & Hc' & _ & Ha)]; [congruence|].
    apply stockName_inj in Heq as <-.
    assert (mdl = mdl') as <-.
    { apply (Huniq _ _ comp); [rewrite Hc | rewrite Hc']; eauto. }
    rewrite Hc in Hc'. by injection Hc' as <-.
  - intros Ha.
    destruct (getStock_entry _ _ _ _ _ _ _ Hkeys Hget Ht Hin)
      as (l1 & l2 & esM1 & esM2 & Hrun1 & _ & Hstep & Hrun2 & _).
    pose proof (run_get_original _ _ _ _ _ _ _ _ _ _ _ _ Hrun1 Hc Ho) as Hc1.
    destruct (rollComponent_inv _ _ _ _ _ _ _ _ _ _ _ Hstep)
      as (c0 & Hc0 & Hcases).
    rewrite Hc1 in Hc0. injection Hc0 as <-.
    destruct Hcases as [(_ & Ha' & _) | [(_ & _ & s & Hfix & Hadd) | (Hs & _)]];
      [congruence | | unfold isOriginal, isStock in *; congruence].
    destruct (fixCapacity_fields _ _ _ _ _ _ _ Hfix) as (Hname & Hclass & _).
    cbn in Hname, Hclass. split.
    + destruct (isRegistered esM (stockName comp y)) eqn:Hreg; [|done].
      apply (run_registered _ _ _ _ _ _ _ _ _ _ Hrun1) in Hreg.
      pose proof (add_fresh _ _ _ Hadd) as Hf. rewrite Hname in Hf. congruence.
    + apply (run_registered _ _ _ _ _ _ _ _ _ _ Hrun2).
      apply isRegistered_true. exists (modelingClass s).
      rewrite <- Hname, (add_get_eq _ _ _ Hadd). eauto.
Qed.

(** C9: the stock marker anywhere in the name makes a component a stock
    for [getStock], whoever created it: when the call returns, a component
    named in the result table of its domain whose name contains ["stock"]
    is still under its key, with [nbOfRepresentedYears] taken off its
    lifetime at every location, and the call has not registered the name
    [<key>_stock_<mileStoneYear>] for it. *)
Theorem getStock_marker_anywhere esM y n esM' mdl t comp c :
  keys_wf esM -> unique_names esM -> getStock' esM y n = (esM', None) ->
  getTable esM mdl = Some t -> comp ∈ level0 t ->
  getComponent esM mdl comp = Some c -> contains "stock" (name c) = true ->
  (exists c', getComponent esM' mdl comp = Some c' /\ name c' = name c
              /\ series_minus n (lifetime c') (lifetime c))
  /\ isRegistered esM' (comp ++ "_stock_" ++ str y)
     = isRegistered esM (comp ++ "_stock_" ++ str y).
Proof.
  intros Hkeys Huniq Hget Ht Hin Hc Hs.
  change (comp ++ "_stock_" ++ str y) with (stockName comp y). split.
  - destruct (getStock_entry _ _ _ _ _ _ _ Hkeys Hget Ht Hin)
      as (l1 & l2 & esM1 & esM2 & Hrun1 & Hnot1 & Hstep & Hrun2 & Hnot2 & _).
    assert (getComponent esM1 mdl comp = Some c) as Hc1.
    { rewrite (run_get_other _ _ _ _ _ _ _ _ _ _ _ Hrun1 Hnot1); [done|].
      rewrite Hc; eauto. }
    pose proof (step_domain _ _ _ _ _ _ _ _ _ _ _ Hstep) as Hdom.
    destruct (rollComponent_inv _ _ _ _ _ _ _ _ _ _ _ Hstep)
      as (c0 & Hc0 & [(Ho & _) | [(Ho & _) | (_ & ->)]]);
      rewrite Hc1 in Hc0; injection Hc0 as <-;
      [unfold isOriginal in *; congruence ..|].
    exists (rolledStock zeroVal (locations esM1) n c).
    split; [|split; [apply rolledStock_name|]].
    + rewrite (run_get_other _ _ _ _ _ _ _ _ _ _ _ Hrun2 Hnot2).
      * by apply storeComponent_get_eq.
      * rewrite storeComponent_get_eq; eauto.
    + rewrite rolledStock_lifetime. apply series_sub_minus.
  - destruct (getStock_run _ _ _ _ _ _ _ _ _ Hget) as (l & Hrun & _).
    destruct (isRegistered esM (stockName comp y)) eqn:Hold.
    + by apply (run_registered _ _ _ _ _ _ _ _ _ _ Hrun).
    + destruct (isRegistered esM' (stockName comp y)) eqn:Hnew; [|done].
      destruct (run_registered_new _ _ _ _ _ _ _ _ _ _ Hrun Hnew)
        as [Hreg | (mdl' & comp' & c' & _ & Heq & Hc' & Ho & _)]; [congruence|].
      apply stockName_inj in Heq as <-.
      assert (mdl = mdl') as <-.
      { apply (Huniq _ _ comp); [rewrite Hc | rewrite Hc']; eauto. }
      rewrite Hc in Hc'. injection Hc' as <-.
      unfold isOriginal in Ho. congruence.
Qed.

(** C6: a domain whose optimal capacities are [None] is skipped: the body
    of the loop for that domain returns the model as it is without
    raising, and after a call of [getStock] every component of the domain
    is as before; in a model whose components sit in the domain of their
    modelling technique the whole domain is as before, so it has no new
    component either. *)
Theorem getStock_skips_domain_without_result esM y n mdl cm :
  dict_get mdl (componentModelingDict esM) = Some cm ->
  capacityVariablesOptimum cm = None ->
  rollDomain zeroVal minusOne isnan preprocess2dimData y n mdl esM = (esM, None)
  /\ forall esM' e,
       getStock' esM y n = (esM', e) ->
       (forall k c, getComponent esM mdl k = Some c ->
                    getComponent esM' mdl k = Some c)
       /\ (classes_wf esM ->
           dict_get mdl (componentModelingDict esM') = Some cm).
Proof.
  intros Hcm Hnone.
  assert (getTable esM mdl = None) as Ht.
  { unfold getTable. by rewrite Hcm. }
  split.
  - unfold rollDomain. by rewrite Hcm, Hnone.
  - intros esM' e Hget.
    destruct (getStock_run _ _ _ _ _ _ _ _ _ Hget) as (l & Hrun & _).
    split.
    + intros k c Hc.
      rewrite (run_get_other _ _ _ _ _ _ _ _ _ _ _ Hrun); [done| |].
      * intros Hel.
        destruct (run_entries _ _ _ _ _ _ _ _ _ _ _ Hrun Hel) as (t & Ht' & _).
        congruence.
      * rewrite Hc. eauto.
    + intros Hwf. rewrite <- Hcm. eapply run_dict_other; eauto.
Qed.

End StockRollerProperties.

(** ** The horizon planner *)

Lemma resolvedHorizon_ok (n r : Z) : 1 <= n -> resolvedHorizon n r = Ok (n, r).
Proof. intros H. unfold resolvedHorizon. destruct (decide (n < 1)); [lia | done]. Qed.

Lemma resolvedHorizon_inv (n r n' r' : Z) :
  resolvedHorizon n r = Ok (n', r') -> n' = n /\ r' = r /\ 1 <= n.
Proof.
  unfold resolvedHorizon. destruct (decide (n < 1)); [done|].
  intros [= <- <-]. lia.
Qed.

Lemma resolvedHorizon_raise (n r : Z) (e : Exn) :
  resolvedHorizon n r = Raise e -> exists msg, e = ConfigurationError msg.
Proof.
  unfold resolvedHorizon. destruct (decide (n < 1)); [|done].
  intros [= <-]. eauto.
Qed.

(** C5: the horizon planner. A result [(n, r)] has [n >= 1], satisfies
    [startYear + n * r = endYear] when the end year is given, and agrees
    with the numbers given; the planner returns that result for every
    combination in which at least two of end year, number of steps and
    years per step are given and agree with some [(n, r)] with [n >= 1] and
    an end year other than the start year; every failure is a
    configuration error, and a campaign whose end year is its start year,
    such as 2020 to 2020, fails. *)
Theorem checkAndSetTimeHorizon_spec
    (startYear : Z) (endYear nbOfSteps nbOfRepresentedYears : option Z) :
  (forall n r,
     checkAndSetTimeHorizon startYear endYear nbOfSteps nbOfRepresentedYears
     = Ok (n, r) ->
     1 <= n
     /\ (forall e, endYear = Some e -> startYear + n * r = e)
     /\ (forall n0, nbOfSteps = Some n0 -> n = n0)
     /\ (forall r0, nbOfRepresentedYears = Some r0 -> r = r0))
  /\ (forall n r,
        twoGiven endYear nbOfSteps nbOfRepresentedYears -> 1 <= n ->
        (forall e, endYear = Some e -> startYear + n * r = e /\ e ≠ startYear) ->
        (forall n0, nbOfSteps = Some n0 -> n = n0) ->
        (forall r0, nbOfRepresentedYears = Some r0 -> r = r0) ->
        checkAndSetTimeHorizon startYear endYear nbOfSteps nbOfRepresentedYears
        = Ok (n, r))
  /\ (forall e,
        checkAndSetTimeHorizon startYear endYear nbOfSteps nbOfRepresentedYears
        = Raise e -> exists msg, e = ConfigurationError msg)
  /\ (endYear = Some startYear ->
      exists msg,
        checkAndSetTimeHorizon startYear endYear nbOfSteps nbOfRepresentedYears
        = Raise (ConfigurationError msg))
  /\ (exists msg,
        checkAndSetTimeHorizon 2020 (Some 2020) nbOfSteps nbOfRepresentedYears
        = Raise (ConfigurationError msg)).
Proof.
  split; [|split; [|split; [|split]]].
  - intros n r Hok. unfold checkAndSetTimeHorizon in Hok.
    destruct endYear as [e|], nbOfSteps as [n0|], nbOfRepresentedYears as [r0|];
      repeat case_decide; try done;
      apply resolvedHorizon_inv in Hok as (-> & -> & Hn);
      (split; [done|]); (split; [|split]); try done;
      try (intros ? [= <-]; try done).
    + destruct H0 as [Hn0 Hmod]. apply Z.div_exact in Hmod; [lia | done].
    + destruct H0 as [Hr0 Hmod]. apply Z.div_exact in Hmod; [lia | done].
  - intros n r Htwo Hn He Hn0 Hr0. unfold checkAndSetTimeHorizon.
    destruct endYear as [e|], nbOfSteps as [n0|], nbOfRepresentedYears as [r0|];
      try done.
    + destruct (He e eq_refl) as [Heq Hne].
      rewrite <- (Hn0 n0 eq_refl), <- (Hr0 r0 eq_refl).
      rewrite decide_False by done. rewrite decide_True by done.
      by apply resolvedHorizon_ok.
    + destruct (He e eq_refl) as [Heq Hne]. rewrite <- (Hn0 n0 eq_refl).
      rewrite decide_False by done.
      assert (e - startYear = r * n) as Hdiff by lia.
      rewrite decide_True.
      * rewrite Hdiff, Z.div_mul by lia. by apply resolvedHorizon_ok.
      * split; [lia|]. rewrite Hdiff. apply Z.mod_mul. lia.
    + destruct (He e eq_refl) as [Heq Hne]. rewrite <- (Hr0 r0 eq_refl).
      rewrite decide_False by done.
      assert (r ≠ 0) as Hr by (intros ->; lia).
      assert (e - startYear = n * r) as Hdiff by lia.
      rewrite decide_True.
      * rewrite Hdiff, Z.div_mul by done. by apply resolvedHorizon_ok.
      * split; [done|]. rewrite Hdiff. by apply Z.mod_mul.
    + rewrite <- (Hn0 n0 eq_refl), <- (Hr0 r0 eq_refl).
      by apply resolvedHorizon_ok.
  - intros e. unfold checkAndSetTimeHorizon.
    destruct endYear as [e0|], nbOfSteps as [n0|], nbOfRepresentedYears as [r0|];
      repeat case_decide;
      try (intros [= <-]; eauto); apply resolvedHorizon_raise.
  - intros ->. unfold checkAndSetTimeHorizon.
    rewrite decide_True by done. eauto.
  - unfold checkAndSetTimeHorizon. rewrite decide_True by done. eauto.
Qed.

(** ** The campaign *)

Lemma dict_set_notin {A} (k : string) (v : A) (d : list (string * A)) :
  k ∉ dict_keys d -> dict_set k v d = (d ++ [(k, v)])%list.
Proof.
  induction d as [|[k0 v0] d IH]; simpl; intros H; [done|].
  destruct (decide (k0 = k)) as [->|Hne].
  - exfalso. apply H. left.
  - f_equal. apply IH. intros Hin. apply H. by right.
Qed.

Lemma dict_get_elem_of {A} (k : string) (v : A) (d : list (string * A)) :
  dict_get k d = Some v -> (k, v) ∈ d.
Proof.
  induction d as [|[k0 v0] d IH]; simpl; [done|].
  destruct (decide (k0 = k)) as [->|Hne].
  - intros [= ->]. left.
  - intros H. right. by apply IH.
Qed.

Lemma resultKey_inj (startYear r a b : Z) :
  r ≠ 0 -> resultKey startYear r a = resultKey startYear r b -> a = b.
Proof.
  intros Hr H. unfold resultKey in H.
  apply String.app_inj in H. apply pretty_Z_inj in H.
  apply (Z.mul_cancel_r a b r Hr). lia.
Qed.

Section CampaignProperties.

Context {Val : Type}.
Variable zeroVal : Val.
Variable minusOne : Val.
Variable isnan : Val -> bool.
Variable preprocess2dimData : DataFrame Val -> bool -> result (Series Val).
Variable checkSinkCompCO2toEnvironment :
  EnergySystemModel Val -> option (list Z) -> result unit.
Variable checkCO2ReductionTargets : option (list Z) -> Z -> result unit.
Variable setNewCO2ReductionTarget :
  EnergySystemModel Val -> option (list Z) -> Z -> result (EnergySystemModel Val).
Variable cluster : EnergySystemModel Val -> Z -> Z -> result (EnergySystemModel Val).
Variable optimize :
  EnergySystemModel Val -> OptimizeArgs -> result (EnergySystemModel Val).
Variable writeOptimizationOutputToExcel :
  EnergySystemModel Val -> string -> Z -> Z -> result unit.

Variables (startYear r : Z) (timeSeriesAggregation : bool).
Variables (numberOfTypicalPeriods numberOfTimeStepsPerPeriod threads : Z).
Variables (solver : string) (timeLimit : option Z) (optimizationSpecs : string).
Variable CO2ReductionTargets : option (list Z).

Local Abbreviation myopicStep' :=
  (myopicStep zeroVal minusOne isnan preprocess2dimData
     setNewCO2ReductionTarget cluster optimize writeOptimizationOutputToExcel
     startYear r timeSeriesAggregation numberOfTypicalPeriods
     numberOfTimeStepsPerPeriod threads solver timeLimit optimizationSpecs
     CO2ReductionTargets).
Local Abbreviation myopicLoop' :=
  (myopicLoop zeroVal minusOne isnan preprocess2dimData
     setNewCO2ReductionTarget cluster optimize writeOptimizationOutputToExcel
     startYear r timeSeriesAggregation numberOfTypicalPeriods
     numberOfTimeStepsPerPeriod threads solver timeLimit optimizationSpecs
     CO2ReductionTargets).
Local Abbreviation solvedModel' :=
  (solvedModel setNewCO2ReductionTarget cluster optimize
     writeOptimizationOutputToExcel startYear r timeSeriesAggregation
     numberOfTypicalPeriods numberOfTimeStepsPerPeriod threads solver
     timeLimit optimizationSpecs CO2ReductionTargets).
Local Abbreviation solvedModels' :=
  (solvedModels zeroVal minusOne isnan preprocess2dimData
     setNewCO2ReductionTarget cluster optimize writeOptimizationOutputToExcel
     startYear r timeSeriesAggregation numberOfTypicalPeriods
     numberOfTimeStepsPerPeriod threads solver timeLimit optimizationSpecs
     CO2ReductionTargets).

(** The body reads of the local variables only [myopicResults]: it
    assigns [mileStoneYear] and [logFileName] before it uses them. *)
Lemma myopicStep_locals step loc1 loc2 :
  var_myopicResults loc1 = var_myopicResults loc2 ->
  myopicStep' step loc1 = myopicStep' step loc2.
Proof.
  destruct loc1, loc2. simpl. intros ->. reflexivity.
Qed.

Lemma myopicLoop_locals steps loc1 loc2 w :
  var_myopicResults loc1 = var_myopicResults loc2 ->
  (loc <~ myopicLoop' steps loc1 ;; ret (var_myopicResults loc)) w
  = (loc <~ myopicLoop' steps loc2 ;; ret (var_myopicResults loc)) w.
Proof.
  intros H. destruct steps as [|step steps]; simpl.
  - unfold bind, ret. by rewrite H.
  - by rewrite (myopicStep_locals step loc1 loc2 H).
Qed.

(** What a body that returned has done. *)
Lemma myopicStep_ok step loc w w1 loc1 :
  myopicStep' step loc w = (w1, Ok loc1) ->
  exists m',
    solvedModel' step (model w) = Ok m'
    /\ getStock zeroVal minusOne isnan preprocess2dimData m'
         (startYear + step * r) r = (model w1, None)
    /\ copies w1 = (copies w ++ [m'])%list
    /\ var_myopicResults loc1
       = dict_set (resultKey startYear r step) (length (copies w))
                  (var_myopicResults loc).
Proof.
  unfold myopicStep, solvedModel, bind, onModel, readModel, deepcopy,
    callGetStock, ret. cbn.
  destruct (setNewCO2ReductionTarget (model w) CO2ReductionTargets step)
    as [m1|]; [|done].
  destruct timeSeriesAggregation; cbn.
  - destruct (cluster m1 numberOfTypicalPeriods numberOfTimeStepsPerPeriod)
      as [m2|]; [|done]. cbn.
    destruct (optimize m2 _) as [m3|]; [|done]. cbn.
    destruct (writeOptimizationOutputToExcel m3 _ 2 1); [|done]. cbn.
    destruct (getStock _ _ _ _ m3 _ r) as [m4 [e|]] eqn:Hg; [done|].
    intros [= <- <-]. exists m3. by rewrite Hg.
  - destruct (optimize m1 _) as [m3|]; [|done]. cbn.
    destruct (writeOptimizationOutputToExcel m3 _ 2 1); [|done]. cbn.
    destruct (getStock _ _ _ _ m3 _ r) as [m4 [e|]] eqn:Hg; [done|].
    intros [= <- <-]. exists m3. by rewrite Hg.
Qed.

(** What a loop that returned has done, when its keys are new. *)
Lemma myopicLoop_ok steps loc w w' loc' :
  myopicLoop' steps loc w = (w', Ok loc') ->
  r ≠ 0 -> NoDup steps ->
  (forall step, step ∈ steps ->
     resultKey startYear r step ∉ dict_keys (var_myopicResults loc)) ->
  var_myopicResults loc'
  = (var_myopicResults loc
     ++ zip (map (resultKey startYear r) steps)
            (seq (length (copies w)) (length steps)))%list
  /\ copies w' = (copies w ++ solvedModels' steps (model w))%list
  /\ length (solvedModels' steps (model w)) = length steps.
Proof.
  intros Hloop Hr. revert loc w Hloop.
  induction steps as [|step steps IH]; intros loc w Hloop Hnd Hnew.
  - injection Hloop as <- <-. simpl. by rewrite !app_nil_r.
  - simpl in Hloop. unfold bind in Hloop at 1.
    destruct (myopicStep' step loc w) as [w1 [loc1|]] eqn:Hstep; [|done].
    destruct (myopicStep_ok _ _ _ _ _ Hstep) as (m' & Hsolve & Hg & Hcopies & Hres).
    apply NoDup_cons in Hnd as [Hnotin Hnd].
    rewrite dict_set_notin in Hres by (apply Hnew; left).
    destruct (IH loc1 w1 Hloop Hnd) as (Hres' & Hcopies' & Hlen).
    { intros s Hs. rewrite Hres. unfold dict_keys. rewrite map_app.
      intros Hin. apply elem_of_app in Hin as [Hin|Hin].
      - apply (Hnew s); [by right | done].
      - simpl in Hin. apply list_elem_of_singleton in Hin.
        apply resultKey_inj in Hin; [|done]. by subst. }
    simpl. rewrite Hsolve, Hg. simpl.
    rewrite Hres', Hres, Hcopies', Hcopies, Hlen, length_app. simpl.
    rewrite <- !app_assoc. simpl.
    replace (length (copies w) + 1)%nat with (S (length (copies w))) by lia.
    done.
Qed.

Lemma zip_seq_lookup (ks : list string) (len : nat) (k : string) (a : nat) :
  length ks = len -> (k, a) ∈ zip ks (seq 0 len) -> ks !! a = Some k.
Proof.
  intros Hlen Hin. apply list_elem_of_lookup in Hin as (i & Hi).
  apply lookup_zip_with_Some in Hi as (k' & a' & [= <- <-] & Hk & Ha).
  apply lookup_seq in Ha as [-> _]. done.
Qed.

(** C4, as the code has it: a campaign that returns, with [n] steps of
    [r] years resolved and [r] other than zero, returns a mapping with
    exactly [n + 1] entries, keyed ['ESM_' + str(startYear + k * r)] for
    [k = 0..n] in this order; the entry of step [k] refers to the [k]-th
    object made by [copy.deepcopy], whose value is the solved model of
    that step; entries under two keys refer to two objects, so that a
    write to the one leaves the other as it is. *)
Theorem optimizeMyopic_results esM endYear nbOfSteps nbOfRepresentedYears
    logFileName warmstart n w results :
  checkAndSetTimeHorizon startYear endYear nbOfSteps nbOfRepresentedYears
  = Ok (n, r) ->
  r ≠ 0 ->
  optimizeMyopic zeroVal minusOne isnan preprocess2dimData
    checkSinkCompCO2toEnvironment checkCO2ReductionTargets
    setNewCO2ReductionTarget cluster optimize writeOptimizationOutputToExcel
    esM startYear endYear nbOfSteps nbOfRepresentedYears
    timeSeriesAggregation numberOfTypicalPeriods numberOfTimeStepsPerPeriod
    logFileName threads solver timeLimit optimizationSpecs warmstart
    CO2ReductionTargets = (w, Ok results) ->
  results = zip (map (resultKey startYear r) (seqZ 0 (n + 1)))
                (seq 0 (Z.to_nat (n + 1)))
  /\ length results = Z.to_nat (n + 1)
  /\ copies w = solvedModels' (seqZ 0 (n + 1)) esM
  /\ length (copies w) = Z.to_nat (n + 1)
  /\ forall k1 k2 a1 a2,
       dict_get k1 results = Some a1 -> dict_get k2 results = Some a2 ->
       k1 ≠ k2 ->
       a1 ≠ a2 /\ forall m, <[a1 := m]> (copies w) !! a2 = copies w !! a2.
Proof.
  intros Hplan Hr Hrun. unfold optimizeMyopic in Hrun. rewrite Hplan in Hrun.
  unfold bind at 1, check at 1 in Hrun. cbn [model] in Hrun.
  destruct (checkSinkCompCO2toEnvironment esM CO2ReductionTargets); [|done].
  unfold bind at 1, check at 1 in Hrun.
  destruct (checkCO2ReductionTargets CO2ReductionTargets n); [|done].
  unfold bind at 1, emit at 1 in Hrun. unfold bind at 1, emit at 1 in Hrun.
  unfold bind at 1 in Hrun.
  match type of Hrun with
  | context [myopicLoop' ?steps ?loc ?w0] =>
      destruct (myopicLoop' steps loc w0) as [w1 [loc1|]] eqn:Hloop; [|done]
  end.
  unfold ret in Hrun. injection Hrun as <- <-.
  apply myopicLoop_ok in Hloop as (Hres & Hcopies & Hlen);
    [|done | apply NoDup_seqZ | intros step _ Hin; inversion Hin].
  cbn in Hres, Hcopies, Hlen. rewrite length_seqZ in Hres, Hlen.
  assert (length (var_myopicResults loc1) = Z.to_nat (n + 1)) as Hlenres.
  { rewrite Hres, length_zip_with, length_map, length_seqZ, length_seq. lia. }
  split; [done|]. split; [done|]. split; [done|].
  split; [by rewrite Hcopies|].
  intros k1 k2 a1 a2 H1 H2 Hne.
  assert (a1 ≠ a2) as Hne'.
  { intros <-. apply Hne.
    apply dict_get_elem_of in H1, H2. rewrite Hres in H1, H2.
    apply zip_seq_lookup in H1, H2;
      try (rewrite length_map, length_seqZ; done).
    congruence. }
  split; [done|]. intros m. by apply list_lookup_insert_ne.
Qed.

End CampaignProperties.

Section CampaignArguments.

Context {Val : Type}.
Variable zeroVal : Val.
Variable minusOne : Val.
Variable isnan : Val -> bool.
Variable preprocess2dimData : DataFrame Val -> bool -> result (Series Val).
Variable checkSinkCompCO2toEnvironment :
  EnergySystemModel Val -> option (list Z) -> result unit.
Variable checkCO2ReductionTargets : option (list Z) -> Z -> result unit.
Variable setNewCO2ReductionTarget :
  EnergySystemModel Val -> option (list Z) -> Z -> result (EnergySystemModel Val).
Variable cluster : EnergySystemModel Val -> Z -> Z -> result (EnergySystemModel Val).
Variable optimize :
  EnergySystemModel Val -> OptimizeArgs -> result (EnergySystemModel Val).
Variable writeOptimizationOutputToExcel :
  EnergySystemModel Val -> string -> Z -> Z -> result unit.

(** C10: the argument [logFileName] of [optimizeMyopic] has no effect:
    with all other arguments equal, two calls make the same calls of the
    collaborators with the same arguments, leave the same objects and
    return the same, whatever the two log file names are; every
    [optimize] is called with ['log_' + str(mileStoneYear)]. *)
Theorem optimizeMyopic_logFileName_unused
    esM startYear endYear nbOfSteps nbOfRepresentedYears timeSeriesAggregation
    numberOfTypicalPeriods numberOfTimeStepsPerPeriod threads solver
    timeLimit optimizationSpecs warmstart CO2ReductionTargets
    (logFileName1 logFileName2 : string) :
  optimizeMyopic zeroVal minusOne isnan preprocess2dimData
    checkSinkCompCO2toEnvironment checkCO2ReductionTargets
    setNewCO2ReductionTarget cluster optimize writeOptimizationOutputToExcel
    esM startYear endYear nbOfSteps nbOfRepresentedYears
    timeSeriesAggregation numberOfTypicalPeriods numberOfTimeStepsPerPeriod
    logFileName1 threads solver timeLimit optimizationSpecs warmstart
    CO2ReductionTargets
  = optimizeMyopic zeroVal minusOne isnan preprocess2dimData
      checkSinkCompCO2toEnvironment checkCO2ReductionTargets
      setNewCO2ReductionTarget cluster optimize writeOptimizationOutputToExcel
      esM startYear endYear nbOfSteps nbOfRepresentedYears
      timeSeriesAggregation numberOfTypicalPeriods numberOfTimeStepsPerPeriod
      logFileName2 threads solver timeLimit optimizationSpecs warmstart
      CO2ReductionTargets.
Proof.
  unfold optimizeMyopic.
  destruct (checkAndSetTimeHorizon _ _ _ _) as [[n r]|]; [|done].
  unfold bind at 1 6. destruct (check _ _) as [w1 [[]|]]; [|done].
  unfold bind at 1 5. destruct (check _ _) as [w2 [[]|]]; [|done].
  unfold bind at 1 4. destruct (emit _ _) as [w3 [[]|]]; [|done].
  unfold bind at 1 3. destruct (emit _ _) as [w4 [[]|]]; [|done].
  by apply myopicLoop_locals.
Qed.

End CampaignArguments.

(** ** The properties on the sample models *)

Lemma tables_wf_check {Val} (esM : EnergySystemModel Val) :
  forallb
    (fun d : string * ComponentModel Val =>
       match capacityVariablesOptimum d.2 with
       | None => true
       | Some t =>
           forallb (fun comp => bool_decide (is_Some (componentsDict d.2 !! comp)))
                   (level0 t)
       end)
    (componentModelingDict esM) = true ->
  tables_wf esM.
Proof.
  intros Hall mdl t comp Ht Hin. unfold getTable, getComponent in *.
  destruct (dict_get mdl (componentModelingDict esM)) as [cm|] eqn:Hcm; [|done].
  simpl in *. apply dict_get_elem_of in Hcm.
  rewrite forallb_forall in Hall.
  specialize (Hall _ (proj1 (list_elem_of_In _ _) Hcm)). simpl in Hall.
  rewrite Ht in Hall. rewrite forallb_forall in Hall.
  specialize (Hall _ (proj1 (list_elem_of_In _ _) Hin)).
  by apply bool_decide_eq_true in Hall.
Defined.

Lemma unique_names_single {Val} (locs : list string) (mdl : string)
    (cm : ComponentModel Val) :
  unique_names (mkEnergySystemModel locs [(mdl, cm)]).
Proof.
  intros d1 d2 k H1 H2. unfold getComponent in *. simpl in *.
  destruct (decide (mdl = d1)) as [<-|]; [|by destruct H1].
  destruct (decide (mdl = d2)) as [<-|]; [done | by destruct H2].
Defined.

Lemma keys_wf_single {Val} (locs : list string) (mdl : string)
    (cm : ComponentModel Val) :
  keys_wf (mkEnergySystemModel locs [(mdl, cm)]).
Proof. unfold keys_wf. simpl. apply NoDup_singleton. Defined.

Lemma getStock_adds_stock_witness :
  isRegistered sample_model "Wind_stock_2020" = false
  /\ exists s,
       getComponent (sample_getStock sample_model 2020 10).1
         "SourceSinkModel" "Wind_stock_2020" = Some s
       /\ name s = "Wind_stock_2020"
       /\ lifetime s = [("a", 5); ("b", 5)]
       /\ technicalLifetime s = [("a", 15); ("b", 15)]
       /\ capacityFix s = Some [("a", 5); ("b", 7)]
       /\ capacityMax s = Some [("a", 50); ("b", 60)]
       /\ capacityMin s = None
       /\ sharedPotentialID s = Some "wind".
Proof.
  destruct (getStock_adds_stock 0 (-1) nonan flatten2dim sample_model 2020 10
              (sample_getStock sample_model 2020 10).1
              "SourceSinkModel" sample_table "Wind" sample_wind)
    as (Hfresh & s & Hget & Hname & Hlife & _ & Htech & Hmax & Hmin & Hshared
        & _ & Hfix).
  - apply keys_wf_single.
  - apply tables_wf_check. vm_compute. reflexivity.
  - vm_compute. reflexivity.
  - vm_compute. reflexivity.
  - simpl. left.
  - vm_compute. reflexivity.
  - vm_compute. reflexivity.
  - simpl. repeat (constructor; [simpl; lia|]). constructor.
  - split; [exact Hfresh|]. exists s.
    split; [exact Hget|]. split; [exact Hname|].
    split; [exact (series_minus_eq _ _ _ Hlife)|].
    split; [exact Htech|]. split; [|by repeat split].
    apply (Hfix []
             [("Wind_stock_2010", [("a", 3); ("b", 4)]);
              ("Feedstock", [("a", 1); ("b", 2)])]
             [("a", 5); ("b", 7)]).
    + reflexivity.
    + reflexivity.
    + intros H. inversion H.
    + simpl. intros H.
      repeat (apply elem_of_cons in H as [H|H]; [discriminate H|]).
      inversion H.
Defined.

Lemma getStock_rolls_stock_witness :
  exists c',
    getComponent (sample_getStock sample_model 2020 10).1
      "SourceSinkModel" "Wind_stock_2010" = Some c'
    /\ name c' = "Wind_stock_2010"
    /\ lifetime c' = [("a", -5); ("b", -5)]
    /\ capacityFix c' = Some [("a", 0); ("b", 0)]
    /\ capacityMax c' = Some [("a", 0); ("b", 0)]
    /\ capacityMin c' = Some [("a", 0); ("b", 0)]
    /\ sharedPotentialID c' = None.
Proof.
  destruct (getStock_rolls_stock 0 (-1) nonan flatten2dim sample_model 2020 10
              (sample_getStock sample_model 2020 10).1
              "SourceSinkModel" sample_table "Wind_stock_2010" sample_stock)
    as (c' & Hget & Hname & Hlife & Hexpired & _).
  - apply keys_wf_single.
  - vm_compute. reflexivity.
  - vm_compute. reflexivity.
  - simpl. right. left.
  - vm_compute. reflexivity.
  - vm_compute. reflexivity.
  - apply series_minus_eq in Hlife. simpl in Hlife.
    destruct Hexpired
      as ((z1 & Hfix & Hz1) & (z2 & Hmax & Hz2) & (z3 & Hmin & Hz3) & Hshared).
    { rewrite Hlife. left. simpl. lia. }
    apply isZeroSeries_eq in Hz1, Hz2, Hz3. simpl in Hz1, Hz2, Hz3.
    exists c'. split; [exact Hget|]. split; [exact Hname|].
    split; [exact Hlife|]. rewrite Hfix, Hmax, Hmin, Hz1, Hz2, Hz3.
    by repeat split.
Defined.

Lemma getStock_creates_iff_all_positive_witness :
  (isRegistered sample_model (stockName "Wind" 2020) = false
   /\ isRegistered (sample_getStock sample_model 2020 10).1
        (stockName "Wind" 2020) = true)
  <-> Forall (fun lv : string * Z => 0 < lv.2) (candidateLifetime sample_wind 10).
Proof.
  apply (getStock_creates_iff_all_positive 0 (-1) nonan flatten2dim
           sample_model 2020 10 (sample_getStock sample_model 2020 10).1
           "SourceSinkModel" sample_table "Wind" sample_wind).
  - apply keys_wf_single.
  - apply unique_names_single.
  - vm_compute. reflexivity.
  - vm_compute. reflexivity.
  - simpl. left.
  - vm_compute. reflexivity.
  - vm_compute. reflexivity.
Defined.

(** The turbine of [mixed_model] has a candidate lifetime of five years at
    location [a], so it is not at most zero at every location; yet
    [getStock] returns the model as it was, without a stock for it. *)
Lemma getStock_skip_counterexample :
  getComponent mixed_model "SourceSinkModel" "Wind" = Some mixed_wind
  /\ isOriginal mixed_wind
  /\ level0 (FlatTable [("Wind", [("a", 5); ("b", 7)])]) = ["Wind"]
  /\ candidateLifetime mixed_wind 10 = [("a", 5); ("b", -5)]
  /\ Exists (fun lv : string * Z => 0 < lv.2) (candidateLifetime mixed_wind 10)
  /\ ~ Forall (fun lv : string * Z => lv.2 <= 0) (candidateLifetime mixed_wind 10)
  /\ sample_getStock mixed_model 2020 10 = (mixed_model, None)
  /\ isRegistered (sample_getStock mixed_model 2020 10).1 (stockName "Wind" 2020)
     = false.
Proof.
  split; [vm_compute; reflexivity|]. split; [vm_compute; reflexivity|].
  split; [reflexivity|]. split; [reflexivity|].
  split; [left; simpl; lia|].
  split; [intros H; inversion H; simpl in *; lia|].
  split; vm_compute; reflexivity.
Qed.

Lemma getStock_marker_anywhere_witness :
  (exists c',
     getComponent (sample_getStock sample_model 2020 10).1
       "SourceSinkModel" "Feedstock" = Some c'
     /\ name c' = "Feedstock"
     /\ lifetime c' = [("a", 20); ("b", 20)])
  /\ isRegistered (sample_getStock sample_model 2020 10).1
       "Feedstock_stock_2020" = false.
Proof.
  destruct (getStock_marker_anywhere 0 (-1) nonan flatten2dim sample_model
              2020 10 (sample_getStock sample_model 2020 10).1
              "SourceSinkModel" sample_table "Feedstock" sample_feedstock)
    as ((c' & Hget & Hname & Hlife) & Hreg).
  - apply keys_wf_single.
  - apply unique_names_single.
  - vm_compute. reflexivity.
  - vm_compute. reflexivity.
  - simpl. right. right. left.
  - vm_compute. reflexivity.
  - vm_compute. reflexivity.
  - split.
    + exists c'. split; [exact Hget|]. split; [exact Hname|].
      exact (series_minus_eq _ _ _ Hlife).
    + change "Feedstock_stock_2020" with ("Feedstock" ++ "_stock_" ++ str 2020).
      rewrite Hreg. vm_compute. reflexivity.
Defined.

Lemma getStock_skips_domain_without_result_witness :
  rollDomain 0 (-1) nonan flatten2dim 2020 10 "StorageModel" two_domain_model
  = (two_domain_model, None)
  /\ forall esM' e,
       sample_getStock two_domain_model 2020 10 = (esM', e) ->
       (forall k c, getComponent two_domain_model "StorageModel" k = Some c ->
                    getComponent esM' "StorageModel" k = Some c)
       /\ (classes_wf two_domain_model ->
           dict_get "StorageModel" (componentModelingDict esM')
           = Some sample_storage).
Proof.
  apply (getStock_skips_domain_without_result 0 (-1) nonan flatten2dim
           two_domain_model 2020 10 "StorageModel" sample_storage).
  - vm_compute. reflexivity.
  - vm_compute. reflexivity.
Defined.

Lemma getStock_originals_unchanged_witness :
  getComponent (sample_getStock sample_model 2020 10).1 "SourceSinkModel" "Wind"
  = Some sample_wind.
Proof.
  apply (getStock_originals_unchanged 0 (-1) nonan flatten2dim sample_model
           2020 10 (sample_getStock sample_model 2020 10).1 None
           "SourceSinkModel" "Wind" sample_wind).
  - vm_compute. reflexivity.
  - vm_compute. reflexivity.
  - vm_compute. reflexivity.
Defined.

Lemma getStock_lifetime_monotone_witness :
  exists c',
    getComponent (sample_getStock sample_model 2020 10).1
      "SourceSinkModel" "Wind_stock_2010" = Some c'
    /\ isStock c' /\ series_le (lifetime c') (lifetime sample_stock).
Proof.
  apply (getStock_lifetime_monotone 0 (-1) nonan flatten2dim sample_model
           2020 10 (sample_getStock sample_model 2020 10).1 None
           "SourceSinkModel" "Wind_stock_2010" sample_stock).
  - lia.
  - vm_compute. reflexivity.
  - vm_compute. reflexivity.
  - vm_compute. reflexivity.
Defined.

(** A campaign of three runs, in 2020, 2030 and 2040. *)
Lemma optimizeMyopic_results_witness :
  [("ESM_2020", 0%nat); ("ESM_2030", 1%nat); ("ESM_2040", 2%nat)]
  = zip (map (resultKey 2020 10) (seqZ 0 (2 + 1))) (seq 0 (Z.to_nat (2 + 1)))
  /\ length [("ESM_2020", 0%nat); ("ESM_2030", 1%nat); ("ESM_2040", 2%nat)]
     = Z.to_nat (2 + 1)
  /\ copies (sample_optimizeMyopic sample_model 2020 None (Some 2) (Some 10)
               false 7 24 "myopic" 3 "gurobi" None "" false None).1
     = solvedModels 0 (-1) nonan flatten2dim (fun m _ _ => Ok m)
         (fun m _ _ => Ok m) (fun m _ => Ok m) (fun _ _ _ _ => Ok tt)
         2020 10 false 7 24 3 "gurobi" None "" None (seqZ 0 (2 + 1))
         sample_model
  /\ length (copies (sample_optimizeMyopic sample_model 2020 None (Some 2)
                       (Some 10) false 7 24 "myopic" 3 "gurobi" None ""
                       false None).1)
     = Z.to_nat (2 + 1)
  /\ forall k1 k2 a1 a2,
       dict_get k1 [("ESM_2020", 0%nat); ("ESM_2030", 1%nat); ("ESM_2040", 2%nat)]
       = Some a1 ->
       dict_get k2 [("ESM_2020", 0%nat); ("ESM_2030", 1%nat); ("ESM_2040", 2%nat)]
       = Some a2 ->
       k1 ≠ k2 ->
       a1 ≠ a2
       /\ forall m,
            <[a1 := m]>
              (copies (sample_optimizeMyopic sample_model 2020 None (Some 2)
                         (Some 10) false 7 24 "myopic" 3 "gurobi" None ""
                         false None).1) !! a2
            = copies (sample_optimizeMyopic sample_model 2020 None (Some 2)
                        (Some 10) false 7 24 "myopic" 3 "gurobi" None ""
                        false None).1 !! a2.
Proof.
  apply (optimizeMyopic_results 0 (-1) nonan flatten2dim
           (fun _ _ => Ok tt) (fun _ _ => Ok tt) (fun m _ _ => Ok m)
           (fun m _ _ => Ok m) (fun m _ => Ok m) (fun _ _ _ _ => Ok tt)
           2020 10 false 7 24 3 "gurobi" None "" None
           sample_model None (Some 2) (Some 10) "myopic" false 2).
  - vm_compute. reflexivity.
  - lia.
  - vm_compute. reflexivity.
Defined.

(** With zero years per step the planner accepts one step, both runs are
    keyed ['ESM_2020'], and the campaign returns one entry, not two. *)
Lemma optimizeMyopic_zero_years_counterexample :
  checkAndSetTimeHorizon 2020 None (Some 1) (Some 0) = Ok (1, 0)
  /\ (sample_optimizeMyopic idle_model 2020 None (Some 1) (Some 0)
        false 7 24 "" 3 "gurobi" None "" false None).2
     = Ok [("ESM_2020", 1%nat)]
  /\ length [("ESM_2020", 1%nat)] ≠ Z.to_nat (1 + 1)
  /\ dict_keys [("ESM_2020", 1%nat)]
     ≠ map (fun k => "ESM_" ++ str (2020 + k * 0)) (seqZ 0 (1 + 1)).
Proof.
  split; [vm_compute; reflexivity|]. split; [vm_compute; reflexivity|].
  split; [simpl; lia|]. vm_compute. discriminate.
Qed.

(** * Further properties *)

(** ** Invariants of the loop bodies *)

Section MoreSteps.

Context {Val : Type}.
Variable zeroVal : Val.
Variable minusOne : Val.
Variable isnan : Val -> bool.
Variable preprocess2dimData : DataFrame Val -> bool -> result (Series Val).
Variables (y n : Z).
Implicit Types (esM : EnergySystemModel Val) (c : Component Val).

Local Abbreviation run' := (run zeroVal minusOne isnan preprocess2dimData y n).
Local Abbreviation rollComponent' :=
  (rollComponent zeroVal minusOne isnan preprocess2dimData y n).
Local Abbreviation getStock' :=
  (getStock zeroVal minusOne isnan preprocess2dimData).

(** A property that every body that returned keeps holds along a sequence
    of bodies. *)
Lemma run_invariant (P : EnergySystemModel Val -> Prop) l esM1 esM2 :
  (forall mdl t comp a b,
     P a -> getTable a mdl = Some t -> comp ∈ level0 t ->
     rollComponent' mdl t comp a = (b, None) -> P b) ->
  run' l esM1 esM2 -> P esM1 -> P esM2.
Proof.
  intros Hstep. induction 1 as [|mdl comp t l a b c Ht Hin Hs _ IH]; [done|].
  intros HP. apply IH. eapply Hstep; eauto.
Qed.

(** A call of [getStock], returned or raised, keeps what every body that
    returned keeps. *)
Lemma getStock_invariant (P : EnergySystemModel Val -> Prop) esM esM' e :
  (forall mdl t comp a b,
     P a -> getTable a mdl = Some t -> comp ∈ level0 t ->
     rollComponent' mdl t comp a = (b, None) -> P b) ->
  getStock' esM y n = (esM', e) -> P esM -> P esM'.
Proof.
  intros Hstep Hget.
  destruct (getStock_run _ _ _ _ _ _ _ _ _ Hget) as (l & Hrun & _).
  by apply (run_invariant P l).
Qed.

Section MoreEffects.

Variables (mdl comp : string) (t : OptTable Val).
Variables (esM1 esM2 : EnergySystemModel Val).
Hypothesis Hstep : rollComponent' mdl t comp esM1 = (esM2, None).

(** The body keeps every component under its key, with its name, its
    modelling technique and its technical lifetime. *)
Lemma step_identity d k c :
  getComponent esM1 d k = Some c ->
  exists c', getComponent esM2 d k = Some c' /\ name c' = name c
             /\ modelingClass c' = modelingClass c
             /\ technicalLifetime c' = technicalLifetime c.
Proof.
  intros Hget.
  pose proof (step_domain _ _ _ _ _ _ _ _ _ _ _ Hstep) as Hdom.
  destruct (decide ((d, k) = (mdl, comp))) as [[= -> ->]|Hne].
  - destruct (rollComponent_inv _ _ _ _ _ _ _ _ _ _ _ Hstep)
      as (c0 & Hc & [(_ & _ & ->) | [(_ & _ & sc & _ & Hadd) | (Hst & ->)]]).
    + exists c. done.
    + exists c. split; [|done].
      rewrite (add_get_old _ _ _ Hadd); [done | rewrite Hget; eauto].
    + rewrite Hc in Hget. injection Hget as ->.
      exists (rolledStock zeroVal (locations esM1) n c).
      split; [by apply storeComponent_get_eq|].
      unfold rolledStock. by destruct (any_le0 _).
  - exists c. split; [|done].
    rewrite (step_get_other _ _ _ _ _ _ _ _ _ _ _ Hstep); [done | done |].
    rewrite Hget; eauto.
Qed.

(** A component with a lifetime at most zero somewhere and the attributes
    of an expired stock keeps both, when the years are not negative. *)
Lemma step_retired d k c :
  0 <= n -> getComponent esM1 d k = Some c ->
  Exists (fun lv : string * Z => lv.2 <= 0) (lifetime c) ->
  isRetired zeroVal (locations esM1) c ->
  exists c', getComponent esM2 d k = Some c'
             /\ Exists (fun lv : string * Z => lv.2 <= 0) (lifetime c')
             /\ isRetired zeroVal (locations esM1) c'.
Proof.
  intros Hn Hget Hex Hret.
  pose proof (step_domain _ _ _ _ _ _ _ _ _ _ _ Hstep) as Hdom.
  destruct (decide ((d, k) = (mdl, comp))) as [[= -> ->]|Hne].
  - destruct (rollComponent_inv _ _ _ _ _ _ _ _ _ _ _ Hstep)
      as (c0 & Hc & [(_ & _ & ->) | [(_ & _ & sc & _ & Hadd) | (Hst & ->)]]).
    + exists c. done.
    + exists c. split; [|done].
      rewrite (add_get_old _ _ _ Hadd); [done | rewrite Hget; eauto].
    + rewrite Hc in Hget. injection Hget as ->.
      exists (rolledStock zeroVal (locations esM1) n c).
      split; [by apply storeComponent_get_eq|].
      assert (Exists (fun lv : string * Z => lv.2 <= 0)
                (series_sub (lifetime c) n)) as Hex'.
      { unfold series_sub. apply Exists_fmap.
        eapply Exists_impl; [exact Hex|]. intros lv. simpl. lia. }
      split; [by rewrite rolledStock_lifetime|].
      unfold rolledStock. cbn [lifetime set_lifetime].
      apply any_le0_true in Hex'. rewrite Hex'. by repeat split.
  - exists c. split; [|done].
    rewrite (step_get_other _ _ _ _ _ _ _ _ _ _ _ Hstep); [done | done |].
    rewrite Hget; eauto.
Qed.

(** A component that is in the model after the body was there before, or
    its key is a stock name of this step. *)
Lemma step_get_new d k :
  is_Some (getComponent esM2 d k) ->
  is_Some (getComponent esM1 d k) \/ k = stockName comp y.
Proof.
  intros Hsome.
  pose proof (step_domain _ _ _ _ _ _ _ _ _ _ _ Hstep) as Hdom.
  destruct (rollComponent_inv _ _ _ _ _ _ _ _ _ _ _ Hstep)
    as (c0 & Hc & [(_ & _ & ->) | [(_ & _ & sc & Hfix & Hadd) | (Hst & ->)]]).
  - by left.
  - destruct (decide ((d, k) = (modelingClass sc, name sc))) as [[= -> ->]|Hne].
    + right. by destruct (fixCapacity_fields _ _ _ _ _ _ _ Hfix) as (-> & _).
    + left. by rewrite (add_get_ne _ _ _ Hadd) in Hsome.
  - left. destruct (decide ((d, k) = (mdl, comp))) as [[= -> ->]|Hne].
    + rewrite Hc. eauto.
    + by rewrite storeComponent_get_ne in Hsome.
Qed.

(** The body keeps the domains in their order, and at most appends one. *)
Lemma step_keys_prefix :
  dict_keys (componentModelingDict esM1)
  `prefix_of` dict_keys (componentModelingDict esM2).
Proof.
  pose proof (step_domain _ _ _ _ _ _ _ _ _ _ _ Hstep) as Hdom.
  destruct (rollComponent_inv _ _ _ _ _ _ _ _ _ _ _ Hstep)
    as (c0 & Hc & [(_ & _ & ->) | [(_ & _ & sc & Hfix & Hadd) | (Hst & ->)]]).
  - done.
  - rewrite (add_eq _ _ _ Hadd). simpl.
    destruct (decide (modelingClass sc ∈ dict_keys (componentModelingDict esM1))).
    + by rewrite dict_keys_set_in.
    + rewrite dict_keys_set_notin by done. by apply prefix_app_r.
  - by rewrite storeComponent_keys.
Qed.

End MoreEffects.

End MoreSteps.

(** ** More on the stock roller *)

Section MoreStockRoller.

Context {Val : Type}.
Variable zeroVal : Val.
Variable minusOne : Val.
Variable isnan : Val -> bool.
Variable preprocess2dimData : DataFrame Val -> bool -> result (Series Val).
Implicit Types (esM : EnergySystemModel Val) (c : Component Val).

Local Abbreviation getStock' :=
  (getStock zeroVal minusOne isnan preprocess2dimData).
Local Abbreviation run' := (run zeroVal minusOne isnan preprocess2dimData).

(** X1: [getStock] leaves the locations of the model and the optimal
    capacities of every domain as they are, whether it returns or raises. *)
Theorem getStock_keeps_tables_and_locations esM y n esM' e :
  getStock' esM y n = (esM', e) ->
  locations esM' = locations esM
  /\ forall d, getTable esM' d = getTable esM d.
Proof.
  intros Hget.
  destruct (getStock_run _ _ _ _ _ _ _ _ _ Hget) as (l & Hrun & _).
  split.
  - eapply run_locations; eauto.
  - intros d. eapply run_table; eauto.
Qed.

(** X2: [getStock] removes and renames nothing: a component of the model
    is afterwards under the same key of the same domain, with the same name,
    modelling technique and technical lifetime, whether the call returns or
    raises. *)
Theorem getStock_keeps_identity esM y n esM' e d k c :
  getStock' esM y n = (esM', e) -> getComponent esM d k = Some c ->
  exists c', getComponent esM' d k = Some c' /\ name c' = name c
             /\ modelingClass c' = modelingClass c
             /\ technicalLifetime c' = technicalLifetime c.
Proof.
  intros Hget Hc.
  apply (getStock_invariant zeroVal minusOne isnan preprocess2dimData y n
           (fun m => exists c', getComponent m d k = Some c' /\ name c' = name c
                                /\ modelingClass c' = modelingClass c
                                /\ technicalLifetime c' = technicalLifetime c)
           esM esM' e); [|done|by exists c].
  intros mdl t comp a b (c1 & Hc1 & Hn1 & Hm1 & Ht1) _ _ Hstep.
  destruct (step_identity _ _ _ _ _ _ _ _ _ _ _ Hstep d k c1 Hc1)
    as (c2 & Hc2 & Hn2 & Hm2 & Ht2).
  exists c2. split; [done|]. split; [congruence|]. split; congruence.
Qed.

(** X3: [getStock] touches only what the result tables name: a component
    that the table of its domain does not name (or whose domain has no
    table) is afterwards as it was, whether the call returns or raises. *)
Theorem getStock_untouched esM y n esM' e d k c :
  getStock' esM y n = (esM', e) -> getComponent esM d k = Some c ->
  (forall t, getTable esM d = Some t -> k ∉ level0 t) ->
  getComponent esM' d k = Some c.
Proof.
  intros Hget Hc Hnot.
  destruct (getStock_run _ _ _ _ _ _ _ _ _ Hget) as (l & Hrun & _).
  rewrite (run_get_other _ _ _ _ _ _ _ _ _ _ _ Hrun); [done| |].
  - intros Hel.
    destruct (run_entries _ _ _ _ _ _ _ _ _ _ _ Hrun Hel) as (t & Ht & Hin).
    by apply (Hnot t).
  - rewrite Hc. eauto.
Qed.

(** X4: every name that [getStock] registers, whether it returns or raises,
    is [<key>_stock_<mileStoneYear>] for an original component that a result
    table names and whose candidate lifetime is positive at every location;
    the name carries the stock marker, so the next call takes the component
    for a stock. *)
Theorem getStock_new_names esM y n esM' e nm :
  getStock' esM y n = (esM', e) ->
  isRegistered esM' nm = true -> isRegistered esM nm = false ->
  contains "stock" nm = true
  /\ exists mdl t comp c,
       getTable esM mdl = Some t /\ comp ∈ level0 t
       /\ getComponent esM mdl comp = Some c /\ isOriginal c
       /\ Forall (fun lv : string * Z => 0 < lv.2) (candidateLifetime c n)
       /\ nm = stockName comp y.
Proof.
  intros Hget Hnew Hold.
  destruct (getStock_run _ _ _ _ _ _ _ _ _ Hget) as (l & Hrun & _).
  destruct (run_registered_new _ _ _ _ _ _ _ _ _ _ Hrun Hnew)
    as [Hreg | (mdl & comp & c & Hel & -> & Hc & Ho & Ha)]; [congruence|].
  split; [apply stockName_contains|].
  destruct (run_entries _ _ _ _ _ _ _ _ _ _ _ Hrun Hel) as (t & Ht & Hin).
  exists mdl, t, comp, c. repeat split; try done. by apply any_le0_false.
Qed.

(** X5: an expired stock stays expired: with [nbOfRepresentedYears >= 0],
    a component whose lifetime is at most zero at some location and whose
    capacities are the zero series over the locations of the model, with no
    [sharedPotentialID], is still so after [getStock], whether or not a
    table names it and whether the call returns or raises. *)
Theorem getStock_retired_stays_retired esM y n esM' e d k c :
  0 <= n -> getStock' esM y n = (esM', e) ->
  getComponent esM d k = Some c ->
  Exists (fun lv : string * Z => lv.2 <= 0) (lifetime c) ->
  isRetired zeroVal (locations esM) c ->
  exists c', getComponent esM' d k = Some c'
             /\ Exists (fun lv : string * Z => lv.2 <= 0) (lifetime c')
             /\ isRetired zeroVal (locations esM) c'.
Proof.
  intros Hn Hget Hc Hex Hret.
  apply (getStock_invariant zeroVal minusOne isnan preprocess2dimData y n
           (fun m =>
              locations m = locations esM
              /\ exists c', getComponent m d k = Some c'
                   /\ Exists (fun lv : string * Z => lv.2 <= 0) (lifetime c')
                   /\ isRetired zeroVal (locations esM) c')
           esM esM' e); [|done|split; [done | by exists c]].
  intros mdl t comp a b (Hloc & c1 & Hc1 & Hex1 & Hret1) _ _ Hstep.
  split.
  - by rewrite (step_locations _ _ _ _ _ _ _ _ _ _ _ Hstep).
  - rewrite <- Hloc in Hret1 |- *.
    by apply (step_retired _ _ _ _ _ _ _ _ _ _ _ Hstep d k c1).
Qed.

(** The stock of an original entry with a candidate lifetime above zero
    everywhere, in a call that returned. *)
Lemma getStock_new_stock esM y n esM' mdl t comp c :
  keys_wf esM -> tables_wf esM -> getStock' esM y n = (esM', None) ->
  getTable esM mdl = Some t -> comp ∈ level0 t ->
  getComponent esM mdl comp = Some c -> isOriginal c ->
  any_le0 (candidateLifetime c n) = false ->
  exists s,
    fixCapacity minusOne isnan preprocess2dimData t comp
      (draftStock comp y n c) = Ok s
    /\ getComponent esM' (modelingClass c) (stockName comp y) = Some s.
Proof.
  intros Hkeys Hwf Hget Ht Hin Hc Ho Hpos.
  destruct (getStock_entry _ _ _ _ _ _ _ _ _ _ _ Hkeys Hget Ht Hin)
    as (l1 & l2 & esM1 & esM2 & Hrun1 & Hnot1 & Hstep & Hrun2 & Hnot2 & Hl2).
  pose proof (run_get_original _ _ _ _ _ _ _ _ _ _ _ _ Hrun1 Hc Ho) as Hc1.
  destruct (rollComponent_inv _ _ _ _ _ _ _ _ _ _ _ Hstep)
    as (c0 & Hc0 & Hcases).
  rewrite Hc1 in Hc0. injection Hc0 as <-.
  destruct Hcases as [(_ & Ha & _) | [(_ & _ & s & Hfix & Hadd) | (Hs & _)]];
    [congruence | | unfold isOriginal, isStock in *; congruence].
  destruct (fixCapacity_fields _ _ _ _ _ _ _ Hfix) as (Hname & Hclass & _).
  cbn in Hname, Hclass.
  exists s. split; [done|].
  rewrite (run_get_other _ _ _ _ _ _ _ _ _ _ _ Hrun2).
  - rewrite <- Hclass, <- Hname. apply (add_get_eq _ _ _ Hadd).
  - intros Hel. apply Hl2, elem_of_work in Hel as (t' & Ht' & Hin').
    destruct (Hwf _ _ _ Ht' Hin') as [c' Hc'].
    assert (isRegistered esM (stockName comp y) = true) as Hreg.
    { apply isRegistered_true. exists (modelingClass c). rewrite Hc'. eauto. }
    apply (run_registered _ _ _ _ _ _ _ _ _ _ Hrun1) in Hreg.
    pose proof (add_fresh _ _ _ Hadd) as Hf. rewrite Hname in Hf. congruence.
  - rewrite <- Hclass, <- Hname, (add_get_eq _ _ _ Hadd). eauto.
Qed.

(** X6: capacities over two dimensions. When [getStock] returns, for an
    original component without [capacityFix] whose candidate lifetime is
    positive everywhere and whose rows in a result table with a two-level
    index are the frame [f], [preprocess2dimData] has returned on the frame
    that has [-1] where [f] has NaN and the values of [f] elsewhere, called
    with [discard=False], and what it returned is the [capacityFix] of the
    new stock [<key>_stock_<mileStoneYear>]. *)
Theorem getStock_adds_stock_frame esM y n esM' mdl rows1 rows2 comp c f :
  keys_wf esM -> tables_wf esM -> getStock' esM y n = (esM', None) ->
  getTable esM mdl
  = Some (MultiTable
            (rows1 ++ map (fun r : string * Series Val => ((comp, r.1), r.2)) f
             ++ rows2)) ->
  f <> [] ->
  comp ∉ map (fun r : (string * string) * Series Val => r.1.1) rows1 ->
  comp ∉ map (fun r : (string * string) * Series Val => r.1.1) rows2 ->
  getComponent esM mdl comp = Some c -> isOriginal c ->
  Forall (fun lv : string * Z => 0 < lv.2 - n) (technicalLifetime c) ->
  capacityFix c = None ->
  exists s v f',
    filledFrame isnan minusOne f f'
    /\ preprocess2dimData f' false = Ok v
    /\ getComponent esM' (modelingClass c) (comp ++ "_stock_" ++ str y) = Some s
    /\ capacityFix s = Some v
    /\ series_minus n (lifetime s) (technicalLifetime c).
Proof.
  intros Hkeys Hwf Hget Ht Hf H1 H2 Hc Ho Hpos Hfix.
  change (comp ++ "_stock_" ++ str y) with (stockName comp y).
  apply candidate_positive in Hpos.
  assert (comp ∈ level0 (MultiTable
            (rows1 ++ map (fun r : string * Series Val => ((comp, r.1), r.2)) f
             ++ rows2))) as Hin.
  { simpl. rewrite !map_app, map_map. apply elem_of_app. right.
    apply elem_of_app. left. destruct f as [|r f]; [done|]. left. }
  destruct (getStock_new_stock _ _ _ _ _ _ _ _ Hkeys Hwf Hget Ht Hin Hc Ho Hpos)
    as (s & Hs & Hget').
  pose proof (fixCapacity_fields _ _ _ _ _ _ _ Hs) as (_ & _ & _ & Hlife & _).
  unfold fixCapacity in Hs. cbn [capacityFix draftStock set_lifetime set_name] in Hs.
  rewrite Hfix, (table_loc_multi rows1 rows2 comp f H1 H2) in Hs.
  destruct (preprocess2dimData (fillna isnan minusOne f) false) as [v|] eqn:Hpre;
    [|done].
  injection Hs as <-.
  exists (set_capacityFix (Some v) (draftStock comp y n c)), v,
    (fillna isnan minusOne f).
  split; [apply fillna_filled|]. split; [done|]. split; [done|].
  split; [done|]. cbn. apply series_sub_minus.
Qed.

End MoreStockRoller.

(** ** A missing component *)

Section MissingComponent.

Context {Val : Type}.
Variable zeroVal : Val.
Variable minusOne : Val.
Variable isnan : Val -> bool.
Variable preprocess2dimData : DataFrame Val -> bool -> result (Series Val).
Variables (y n : Z).
Variable esM : EnergySystemModel Val.
Variables (mdl comp : string).

Local Abbreviation rollComponent' :=
  (rollComponent zeroVal minusOne isnan preprocess2dimData y n).
Local Abbreviation rollComponents' :=
  (rollComponents zeroVal minusOne isnan preprocess2dimData y n).
Local Abbreviation rollDomain' :=
  (rollDomain zeroVal minusOne isnan preprocess2dimData y n).
Local Abbreviation rollDomains' :=
  (rollDomains zeroVal minusOne isnan preprocess2dimData y n).

(** What bodies of quiet entries keep of the model [esM]: the tables, the
    domains, the keys that have no component, and the quiet entries. *)
Local Abbreviation undisturbed esM1 :=
  ((forall d, getTable esM1 d = getTable esM d)
   /\ dict_keys (componentModelingDict esM1)
      = dict_keys (componentModelingDict esM)
   /\ (forall d k, getComponent esM d k = None -> getComponent esM1 d k = None)
   /\ (forall e, quiet esM n e -> quiet esM1 n e)).

Lemma quiet_body esM1 d t k :
  quiet esM1 n (d, k) ->
  rollComponent' d t k esM1 = (esM1, None)
  \/ exists c,
       getComponent esM1 d k = Some c /\ isStock c
       /\ rollComponent' d t k esM1
          = (storeComponent d k (rolledStock zeroVal (locations esM1) n c) esM1,
             None).
Proof.
  intros (c & Hc & Hcase). simpl in Hc.
  pose proof Hc as Hc'. unfold getComponent in Hc'. unfold rollComponent.
  destruct (dict_get d (componentModelingDict esM1)) as [cm|]; [|done].
  simpl in Hc'. rewrite Hc'.
  destruct (contains "stock" (name c)) eqn:Hs; cbn [negb].
  - right. exists c. by repeat split.
  - left. destruct Hcase as [Hst | Hex]; [unfold isStock in Hst; congruence|].
    apply candidate_expired in Hex.
    change (lifetime (set_lifetime _ _)) with (candidateLifetime c n).
    by rewrite Hex.
Qed.

Lemma body_undisturbed esM1 d t k :
  undisturbed esM1 -> quiet esM n (d, k) ->
  exists esM2, rollComponent' d t k esM1 = (esM2, None) /\ undisturbed esM2.
Proof.
  intros (Htab & Hkeys & Hnone & Hquiet) Hq.
  destruct (quiet_body esM1 d t k (Hquiet _ Hq))
    as [Hsame | (c & Hc & Hst & Hstore)].
  - exists esM1. by repeat split.
  - eexists. split; [exact Hstore|].
    assert (is_Some (dict_get d (componentModelingDict esM1))) as Hdom.
    { unfold getComponent in Hc.
      destruct (dict_get d (componentModelingDict esM1)); [eauto | done]. }
    split; [|split; [|split]].
    + intros d'. by rewrite storeComponent_table.
    + by rewrite storeComponent_keys.
    + intros d' k' Hn. rewrite storeComponent_get_ne; [by apply Hnone | done |].
      intros [= -> ->]. rewrite (Hnone _ _ Hn) in Hc. done.
    + intros [d' k'] He. destruct (Hquiet _ He) as (c1 & Hc1 & Hcase1).
      simpl in Hc1. unfold quiet. simpl.
      destruct (decide ((d', k') = (d, k))) as [[= -> ->]|Hne].
      * eexists. split; [by apply storeComponent_get_eq|]. left.
        unfold isStock in *. by rewrite rolledStock_name.
      * exists c1. by rewrite storeComponent_get_ne.
Qed.

Lemma rollComponents_quiet d t comps esM1 :
  undisturbed esM1 -> Forall (fun k => quiet esM n (d, k)) comps ->
  exists esM2, rollComponents' d t comps esM1 = (esM2, None) /\ undisturbed esM2.
Proof.
  revert esM1. induction comps as [|k comps IH]; intros esM1 Hund Hall; simpl.
  - by exists esM1.
  - apply Forall_cons in Hall as [Hk Hall].
    destruct (body_undisturbed esM1 d t k Hund Hk) as (esM2 & -> & Hund2).
    by apply IH.
Qed.

Lemma rollComponents_KeyError t comps1 comps2 esM1 :
  undisturbed esM1 -> is_Some (getTable esM mdl) ->
  Forall (fun k => quiet esM n (mdl, k)) comps1 ->
  getComponent esM mdl comp = None ->
  exists esM2,
    rollComponents' mdl t (comps1 ++ comp :: comps2) esM1
    = (esM2, Some (KeyError comp))
    /\ undisturbed esM2.
Proof.
  intros Hund Htab Hall Hnone. revert esM1 Hund.
  induction Hall as [|k comps1 Hk _ IH]; intros esM1 Hund; simpl.
  - exists esM1. split; [|done].
    destruct Hund as (Ht1 & _ & Hn1 & _).
    specialize (Hn1 _ _ Hnone). rewrite <- Ht1 in Htab.
    unfold rollComponent. unfold getTable in Htab. unfold getComponent in Hn1.
    destruct (dict_get mdl (componentModelingDict esM1)) as [cm|];
      [|by destruct Htab].
    simpl in Hn1. by rewrite Hn1.
  - destruct (body_undisturbed esM1 mdl t k Hund Hk) as (esM2 & -> & Hund2).
    by apply IH.
Qed.

Lemma rollDomain_quiet d esM1 :
  undisturbed esM1 -> d ∈ dict_keys (componentModelingDict esM) ->
  (forall t k, getTable esM d = Some t -> k ∈ level0 t -> quiet esM n (d, k)) ->
  exists esM2, rollDomain' d esM1 = (esM2, None) /\ undisturbed esM2.
Proof.
  intros Hund Hd Hall. pose proof Hund as (Htab & Hkeys & _).
  specialize (Htab d). unfold getTable in Htab. unfold rollDomain.
  rewrite <- Hkeys in Hd. apply dict_get_keys in Hd as [cm1 Hcm1].
  rewrite Hcm1 in Htab |- *. simpl in Htab.
  destruct (capacityVariablesOptimum cm1) as [t|]; [|by exists esM1].
  apply rollComponents_quiet; [done|].
  apply Forall_forall. intros k Hk. apply (Hall t); [done|].
  by apply elem_of_unique.
Qed.

Lemma rollDomain_KeyError t comps1 comps2 esM1 :
  undisturbed esM1 -> getTable esM mdl = Some t ->
  level0 t = (comps1 ++ comp :: comps2)%list -> comp ∉ comps1 ->
  Forall (fun k => quiet esM n (mdl, k)) comps1 ->
  getComponent esM mdl comp = None ->
  exists esM2,
    rollDomain' mdl esM1 = (esM2, Some (KeyError comp)) /\ undisturbed esM2.
Proof.
  intros Hund Ht Hlvl Hnotin Hall Hnone. pose proof Hund as (Htab & _).
  specialize (Htab mdl). rewrite Ht in Htab. unfold getTable in Htab.
  unfold rollDomain.
  destruct (dict_get mdl (componentModelingDict esM1)) as [cm1|]; [|done].
  simpl in Htab. rewrite Htab, Hlvl.
  destruct (unique_app_first comps1 comps2 comp Hnotin) as (l2' & ->).
  apply rollComponents_KeyError; [done | rewrite Ht; eauto | | done].
  apply Forall_forall. intros k Hk. rewrite elem_of_unique in Hk.
  rewrite Forall_forall in Hall. by apply Hall.
Qed.

Lemma rollDomains_KeyError t comps1 comps2 mdls1 mdls2 esM1 :
  undisturbed esM1 ->
  (forall d, d ∈ mdls1 -> d ∈ dict_keys (componentModelingDict esM)) ->
  (forall d t k, d ∈ mdls1 -> getTable esM d = Some t -> k ∈ level0 t ->
                 quiet esM n (d, k)) ->
  getTable esM mdl = Some t ->
  level0 t = (comps1 ++ comp :: comps2)%list -> comp ∉ comps1 ->
  Forall (fun k => quiet esM n (mdl, k)) comps1 ->
  getComponent esM mdl comp = None ->
  exists esM2,
    rollDomains' (length (componentModelingDict esM)) (mdls1 ++ mdl :: mdls2) esM1
    = (esM2, Some (KeyError comp))
    /\ undisturbed esM2.
Proof.
  intros Hund Hin Hq Ht Hlvl Hnotin Hall Hnone. revert esM1 Hund.
  induction mdls1 as [|d mdls1 IH]; intros esM1 Hund; simpl.
  - assert (length (componentModelingDict esM1)
            = length (componentModelingDict esM)) as ->.
    { destruct Hund as (_ & Hk & _). by rewrite <- !dict_keys_length, Hk. }
    rewrite Nat.eqb_refl. simpl.
    destruct (rollDomain_KeyError t comps1 comps2 esM1 Hund Ht Hlvl Hnotin
                Hall Hnone) as (esM2 & -> & Hund2).
    by exists esM2.
  - assert (length (componentModelingDict esM1)
            = length (componentModelingDict esM)) as ->.
    { destruct Hund as (_ & Hk & _). by rewrite <- !dict_keys_length, Hk. }
    rewrite Nat.eqb_refl. simpl.
    destruct (rollDomain_quiet d esM1 Hund) as (esM2 & -> & Hund2).
    + apply Hin. left.
    + intros t' k. apply Hq. left.
    + apply IH; [| |done].
      * intros d' Hd'. apply Hin. by right.
      * intros d' t' k Hd'. apply Hq. by right.
Qed.

(** X7: a missing component. When the loops of [getStock] reach a name of a
    result table under which the domain has no component, and every entry
    before it in the order of the loops is quiet (its component is a stock
    or an original that is skipped), the lookup of line 118 fails:
    [getStock] raises [KeyError] for that name; it has then registered
    nothing and changed no table. *)
Theorem getStock_missing_component mdls1 mdls2 t comps1 comps2 :
  dict_keys (componentModelingDict esM) = (mdls1 ++ mdl :: mdls2)%list ->
  (forall d t' k, d ∈ mdls1 -> getTable esM d = Some t' -> k ∈ level0 t' ->
                  quiet esM n (d, k)) ->
  getTable esM mdl = Some t ->
  level0 t = (comps1 ++ comp :: comps2)%list -> comp ∉ comps1 ->
  Forall (fun k => quiet esM n (mdl, k)) comps1 ->
  getComponent esM mdl comp = None ->
  exists esM',
    getStock zeroVal minusOne isnan preprocess2dimData esM y n
    = (esM', Some (KeyError comp))
    /\ (forall d, getTable esM' d = getTable esM d)
    /\ (forall d k, getComponent esM d k = None -> getComponent esM' d k = None).
Proof.
  intros Hkeys Hq Ht Hlvl Hnotin Hall Hnone. unfold getStock. rewrite Hkeys.
  assert (undisturbed esM) as Hund by done.
  assert (forall d, d ∈ mdls1 -> d ∈ dict_keys (componentModelingDict esM))
    as Hin.
  { intros d Hd. rewrite Hkeys. apply elem_of_app. by left. }
  destruct (rollDomains_KeyError t comps1 comps2 mdls1 mdls2 esM Hund Hin Hq
              Ht Hlvl Hnotin Hall Hnone) as (esM2 & -> & Htab & _ & Hn & _).
  exists esM2. done.
Qed.

End MissingComponent.

Section MoreStockRollerDomains.

Context {Val : Type}.
Variable zeroVal : Val.
Variable minusOne : Val.
Variable isnan : Val -> bool.
Variable preprocess2dimData : DataFrame Val -> bool -> result (Series Val).
Implicit Types (esM : EnergySystemModel Val) (c : Component Val).

Local Abbreviation getStock' :=
  (getStock zeroVal minusOne isnan preprocess2dimData).
Local Abbreviation run' := (run zeroVal minusOne isnan preprocess2dimData).



Lemma rollDomains_size y n size0 mdls esM esM' :
  rollDomains zeroVal minusOne isnan preprocess2dimData y n size0 mdls esM
  = (esM', None) ->
  length (componentModelingDict esM') = size0.
Proof.
  revert esM. induction mdls as [|mdl mdls IH]; simpl; intros esM H.
  - destruct (Nat.eqb _ _) eqn:E; simpl in H; [|done].
    injection H as <-. by apply Nat.eqb_eq.
  - destruct (negb _); [done|].
    destruct (rollDomain _ _ _ _ _ _ _ _) as [esM1 [e1|]]; [done|]. eauto.
Qed.

(** X8: the domains of the model: [getStock] keeps them in their order and
    at most appends new ones; when it returns, the model has the domains it
    had, in the same order. *)
Theorem getStock_keeps_domains esM y n esM' e :
  getStock' esM y n = (esM', e) ->
  dict_keys (componentModelingDict esM)
  `prefix_of` dict_keys (componentModelingDict esM')
  /\ (e = None ->
      dict_keys (componentModelingDict esM')
      = dict_keys (componentModelingDict esM)).
Proof.
  intros Hget.
  assert (dict_keys (componentModelingDict esM)
          `prefix_of` dict_keys (componentModelingDict esM')) as Hpre.
  { apply (getStock_invariant zeroVal minusOne isnan preprocess2dimData y n
             (fun m => dict_keys (componentModelingDict esM)
                       `prefix_of` dict_keys (componentModelingDict m))
             esM esM' e); [|done|done].
    intros mdl t comp a b Ha _ _ Hstep. etrans; [exact Ha|].
    eapply step_keys_prefix; eauto. }
  split; [done|]. intros ->.
  apply rollDomains_size in Hget.
  destruct Hpre as [k Hk]. rewrite Hk.
  apply (f_equal length) in Hk.
  rewrite length_app, !dict_keys_length, Hget in Hk.
  destruct k; [by rewrite app_nil_r | simpl in Hk; lia].
Qed.

(** X9: nothing to roll: when no domain has a result table with a name in
    it, [getStock] returns the model as it is. *)
Theorem getStock_without_results esM y n :
  (forall d t, getTable esM d = Some t -> level0 t = []) ->
  getStock' esM y n = (esM, None).
Proof.
  intros Hempty. unfold getStock.
  assert (forall mdls,
            (forall mdl, mdl ∈ mdls ->
                         mdl ∈ dict_keys (componentModelingDict esM)) ->
            rollDomains zeroVal minusOne isnan preprocess2dimData y n
              (length (componentModelingDict esM)) mdls esM = (esM, None))
    as Hloop.
  { induction mdls as [|mdl mdls IH]; simpl; intros Hin;
      rewrite Nat.eqb_refl; simpl; [done|].
    assert (rollDomain zeroVal minusOne isnan preprocess2dimData y n mdl esM
            = (esM, None)) as ->.
    { unfold rollDomain.
      assert (mdl ∈ dict_keys (componentModelingDict esM)) as Hmdl
        by (apply Hin; left).
      apply dict_get_keys in Hmdl as [cm Hcm]. rewrite Hcm.
      destruct (capacityVariablesOptimum cm) as [t|] eqn:Ht; [|done].
      rewrite (Hempty mdl t); [done|]. unfold getTable. by rewrite Hcm. }
    apply IH. intros m Hm. apply Hin. by right. }
  by apply Hloop.
Qed.

End MoreStockRollerDomains.

(** ** More on the campaign *)

Lemma fold_dict_set_same_key {A} (k : string) (l : list A) (a0 : A) :
  fold_left (fun res a => dict_set k a res) l [(k, a0)]
  = [(k, default a0 (last l))].
Proof.
  revert a0. induction l as [|a l IH]; intros a0; simpl; [done|].
  destruct (decide (k = k)); [|done]. rewrite IH, last_cons.
  by destruct (last l).
Qed.

Section MoreCampaign.

Context {Val : Type}.
Variable zeroVal : Val.
Variable minusOne : Val.
Variable isnan : Val -> bool.
Variable preprocess2dimData : DataFrame Val -> bool -> result (Series Val).
Variable checkSinkCompCO2toEnvironment :
  EnergySystemModel Val -> option (list Z) -> result unit.
Variable checkCO2ReductionTargets : option (list Z) -> Z -> result unit.
Variable setNewCO2ReductionTarget :
  EnergySystemModel Val -> option (list Z) -> Z -> result (EnergySystemModel Val).
Variable cluster : EnergySystemModel Val -> Z -> Z -> result (EnergySystemModel Val).
Variable optimize :
  EnergySystemModel Val -> OptimizeArgs -> result (EnergySystemModel Val).
Variable writeOptimizationOutputToExcel :
  EnergySystemModel Val -> string -> Z -> Z -> result unit.

Variables (startYear r : Z) (timeSeriesAggregation : bool).
Variables (numberOfTypicalPeriods numberOfTimeStepsPerPeriod threads : Z).
Variables (solver : string) (timeLimit : option Z) (optimizationSpecs : string).
Variable CO2ReductionTargets : option (list Z).

Local Abbreviation myopicStep' :=
  (myopicStep zeroVal minusOne isnan preprocess2dimData
     setNewCO2ReductionTarget cluster optimize writeOptimizationOutputToExcel
     startYear r timeSeriesAggregation numberOfTypicalPeriods
     numberOfTimeStepsPerPeriod threads solver timeLimit optimizationSpecs
     CO2ReductionTargets).
Local Abbreviation myopicLoop' :=
  (myopicLoop zeroVal minusOne isnan preprocess2dimData
     setNewCO2ReductionTarget cluster optimize writeOptimizationOutputToExcel
     startYear r timeSeriesAggregation numberOfTypicalPeriods
     numberOfTimeStepsPerPeriod threads solver timeLimit optimizationSpecs
     CO2ReductionTargets).
Local Abbreviation stepCalls' :=
  (stepCalls startYear r timeSeriesAggregation numberOfTypicalPeriods
     numberOfTimeStepsPerPeriod threads solver timeLimit optimizationSpecs
     CO2ReductionTargets).
Local Abbreviation optimizeMyopic' :=
  (optimizeMyopic zeroVal minusOne isnan preprocess2dimData
     checkSinkCompCO2toEnvironment checkCO2ReductionTargets
     setNewCO2ReductionTarget cluster optimize writeOptimizationOutputToExcel).

(** The calls of a body that returned. *)
Lemma myopicStep_calls step loc w w1 loc1 :
  myopicStep' step loc w = (w1, Ok loc1) ->
  calls w1 = (calls w ++ stepCalls' step)%list.
Proof.
  unfold myopicStep, stepCalls, bind, onModel, readModel, deepcopy,
    callGetStock, ret. cbn.
  destruct (setNewCO2ReductionTarget (model w) CO2ReductionTargets step)
    as [m1|]; [|done].
  destruct timeSeriesAggregation; cbn.
  - destruct (cluster m1 numberOfTypicalPeriods numberOfTimeStepsPerPeriod)
      as [m2|]; [|done]. cbn.
    destruct (optimize m2 _) as [m3|]; [|done]. cbn.
    destruct (writeOptimizationOutputToExcel m3 _ 2 1); [|done]. cbn.
    destruct (getStock _ _ _ _ m3 _ r) as [m4 [e|]]; [done|].
    intros [= <- <-]. cbn. by rewrite <- !app_assoc.
  - destruct (optimize m1 _) as [m3|]; [|done]. cbn.
    destruct (writeOptimizationOutputToExcel m3 _ 2 1); [|done]. cbn.
    destruct (getStock _ _ _ _ m3 _ r) as [m4 [e|]]; [done|].
    intros [= <- <-]. cbn. by rewrite <- !app_assoc.
Qed.

(** What a loop that returned has done, whatever its keys are. *)
Lemma myopicLoop_returned steps loc w w' loc' :
  myopicLoop' steps loc w = (w', Ok loc') ->
  calls w' = (calls w ++ concat (map stepCalls' steps))%list
  /\ length (copies w') = (length (copies w) + length steps)%nat
  /\ var_myopicResults loc'
     = fold_left
         (fun res (sa : Z * nat) => dict_set (resultKey startYear r sa.1) sa.2 res)
         (zip steps (seq (length (copies w)) (length steps)))
         (var_myopicResults loc)
  /\ (forall step0, last steps = Some step0 ->
      exists m, last (copies w') = Some m
                /\ getStock zeroVal minusOne isnan preprocess2dimData m
                     (startYear + step0 * r) r = (model w', None)).
Proof.
  revert loc w. induction steps as [|step steps IH]; intros loc w Hloop.
  - injection Hloop as <- <-. simpl. rewrite app_nil_r.
    repeat split; [lia | done].
  - simpl in Hloop. unfold bind in Hloop at 1.
    destruct (myopicStep' step loc w) as [w1 [loc1|]] eqn:Hstep; [|done].
    pose proof (myopicStep_calls _ _ _ _ _ Hstep) as Hcalls.
    apply myopicStep_ok in Hstep as (m' & Hsolve & Hg & Hcopies & Hres).
    destruct (IH loc1 w1 Hloop) as (Hcalls' & Hlen' & Hres' & Hlast').
    split; [|split; [|split]].
    + rewrite Hcalls', Hcalls. simpl. by rewrite <- app_assoc.
    + rewrite Hlen', Hcopies, length_app. simpl. lia.
    + rewrite Hres', Hres, Hcopies, length_app. simpl.
      replace (length (copies w) + 1)%nat with (S (length (copies w))) by lia.
      done.
    + intros step0 Hlast. destruct steps as [|step1 steps].
      * injection Hlast as <-. injection Hloop as <- <-.
        exists m'. split; [|done]. rewrite Hcopies. apply last_snoc.
      * apply Hlast'. exact Hlast.
Qed.

(** The campaign once the horizon is resolved and the checks are passed. *)
Lemma optimizeMyopic_returned esM endYear nbOfSteps nbOfRepresentedYears
    logFileName warmstart n w results :
  checkAndSetTimeHorizon startYear endYear nbOfSteps nbOfRepresentedYears
  = Ok (n, r) ->
  optimizeMyopic' esM startYear endYear nbOfSteps nbOfRepresentedYears
    timeSeriesAggregation numberOfTypicalPeriods numberOfTimeStepsPerPeriod
    logFileName threads solver timeLimit optimizationSpecs warmstart
    CO2ReductionTargets = (w, Ok results) ->
  exists loc,
    myopicLoop' (seqZ 0 (n + 1)) (mkLocals startYear logFileName [])
      (mkWorld esM []
         [Print "Number of optimization runs: " (n + 1);
          Print "Number of years represented by one optimization: " r])
    = (w, Ok loc)
    /\ results = var_myopicResults loc.
Proof.
  intros Hplan Hrun. unfold optimizeMyopic in Hrun. rewrite Hplan in Hrun.
  unfold bind at 1, check at 1 in Hrun. cbn [model] in Hrun.
  destruct (checkSinkCompCO2toEnvironment esM CO2ReductionTargets); [|done].
  unfold bind at 1, check at 1 in Hrun.
  destruct (checkCO2ReductionTargets CO2ReductionTargets n); [|done].
  unfold bind at 1, emit at 1 in Hrun. unfold bind at 1, emit at 1 in Hrun.
  unfold bind at 1 in Hrun. cbn [model copies calls app] in Hrun.
  match type of Hrun with
  | context [myopicLoop' ?steps ?loc ?w0] =>
      destruct (myopicLoop' steps loc w0) as [w1 [loc1|]] eqn:Hloop; [|done]
  end.
  unfold ret in Hrun. injection Hrun as <- <-. by exists loc1.
Qed.

(** X10: the calls of a campaign that returns: the two prints, then for each
    step [k = 0..n] in order the new CO2 target, the clustering if time
    series aggregation is on, the optimization with the log file
    ['log_' + str(mileStoneYear)], the problem declared anew and no warm
    start, and the export to ['ESM' + str(mileStoneYear)]; nothing else,
    also when the years per step are zero. *)
Theorem optimizeMyopic_calls esM endYear nbOfSteps nbOfRepresentedYears
    logFileName warmstart n w results :
  checkAndSetTimeHorizon startYear endYear nbOfSteps nbOfRepresentedYears
  = Ok (n, r) ->
  optimizeMyopic' esM startYear endYear nbOfSteps nbOfRepresentedYears
    timeSeriesAggregation numberOfTypicalPeriods numberOfTimeStepsPerPeriod
    logFileName threads solver timeLimit optimizationSpecs warmstart
    CO2ReductionTargets = (w, Ok results) ->
  calls w
  = ([Print "Number of optimization runs: " (n + 1);
      Print "Number of years represented by one optimization: " r]
     ++ concat (map stepCalls' (seqZ 0 (n + 1))))%list
  /\ length (copies w) = Z.to_nat (n + 1).
Proof.
  intros Hplan Hrun.
  destruct (optimizeMyopic_returned _ _ _ _ _ _ _ _ _ Hplan Hrun)
    as (loc & Hloop & _).
  apply myopicLoop_returned in Hloop as (Hcalls & Hlen & _).
  split; [exact Hcalls|]. rewrite Hlen, length_seqZ. simpl. lia.
Qed.

(** X13: the model that the caller passed is rolled on: when a campaign
    with [n >= 0] steps returns, the model object is what [getStock] made
    of the last entry of the results, rolled past the last milestone year
    [startYear + n * r]. *)
Theorem optimizeMyopic_rolls_model esM endYear nbOfSteps nbOfRepresentedYears
    logFileName warmstart n w results :
  checkAndSetTimeHorizon startYear endYear nbOfSteps nbOfRepresentedYears
  = Ok (n, r) ->
  0 <= n ->
  optimizeMyopic' esM startYear endYear nbOfSteps nbOfRepresentedYears
    timeSeriesAggregation numberOfTypicalPeriods numberOfTimeStepsPerPeriod
    logFileName threads solver timeLimit optimizationSpecs warmstart
    CO2ReductionTargets = (w, Ok results) ->
  exists m,
    last (copies w) = Some m
    /\ getStock zeroVal minusOne isnan preprocess2dimData m
         (startYear + n * r) r = (model w, None).
Proof.
  intros Hplan Hn Hrun.
  destruct (optimizeMyopic_returned _ _ _ _ _ _ _ _ _ Hplan Hrun)
    as (loc & Hloop & _).
  apply myopicLoop_returned in Hloop as (_ & _ & _ & Hlast).
  apply Hlast. rewrite seqZ_app by lia.
  change (seqZ (0 + n) 1) with [0 + n]. rewrite last_snoc. reflexivity.
Qed.

(** The calls of a body, returned or raised, are the first calls of a body
    that returns. *)
Lemma myopicStep_calls_prefix step loc w w1 res :
  myopicStep' step loc w = (w1, res) ->
  exists p, calls w1 = (calls w ++ p)%list /\ p `prefix_of` stepCalls' step.
Proof.
  unfold myopicStep, stepCalls, bind, onModel, readModel, deepcopy,
    callGetStock, ret. cbn.
  destruct (setNewCO2ReductionTarget (model w) CO2ReductionTargets step)
    as [m1|].
  2: { intros [= <- <-]. cbn. eexists. split; [done|]. by eexists. }
  destruct timeSeriesAggregation; cbn.
  - destruct (cluster m1 numberOfTypicalPeriods numberOfTimeStepsPerPeriod)
      as [m2|]; cbn.
    2: { intros [= <- <-]. cbn. rewrite <- app_assoc.
         eexists. split; [done|]. by eexists. }
    destruct (optimize m2 _) as [m3|]; cbn.
    2: { intros [= <- <-]. cbn. rewrite <- !app_assoc.
         eexists. split; [done|]. by eexists. }
    destruct (writeOptimizationOutputToExcel m3 _ 2 1); cbn.
    2: { intros [= <- <-]. cbn. rewrite <- !app_assoc.
         eexists. split; [done|]. by exists []. }
    destruct (getStock _ _ _ _ m3 _ r) as [m4 [e|]];
      intros [= <- <-]; cbn; rewrite <- !app_assoc;
      (eexists; split; [done|]; by exists []).
  - destruct (optimize m1 _) as [m3|]; cbn.
    2: { intros [= <- <-]. cbn. rewrite <- !app_assoc.
         eexists. split; [done|]. by eexists. }
    destruct (writeOptimizationOutputToExcel m3 _ 2 1); cbn.
    2: { intros [= <- <-]. cbn. rewrite <- !app_assoc.
         eexists. split; [done|]. by exists []. }
    destruct (getStock _ _ _ _ m3 _ r) as [m4 [e|]];
      intros [= <- <-]; cbn; rewrite <- !app_assoc;
      (eexists; split; [done|]; by exists []).
Qed.

Lemma myopicLoop_calls_prefix steps loc w w' res :
  myopicLoop' steps loc w = (w', res) ->
  exists p, calls w' = (calls w ++ p)%list
            /\ p `prefix_of` concat (map stepCalls' steps).
Proof.
  revert loc w. induction steps as [|step steps IH]; intros loc w Hloop.
  - injection Hloop as <- <-. exists []. by rewrite app_nil_r.
  - simpl in Hloop. unfold bind in Hloop at 1.
    destruct (myopicStep' step loc w) as [w1 [loc1|e]] eqn:Hstep.
    + pose proof (myopicStep_calls _ _ _ _ _ Hstep) as Hcalls.
      destruct (IH loc1 w1 Hloop) as (p & Hp & Hpre).
      exists (app (stepCalls' step) p). split.
      * by rewrite Hp, Hcalls, <- app_assoc.
      * simpl. destruct Hpre as [k ->]. exists k. by rewrite app_assoc.
    + injection Hloop as <- <-.
      destruct (myopicStep_calls_prefix _ _ _ _ _ Hstep) as (p & Hp & Hpre).
      exists p. split; [done|]. destruct Hpre as [k Hk].
      exists (app k (concat (map stepCalls' steps))).
      cbn [map concat]. rewrite Hk. by rewrite app_assoc.
Qed.

(** X11: the campaign never makes a call out of turn: whether it returns or
    raises, and at whatever call it stops, the calls it has made are the
    first calls of the campaign that returns; when the horizon planner or
    one of the two checks raises, it has made no call at all. *)
Theorem optimizeMyopic_calls_in_order esM endYear nbOfSteps nbOfRepresentedYears
    logFileName warmstart n w res :
  checkAndSetTimeHorizon startYear endYear nbOfSteps nbOfRepresentedYears
  = Ok (n, r) ->
  optimizeMyopic' esM startYear endYear nbOfSteps nbOfRepresentedYears
    timeSeriesAggregation numberOfTypicalPeriods numberOfTimeStepsPerPeriod
    logFileName threads solver timeLimit optimizationSpecs warmstart
    CO2ReductionTargets = (w, res) ->
  calls w
  `prefix_of`
  ([Print "Number of optimization runs: " (n + 1);
    Print "Number of years represented by one optimization: " r]
   ++ concat (map stepCalls' (seqZ 0 (n + 1))))%list
  /\ ((exists e, checkSinkCompCO2toEnvironment esM CO2ReductionTargets = Raise e)
      \/ (exists e, checkCO2ReductionTargets CO2ReductionTargets n = Raise e) ->
      calls w = [] /\ model w = esM /\ exists e, res = Raise e).
Proof.
  intros Hplan Hrun. unfold optimizeMyopic in Hrun. rewrite Hplan in Hrun.
  unfold bind at 1, check at 1 in Hrun. cbn [model] in Hrun.
  destruct (checkSinkCompCO2toEnvironment esM CO2ReductionTargets) as [[]|e1].
  2: { injection Hrun as <- <-. split; [by eexists|]. intros _. eauto. }
  unfold bind at 1, check at 1 in Hrun.
  destruct (checkCO2ReductionTargets CO2ReductionTargets n) as [[]|e2].
  2: { injection Hrun as <- <-. split; [by eexists|]. intros _. eauto. }
  split; [|intros [[e He]|[e He]]; done].
  unfold bind at 1, emit at 1 in Hrun. unfold bind at 1, emit at 1 in Hrun.
  unfold bind at 1 in Hrun. cbn [model copies calls app] in Hrun.
  match type of Hrun with
  | context [myopicLoop' ?steps ?loc ?w0] =>
      destruct (myopicLoop' steps loc w0) as [w1 [loc1|e]] eqn:Hloop
  end.
  - unfold ret in Hrun. injection Hrun as <- <-.
    destruct (myopicLoop_calls_prefix _ _ _ _ _ Hloop) as (p & -> & Hpre).
    cbn [calls]. destruct Hpre as [k ->]. exists k. by rewrite app_assoc.
  - injection Hrun as <- <-.
    destruct (myopicLoop_calls_prefix _ _ _ _ _ Hloop) as (p & -> & Hpre).
    cbn [calls]. destruct Hpre as [k ->]. exists k. by rewrite app_assoc.
Qed.

End MoreCampaign.

Lemma fold_dict_set_snd {A B} (key : A -> string) (k : string)
    (l : list (A * B)) (d : list (string * B)) :
  (forall a, key a = k) ->
  fold_left (fun res (sa : A * B) => dict_set (key sa.1) sa.2 res) l d
  = fold_left (fun res a => dict_set k a res) (map snd l) d.
Proof.
  intros Hkey. revert d.
  induction l as [|x l IH]; intros d; simpl; [done|]. by rewrite Hkey, IH.
Qed.

Lemma last_seq_default (start len : nat) :
  default start (last (seq (S start) len)) = (start + len)%nat.
Proof.
  destruct len as [|len]; [simpl; lia|].
  rewrite seq_S, last_snoc. simpl. lia.
Qed.

Section ZeroYears.

Context {Val : Type}.
Variable zeroVal : Val.
Variable minusOne : Val.
Variable isnan : Val -> bool.
Variable preprocess2dimData : DataFrame Val -> bool -> result (Series Val).
Variable checkSinkCompCO2toEnvironment :
  EnergySystemModel Val -> option (list Z) -> result unit.
Variable checkCO2ReductionTargets : option (list Z) -> Z -> result unit.
Variable setNewCO2ReductionTarget :
  EnergySystemModel Val -> option (list Z) -> Z -> result (EnergySystemModel Val).
Variable cluster : EnergySystemModel Val -> Z -> Z -> result (EnergySystemModel Val).
Variable optimize :
  EnergySystemModel Val -> OptimizeArgs -> result (EnergySystemModel Val).
Variable writeOptimizationOutputToExcel :
  EnergySystemModel Val -> string -> Z -> Z -> result unit.

(** X12: zero years per step: when a campaign with [n >= 0] steps of zero
    years returns, all [n + 1] runs were made and copied, but the mapping
    has the single key ['ESM_' + str(startYear)], and its entry is the copy
    of the last run: each run has overwritten the entry of the run before. *)
Theorem optimizeMyopic_zero_years esM startYear endYear nbOfSteps
    nbOfRepresentedYears timeSeriesAggregation numberOfTypicalPeriods
    numberOfTimeStepsPerPeriod logFileName threads solver timeLimit
    optimizationSpecs warmstart CO2ReductionTargets n w results :
  checkAndSetTimeHorizon startYear endYear nbOfSteps nbOfRepresentedYears
  = Ok (n, 0) ->
  0 <= n ->
  optimizeMyopic zeroVal minusOne isnan preprocess2dimData
    checkSinkCompCO2toEnvironment checkCO2ReductionTargets
    setNewCO2ReductionTarget cluster optimize writeOptimizationOutputToExcel
    esM startYear endYear nbOfSteps nbOfRepresentedYears
    timeSeriesAggregation numberOfTypicalPeriods numberOfTimeStepsPerPeriod
    logFileName threads solver timeLimit optimizationSpecs warmstart
    CO2ReductionTargets = (w, Ok results) ->
  results = [("ESM_" ++ str startYear, Z.to_nat n)]
  /\ length (copies w) = Z.to_nat (n + 1).
Proof.
  intros Hplan Hn Hrun.
  eapply optimizeMyopic_returned in Hrun as (loc & Hloop & ->);
    [|exact Hplan].
  apply myopicLoop_returned in Hloop as (_ & Hlen & Hres & _).
  cbn [copies length] in Hlen, Hres. rewrite length_seqZ in Hlen, Hres.
  split; [|by rewrite Hlen].
  rewrite Hres. cbn [var_myopicResults].
  rewrite (fold_dict_set_snd _ ("ESM_" ++ str startYear));
    [|intros a; unfold resultKey; by rewrite Z.mul_0_r, Z.add_0_r].
  rewrite snd_zip by (rewrite length_seq, length_seqZ; lia).
  replace (Z.to_nat (n + 1)) with (S (Z.to_nat n)) by lia.
  cbn [seq fold_left dict_set].
  rewrite fold_dict_set_same_key, last_seq_default. f_equal.
Qed.

End ZeroYears.

(** ** The further properties on the sample models *)

Lemma getStock_keeps_tables_and_locations_witness :
  locations (sample_getStock sample_model 2020 10).1 = locations sample_model
  /\ forall d, getTable (sample_getStock sample_model 2020 10).1 d
               = getTable sample_model d.
Proof.
  apply (getStock_keeps_tables_and_locations 0 (-1) nonan flatten2dim
           sample_model 2020 10 _ None).
  vm_compute. reflexivity.
Defined.

Lemma getStock_keeps_identity_witness :
  exists c',
    getComponent (sample_getStock sample_model 2020 10).1
      "SourceSinkModel" "Wind_stock_2010" = Some c'
    /\ name c' = name sample_stock
    /\ modelingClass c' = modelingClass sample_stock
    /\ technicalLifetime c' = technicalLifetime sample_stock.
Proof.
  apply (getStock_keeps_identity 0 (-1) nonan flatten2dim sample_model 2020 10
           _ None "SourceSinkModel" "Wind_stock_2010" sample_stock).
  - vm_compute. reflexivity.
  - vm_compute. reflexivity.
Defined.

Lemma getStock_untouched_witness :
  getComponent (sample_getStock two_domain_model 2020 10).1
    "StorageModel" "Battery" = Some sample_battery.
Proof.
  apply (getStock_untouched 0 (-1) nonan flatten2dim two_domain_model 2020 10
           _ None "StorageModel" "Battery" sample_battery).
  - vm_compute. reflexivity.
  - vm_compute. reflexivity.
  - intros t Ht. vm_compute in Ht. discriminate.
Defined.

Lemma getStock_new_names_witness :
  contains "stock" "Wind_stock_2020" = true
  /\ exists mdl t comp c,
       getTable sample_model mdl = Some t /\ comp ∈ level0 t
       /\ getComponent sample_model mdl comp = Some c /\ isOriginal c
       /\ Forall (fun lv : string * Z => 0 < lv.2) (candidateLifetime c 10)
       /\ "Wind_stock_2020" = stockName comp 2020.
Proof.
  apply (getStock_new_names 0 (-1) nonan flatten2dim sample_model 2020 10
           (sample_getStock sample_model 2020 10).1 None "Wind_stock_2020").
  - vm_compute. reflexivity.
  - vm_compute. reflexivity.
  - vm_compute. reflexivity.
Defined.

Lemma getStock_retired_stays_retired_witness :
  exists c',
    getComponent (sample_getStock rolled_model 2030 10).1
      "SourceSinkModel" "Wind_stock_2010" = Some c'
    /\ Exists (fun lv : string * Z => lv.2 <= 0) (lifetime c')
    /\ isRetired 0 (locations rolled_model) c'.
Proof.
  apply (getStock_retired_stays_retired 0 (-1) nonan flatten2dim rolled_model
           2030 10 _ None "SourceSinkModel" "Wind_stock_2010" retired_stock).
  - lia.
  - vm_compute. reflexivity.
  - vm_compute. reflexivity.
  - left. simpl. lia.
  - repeat split; vm_compute; reflexivity.
Defined.

Lemma getStock_adds_stock_frame_witness :
  exists s,
    getComponent
      (getStock (Some 0) (Some (-1)) isnone flatten2dim_opt nan_cable_model
         2020 10).1
      "TransmissionModel" "Cable_stock_2020" = Some s
    /\ capacityFix s
       = Some [("a", Some (-1)); ("b", Some 4); ("a", Some 4); ("b", Some (-1))]
    /\ lifetime s = [("a_b", 30); ("b_a", 30)].
Proof.
  destruct (getStock_adds_stock_frame (Some 0) (Some (-1)) isnone
              flatten2dim_opt nan_cable_model 2020 10
              (getStock (Some 0) (Some (-1)) isnone flatten2dim_opt
                 nan_cable_model 2020 10).1
              "TransmissionModel" [] [] "Cable" nan_cable nan_cable_frame)
    as (s & v & f' & Hfill & Hpre & Hget & Hfix & Hlife).
  - apply keys_wf_single.
  - apply tables_wf_check. vm_compute. reflexivity.
  - vm_compute. reflexivity.
  - vm_compute. reflexivity.
  - discriminate.
  - intros H. inversion H.
  - intros H. inversion H.
  - vm_compute. reflexivity.
  - vm_compute. reflexivity.
  - simpl. repeat (constructor; [simpl; lia|]). constructor.
  - reflexivity.
  - apply filledFrame_eq in Hfill. simpl in Hfill. rewrite Hfill in Hpre.
    injection Hpre as <-.
    exists s. split; [exact Hget|]. split; [exact Hfix|].
    exact (series_minus_eq _ _ _ Hlife).
Defined.

Lemma getStock_missing_component_witness :
  exists esM',
    sample_getStock missing_model 2020 10 = (esM', Some (KeyError "Solar"))
    /\ (forall d, getTable esM' d = getTable missing_model d)
    /\ (forall d k, getComponent missing_model d k = None ->
                    getComponent esM' d k = None).
Proof.
  apply (getStock_missing_component 0 (-1) nonan flatten2dim 2020 10
           missing_model "SourceSinkModel" "Solar" [] [] missing_table
           ["Wind_stock_2010"] []).
  - reflexivity.
  - intros d t' k Hd. inversion Hd.
  - vm_compute. reflexivity.
  - reflexivity.
  - intros H. apply elem_of_cons in H as [H|H]; [discriminate H | inversion H].
  - constructor; [|constructor].
    exists sample_stock. split; [vm_compute; reflexivity|].
    left. vm_compute. reflexivity.
  - vm_compute. reflexivity.
Defined.

Lemma getStock_keeps_domains_witness :
  dict_keys (componentModelingDict two_domain_model)
  `prefix_of`
  dict_keys (componentModelingDict (sample_getStock two_domain_model 2020 10).1)
  /\ (@None Exn = None ->
      dict_keys (componentModelingDict (sample_getStock two_domain_model 2020 10).1)
      = dict_keys (componentModelingDict two_domain_model)).
Proof.
  apply (getStock_keeps_domains 0 (-1) nonan flatten2dim two_domain_model
           2020 10 _ None).
  vm_compute. reflexivity.
Defined.

Lemma getStock_without_results_witness :
  sample_getStock idle_model 2020 10 = (idle_model, None).
Proof.
  apply (getStock_without_results 0 (-1) nonan flatten2dim idle_model 2020 10).
  intros d t Ht. unfold getTable in Ht. simpl in Ht.
  destruct (decide ("StorageModel" = d)); simpl in Ht; discriminate.
Defined.

Lemma optimizeMyopic_calls_witness :
  calls sample_campaign.1
  = ([Print "Number of optimization runs: " (2 + 1);
      Print "Number of years represented by one optimization: " 10]
     ++ concat (map (stepCalls 2020 10 false 7 24 3 "gurobi" None "" None)
                    (seqZ 0 (2 + 1))))%list
  /\ length (copies sample_campaign.1) = Z.to_nat (2 + 1).
Proof.
  apply (optimizeMyopic_calls 0 (-1) nonan flatten2dim
           (fun _ _ => Ok tt) (fun _ _ => Ok tt) (fun m _ _ => Ok m)
           (fun m _ _ => Ok m) (fun m _ => Ok m) (fun _ _ _ _ => Ok tt)
           2020 10 false 7 24 3 "gurobi" None "" None
           sample_model None (Some 2) (Some 10) "myopic" false 2
           sample_campaign.1
           [("ESM_2020", 0%nat); ("ESM_2030", 1%nat); ("ESM_2040", 2%nat)]).
  - vm_compute. reflexivity.
  - vm_compute. reflexivity.
Defined.

Lemma optimizeMyopic_calls_in_order_witness :
  calls sample_campaign.1
  `prefix_of`
  ([Print "Number of optimization runs: " (2 + 1);
    Print "Number of years represented by one optimization: " 10]
   ++ concat (map (stepCalls 2020 10 false 7 24 3 "gurobi" None "" None)
                  (seqZ 0 (2 + 1))))%list
  /\ ((exists e, (fun (_ : EnergySystemModel Z) (_ : option (list Z)) => Ok tt)
                   sample_model None = Raise e)
      \/ (exists e, (fun (_ : option (list Z)) (_ : Z) => Ok tt) None 2
                    = Raise e) ->
      calls sample_campaign.1 = [] /\ model sample_campaign.1 = sample_model
      /\ exists e, sample_campaign.2 = Raise e).
Proof.
  apply (optimizeMyopic_calls_in_order 0 (-1) nonan flatten2dim
           (fun _ _ => Ok tt) (fun _ _ => Ok tt) (fun m _ _ => Ok m)
           (fun m _ _ => Ok m) (fun m _ => Ok m) (fun _ _ _ _ => Ok tt)
           2020 10 false 7 24 3 "gurobi" None "" None
           sample_model None (Some 2) (Some 10) "myopic" false 2
           sample_campaign.1 sample_campaign.2).
  - vm_compute. reflexivity.
  - vm_compute. reflexivity.
Defined.

Lemma optimizeMyopic_rolls_model_witness :
  exists m,
    last (copies sample_campaign.1) = Some m
    /\ sample_getStock m (2020 + 2 * 10) 10 = (model sample_campaign.1, None).
Proof.
  apply (optimizeMyopic_rolls_model 0 (-1) nonan flatten2dim
           (fun _ _ => Ok tt) (fun _ _ => Ok tt) (fun m _ _ => Ok m)
           (fun m _ _ => Ok m) (fun m _ => Ok m) (fun _ _ _ _ => Ok tt)
           2020 10 false 7 24 3 "gurobi" None "" None
           sample_model None (Some 2) (Some 10) "myopic" false 2
           sample_campaign.1
           [("ESM_2020", 0%nat); ("ESM_2030", 1%nat); ("ESM_2040", 2%nat)]).
  - vm_compute. reflexivity.
  - lia.
  - vm_compute. reflexivity.
Defined.

Lemma optimizeMyopic_zero_years_witness :
  [("ESM_2020", 1%nat)] = [("ESM_" ++ str 2020, Z.to_nat 1)]
  /\ length (copies idle_campaign.1) = Z.to_nat (1 + 1).
Proof.
  apply (optimizeMyopic_zero_years 0 (-1) nonan flatten2dim
           (fun _ _ => Ok tt) (fun _ _ => Ok tt) (fun m _ _ => Ok m)
           (fun m _ _ => Ok m) (fun m _ => Ok m) (fun _ _ _ _ => Ok tt)
           idle_model 2020 None (Some 1) (Some 0) true 7 24 "" 3 "gurobi"
           None "" false None 1 idle_campaign.1 [("ESM_2020", 1%nat)]).
  - vm_compute. reflexivity.
  - lia.
  - vm_compute. reflexivity.
Defined.
